(** * LibFS: a shallow embedding of Project4/LibFS.c

    The file system of Project4 sits on a simulated disk of fixed-size
    sectors.  This development embeds the C functions of LibFS.c as
    executable Rocq functions and states the properties of the
    specification over them.

    Conventions of the embedding.
    - A C [int] is a [Z].  Signed arithmetic is done on [Z]; the places where
      C converts between [int] and [size_t] (every expression that involves
      [sizeof], hence [INODES_PER_SECTOR] and [DIRENTS_PER_SECTOR]) have the
      conversion written out with [to_size_t] and [to_int].
    - A byte is a [Z] in [0, 256); a sector buffer is a [list Z]; the
      [inode_t] and [dirent_t] records are overlaid on sector buffers the way
      the C code casts pointers: fields are little-endian 4-byte integers at
      fixed offsets.
    - Global state (the disk, the open-file table, [osErrno]) is threaded
      through a state monad [M].  A computation yields [None] when the C
      program leaves defined behaviour: a failed [assert], an access outside
      an array or buffer, a read of an uninitialised variable.  Every
      evaluation used as evidence below yields [Some]. *)

From Stdlib Require Import ZArith Lia List Bool String Ascii.
From stdpp Require Import base option list.

Local Open Scope Z_scope.

(** ** Configuration constants *)

(** Modelled from the spec: the headers LibFS.h and LibDisk.h are not part of
    the sources; the four configuration constants they define (max files,
    total sectors, sector size, max sectors per file) are parameters. *)
Class Params : Type := {
  MAX_FILES : Z;
  TOTAL_SECTORS : Z;
  SECTOR_SIZE : Z;
  MAX_SECTORS_PER_FILE : Z
}.

(** Modelled from the spec: the configuration of the scenario of the
    specification (64 files, 2048 sectors of 512 bytes, 16 sectors per file). *)
Definition scenario : Params :=
  {| MAX_FILES := 64; TOTAL_SECTORS := 2048; SECTOR_SIZE := 512;
     MAX_SECTORS_PER_FILE := 16 |}.

(** Modelled from the spec: the error kinds that LibFS.h enumerates and that
    LibFS.c stores in [osErrno]. *)
Inductive FS_Error : Type :=
  | E_GENERAL | E_CREATE | E_NO_SUCH_FILE | E_TOO_MANY_OPEN_FILES | E_BAD_FD
  | E_NO_SPACE | E_FILE_TOO_BIG | E_SEEK_OUT_OF_BOUNDS | E_FILE_IN_USE
  | E_NO_SUCH_DIR | E_DIR_NOT_EMPTY | E_ROOT_DIR | E_BUFFER_TOO_SMALL.

(** ** C integers and raw buffers *)

Definition to_int (x : Z) : Z := (x + 2 ^ 31) mod 2 ^ 32 - 2 ^ 31.
Definition to_size_t (x : Z) : Z := x mod 2 ^ 64.

Definition sgn (n : Z) : Z :=
  if n =? 0 then 0 else if n >? 0 then 1 else -1.

Definition zlen {A} (l : list A) : Z := Z.of_nat (length l).

Definition buf_get (buf : list Z) (i : Z) : option Z :=
  if i <? 0 then None else buf !! Z.to_nat i.

Definition buf_set (buf : list Z) (i v : Z) : option (list Z) :=
  if (0 <=? i) && (i <? zlen buf) then Some (<[Z.to_nat i := v]> buf) else None.

(** [*(int * )(buf + off)] on a little-endian machine. *)
Definition load_int (buf : list Z) (off : Z) : option Z :=
  b0 ← buf_get buf off;
  b1 ← buf_get buf (off + 1);
  b2 ← buf_get buf (off + 2);
  b3 ← buf_get buf (off + 3);
  Some (to_int (b0 + 2 ^ 8 * b1 + 2 ^ 16 * b2 + 2 ^ 24 * b3)).

Definition store_int (buf : list Z) (off v : Z) : option (list Z) :=
  let u := v mod 2 ^ 32 in
  buf ← buf_set buf off (u mod 2 ^ 8);
  buf ← buf_set buf (off + 1) (u / 2 ^ 8 mod 2 ^ 8);
  buf ← buf_set buf (off + 2) (u / 2 ^ 16 mod 2 ^ 8);
  buf_set buf (off + 3) (u / 2 ^ 24 mod 2 ^ 8).

(** [memcpy(dst + doff, src + soff, n)]; the length is a [size_t], so a
    negative [int] length is a length far beyond any object. *)
Definition memcpy (dst : list Z) (doff : Z) (src : list Z) (soff n : Z)
  : option (list Z) :=
  if (0 <=? n) && (0 <=? doff) && (0 <=? soff)
     && (doff + n <=? zlen dst) && (soff + n <=? zlen src)
  then Some (take (Z.to_nat doff) dst
             ++ take (Z.to_nat n) (drop (Z.to_nat soff) src)
             ++ drop (Z.to_nat (doff + n)) dst)
  else None.

(** [memset(dst + off, c, n)]. *)
Definition memset (dst : list Z) (off c n : Z) : option (list Z) :=
  if (0 <=? n) && (0 <=? off) && (off + n <=? zlen dst)
  then Some (take (Z.to_nat off) dst ++ repeat c (Z.to_nat n)
             ++ drop (Z.to_nat (off + n)) dst)
  else None.

(** A C string: the characters before the first NUL. *)
Fixpoint c_str (s : list Z) : list Z :=
  match s with
  | [] => []
  | c :: s' => if c =? 0 then [] else c :: c_str s'
  end.

(** [strcmp(buf + off, s) == 0] for a NUL-free [s]. *)
Fixpoint streq_at (buf : list Z) (off : Z) (s : list Z) : option bool :=
  match s with
  | [] => c ← buf_get buf off; Some (c =? 0)
  | x :: s' =>
      c ← buf_get buf off;
      if c =? x then streq_at buf (off + 1) s' else Some false
  end.

(** [strncpy(dst + off, s, n)] for a NUL-free [s]: copy, then pad with NULs. *)
Definition strncpy (dst : list Z) (off : Z) (s : list Z) (n : Z)
  : option (list Z) :=
  let padded := take (Z.to_nat n) (s ++ repeat 0 (Z.to_nat n)) in
  memcpy dst off padded 0 n.

Definition bytes_of_string (s : string) : list Z :=
  map (fun a => Z.of_N (N_of_ascii a)) (list_ascii_of_string s).

(** ** The state of the program *)

Abbreviation sector := (list Z) (only parsing).

Inductive io_event : Type :=
  | IORead (s : Z)
  | IOWrite (s : Z).

(** [open_file_t] *)
Record open_file_t : Type := OpenFile {
  of_inode : Z;   (* inode of the file (0 means entry not used) *)
  of_size : Z;    (* file size cached here for convenience *)
  of_pos : Z      (* read/write position *)
}.

Record world : Type := World {
  disk : list sector;
  open_files : list open_file_t;
  osErrno : option FS_Error;
  io_log : list io_event    (* block-device calls, most recent first *)
}.

Definition M (A : Type) : Type := world -> option (A * world).

Definition ret {A} (a : A) : M A := fun w => Some (a, w).

Definition bind {A B} (m : M A) (k : A -> M B) : M B :=
  fun w => match m w with
           | Some (a, w') => k a w'
           | None => None
           end.

Definition undefined {A} : M A := fun _ => None.

Definition defined {A} (o : option A) : M A :=
  fun w => match o with Some a => Some (a, w) | None => None end.

Notation "x <~ m ;; k" := (bind m (fun x => k))
  (at level 100, m at next level, right associativity).
Notation "m ;;; k" := (bind m (fun _ => k))
  (at level 100, right associativity).

Definition set_osErrno (e : FS_Error) : M unit :=
  fun w => Some (tt, World (disk w) (open_files w) (Some e) (io_log w)).

Definition get_open_files : M (list open_file_t) :=
  fun w => Some (open_files w, w).

Definition put_open_files (t : list open_file_t) : M unit :=
  fun w => Some (tt, World (disk w) t (osErrno w) (io_log w)).

Definition MAX_PATH : Z := 256.
Definition MAX_NAME : Z := 16.
Definition MAX_OPEN_FILES : Z := 256.

Section LibFS.
Context {P : Params}.

(** ** The block device *)

(** Modelled from the spec: LibDisk is an external collaborator; a read or a
    write addresses one sector by a zero-based index below [TOTAL_SECTORS] and
    signals an error otherwise.  [Disk_Read] yields the sector, or [None] for
    a negative return value. *)
Definition Disk_Read (s : Z) : M (option sector) :=
  fun w =>
    let w' := World (disk w) (open_files w) (osErrno w) (IORead s :: io_log w) in
    if (0 <=? s) && (s <? TOTAL_SECTORS)
    then Some (disk w !! Z.to_nat s, w')
    else Some (None, w').

(** Modelled from the spec: see [Disk_Read]; the result is the C return
    value, 0 or -1.  The device copies [SECTOR_SIZE] bytes out of the buffer,
    so the buffer is a whole sector. *)
Definition Disk_Write (s : Z) (buf : sector) : M Z :=
  fun w =>
    if negb (zlen buf =? SECTOR_SIZE) then None
    else if (0 <=? s) && (s <? zlen (disk w)) && (s <? TOTAL_SECTORS)
    then Some (0, World (<[Z.to_nat s := buf]> (disk w)) (open_files w)
                        (osErrno w) (IOWrite s :: io_log w))
    else Some (-1, World (disk w) (open_files w) (osErrno w)
                         (IOWrite s :: io_log w)).

(** Modelled from the spec: an initialised, empty device, and the call that
    prepares it. *)
Definition empty_disk : list sector :=
  repeat (repeat 0 (Z.to_nat SECTOR_SIZE)) (Z.to_nat TOTAL_SECTORS).

Definition Disk_Init : M Z :=
  fun w => Some (0, World empty_disk (open_files w) (osErrno w) (io_log w)).

(** Modelled from the spec: what loading the backing file can answer: the
    content and byte length of the file, an error on opening it (the file does
    not exist), or another error. *)
Inductive load_result : Type :=
  | Loaded (content : list sector) (file_length : Z)
  | OpeningFileError
  | OtherLoadError.

Definition Disk_Load (r : load_result) : M Z :=
  fun w =>
    match r with
    | Loaded content _ =>
        Some (0, World content (open_files w) (osErrno w) (io_log w))
    | _ => Some (-1, w)
    end.

(** ** On-disk layout *)

Definition SUPERBLOCK_START_SECTOR : Z := 0.
Definition OS_MAGIC : Z := 0xdeadbeef.
Definition INODE_BITMAP_START_SECTOR : Z := 1.
Definition INODE_BITMAP_SIZE : Z := (MAX_FILES + 7) ÷ 8.
Definition INODE_BITMAP_SECTORS : Z :=
  (INODE_BITMAP_SIZE + SECTOR_SIZE - 1) ÷ SECTOR_SIZE.
Definition SECTOR_BITMAP_START_SECTOR : Z :=
  INODE_BITMAP_START_SECTOR + INODE_BITMAP_SECTORS.
Definition SECTOR_BITMAP_SIZE : Z := (TOTAL_SECTORS + 7) ÷ 8.
Definition SECTOR_BITMAP_SECTORS : Z :=
  (SECTOR_BITMAP_SIZE + SECTOR_SIZE - 1) ÷ SECTOR_SIZE.
Definition INODE_TABLE_START_SECTOR : Z :=
  SECTOR_BITMAP_START_SECTOR + SECTOR_BITMAP_SECTORS.

(** [sizeof(inode_t)]: two [int] fields and [MAX_SECTORS_PER_FILE] [int]s. *)
Definition sizeof_inode_t : Z := 4 + 4 + 4 * MAX_SECTORS_PER_FILE.
(** [sizeof(dirent_t)]: [MAX_NAME] characters and one [int]. *)
Definition sizeof_dirent_t : Z := MAX_NAME + 4.

(** These three are [size_t] values in C. *)
Definition INODES_PER_SECTOR : Z := to_size_t SECTOR_SIZE / sizeof_inode_t.
Definition INODE_TABLE_SECTORS : Z :=
  to_size_t (to_size_t MAX_FILES + INODES_PER_SECTOR - 1) / INODES_PER_SECTOR.
Definition DATABLOCK_START_SECTOR : Z :=
  to_size_t (to_size_t INODE_TABLE_START_SECTOR + INODE_TABLE_SECTORS).
Definition DIRENTS_PER_SECTOR : Z := to_size_t SECTOR_SIZE / sizeof_dirent_t.

(** ** Overlay of [inode_t] and [dirent_t] on a sector buffer *)

(** [base] is the byte offset of the record in the buffer. *)
Definition inode_size (buf : sector) (base : Z) : option Z := load_int buf base.
Definition inode_type (buf : sector) (base : Z) : option Z :=
  load_int buf (base + 4).
Definition inode_data (buf : sector) (base i : Z) : option Z :=
  if (0 <=? i) && (i <? MAX_SECTORS_PER_FILE)
  then load_int buf (base + 8 + 4 * i) else None.
Definition set_inode_size (buf : sector) (base v : Z) : option sector :=
  store_int buf base v.
Definition set_inode_type (buf : sector) (base v : Z) : option sector :=
  store_int buf (base + 4) v.
Definition set_inode_data (buf : sector) (base i v : Z) : option sector :=
  if (0 <=? i) && (i <? MAX_SECTORS_PER_FILE)
  then store_int buf (base + 8 + 4 * i) v else None.

Definition dirent_inode (buf : sector) (base : Z) : option Z :=
  load_int buf (base + MAX_NAME).

(** ** Bitmaps *)

(** [for (int i = from; i < upto; i++) Disk_Write(i, buf);] with [n] the
    number of iterations left. *)
Fixpoint write_sectors (n : nat) (i : Z) (buf : sector) : M unit :=
  match n with
  | O => ret tt
  | S n' => Disk_Write i buf ;;; write_sectors n' (i + 1) buf
  end.

(** [for (int i = from; i < upto; i++) buf[i] = c;] *)
Fixpoint fill_bytes (n : nat) (i c : Z) (buf : sector) : option sector :=
  match n with
  | O => Some buf
  | S n' => buf' ← buf_set buf i c; fill_bytes n' (i + 1) c buf'
  end.

Definition init_bits : list Z := [0x0; 0x80; 0xC0; 0xE0; 0xF0; 0xF8; 0xFC; 0xFE].

Definition bitmap_init (start num nbits : Z) : M unit :=
  let a := nbits ÷ 8 ÷ SECTOR_SIZE in
  let b := Z.rem (nbits ÷ 8) SECTOR_SIZE in
  let c := num - a - sgn b in
  bitmap_buf <~ defined (fill_bytes (Z.to_nat SECTOR_SIZE) 0 0xff
                           (repeat 0 (Z.to_nat SECTOR_SIZE))) ;;
  write_sectors (Z.to_nat a) start bitmap_buf ;;;
  let r := Z.rem nbits 8 in
  bits_r <~ defined (buf_get init_bits r) ;;
  bitmap_buf <~ defined (buf_set bitmap_buf b bits_r) ;;
  bitmap_buf <~ defined (fill_bytes (Z.to_nat (SECTOR_SIZE - (b + 1))) (b + 1) 0
                           bitmap_buf) ;;
  Disk_Write (start + a) bitmap_buf ;;;
  bitmap_buf <~ defined (fill_bytes (Z.to_nat b) 0 0 bitmap_buf) ;;
  write_sectors (Z.to_nat c) (start + a + 1) bitmap_buf.

Definition scan_bits : list Z := [0x80; 0x40; 0x20; 0x10; 0x08; 0x04; 0x02; 0x01].

(** [for (int k = ..; k < 8; k++) if ((b & bits[k]) == 0) ...]: the first
    [k] whose bit is clear in [b]. *)
Fixpoint first_clear_bit (n : nat) (k b : Z) : option Z :=
  match n with
  | O => None
  | S n' =>
      if Z.land b (nth (Z.to_nat k) scan_bits 0) =? 0 then Some k
      else first_clear_bit n' (k + 1) b
  end.

(** The two inner loops of [bitmap_first_unused] on one sector buffer: the
    first byte [j] below 0xff and its first clear bit [k]. *)
Fixpoint first_clear_in_sector (n : nat) (j : Z) (buf : sector)
  : option (option (Z * Z)) :=
  match n with
  | O => Some None
  | S n' =>
      b ← buf_get buf j;
      if b <? 0xff then
        match first_clear_bit 8 0 b with
        | Some k => Some (Some (j, k))
        | None => first_clear_in_sector n' (j + 1) buf
        end
      else first_clear_in_sector n' (j + 1) buf
  end.

(** The outer loop of [bitmap_first_unused]; [n] sectors are left, [i] is the
    loop variable. *)
Fixpoint bitmap_first_unused_loop (n : nat) (i start nbits : Z) : M Z :=
  match n with
  | O => ret (-1)
  | S n' =>
      r <~ Disk_Read (i + start) ;;
      match r with
      | None => ret (-2)
      | Some buf =>
          found <~ defined (first_clear_in_sector (Z.to_nat SECTOR_SIZE) 0 buf) ;;
          match found with
          | Some (j, k) =>
              let pos := (i * SECTOR_SIZE + j) * 8 + k in
              b <~ defined (buf_get buf j) ;;
              buf' <~ defined (buf_set buf j
                                 (Z.lor b (nth (Z.to_nat k) scan_bits 0))) ;;
              rc <~ Disk_Write (i + start) buf' ;;
              if rc <? 0 then ret (-2)
              else if pos <? nbits then ret pos
              else ret (-1)
          | None => bitmap_first_unused_loop n' (i + 1) start nbits
          end
      end
  end.

Definition bitmap_first_unused (start num nbits : Z) : M Z :=
  bitmap_first_unused_loop (Z.to_nat num) 0 start nbits.

Definition bitmap_reset (start num ibit : Z) : M Z :=
  let sector := start + ibit ÷ SECTOR_SIZE in
  let byte := Z.rem ibit SECTOR_SIZE ÷ 8 in
  let bit := Z.rem ibit 8 in
  r <~ Disk_Read sector ;;
  match r with
  | None => ret (-2)
  | Some buf =>
      if bit <? 0 then undefined
      else
        let mask := Z.lnot (Z.shiftr 128 bit) mod 256 in
        b <~ defined (buf_get buf byte) ;;
        buf' <~ defined (buf_set buf byte (Z.land b mask)) ;;
        rc <~ Disk_Write sector buf' ;;
        if rc <? 0 then ret (-2) else ret 0
  end.

(** ** Path resolution *)

(** [illegal_filename]: 1 if the name is illegal, 0 otherwise. *)
Definition legal_char (c : Z) : bool :=
  ((65 <=? c) && (c <=? 90)) || ((97 <=? c) && (c <=? 122))
  || ((48 <=? c) && (c <=? 57)) || (c =? 46) || (c =? 45) || (c =? 95).

Fixpoint illegal_filename_loop (name : list Z) (length : Z) : Z :=
  match name with
  | [] => if length <? MAX_NAME then 0 else 1
  | c :: curr => if legal_char c then illegal_filename_loop curr (length + 1) else 1
  end.

Definition illegal_filename (name : list Z) : Z := illegal_filename_loop name 0.

(** The sector of the inode table that holds an inode:
    [INODE_TABLE_START_SECTOR + inode / INODES_PER_SECTOR], computed in
    [size_t] and stored in an [int]. *)
Definition inode_sector_of (inode : Z) : Z :=
  to_int (to_size_t INODE_TABLE_START_SECTOR + to_size_t inode / INODES_PER_SECTOR).

(** [inode - (inode_sector - INODE_TABLE_START_SECTOR) * INODES_PER_SECTOR],
    followed by [assert(0 <= offset && offset < INODES_PER_SECTOR)]; the
    result is the byte offset of the inode record. *)
Definition inode_base_checked (inode inode_sector : Z) : option Z :=
  let inode_start_entry :=
    to_int (to_size_t (inode_sector - INODE_TABLE_START_SECTOR) * INODES_PER_SECTOR) in
  let offset := inode - inode_start_entry in
  if (0 <=? offset) && (to_size_t offset <? INODES_PER_SECTOR)
  then Some (offset * sizeof_inode_t)
  else None.

(** [inode % INODES_PER_SECTOR], as the byte offset of the inode record. *)
Definition inode_base_mod (inode : Z) : Z :=
  to_int (to_size_t inode mod INODES_PER_SECTOR) * sizeof_inode_t.

(** The [for] loop of [find_child_inode] over the entries of one sector:
    the inode of the first entry named [fname], if any. *)
Fixpoint find_in_sector (n : nat) (i nentries : Z) (buf : sector)
    (fname : list Z) : option (option Z) :=
  match n with
  | O => Some None
  | S n' =>
      if i >? nentries then Some None
      else
        same ← streq_at buf (i * sizeof_dirent_t) fname;
        if (same : bool) then
          child_inode ← dirent_inode buf (i * sizeof_dirent_t);
          Some (Some child_inode)
        else find_in_sector n' (i + 1) nentries buf fname
  end.

(** The [while (nentries > 0)] loop of [find_child_inode]. *)
Fixpoint find_child_loop (n : nat) (nentries idx : Z) (cached : sector)
    (base : Z) (fname : list Z) (cached_inode_sector : Z)
  : M (Z * Z * sector) :=
  if nentries >? 0 then
    match n with
    | O => undefined
    | S n' =>
        sec <~ defined (inode_data cached base idx) ;;
        r <~ Disk_Read sec ;;
        match r with
        | None => ret (-2, cached_inode_sector, cached)
        | Some buf =>
            hit <~ defined (find_in_sector (Z.to_nat DIRENTS_PER_SECTOR) 0
                              nentries buf fname) ;;
            match hit with
            | Some child_inode =>
                let sector := inode_sector_of child_inode in
                if negb (sector =? cached_inode_sector) then
                  r' <~ Disk_Read sector ;;
                  match r' with
                  | None => ret (-2, sector, cached)
                  | Some cached' => ret (child_inode, sector, cached')
                  end
                else ret (child_inode, cached_inode_sector, cached)
            | None =>
                find_child_loop n' (to_int (to_size_t nentries - DIRENTS_PER_SECTOR))
                  (idx + 1) cached base fname cached_inode_sector
            end
        end
    end
  else ret (-1, cached_inode_sector, cached).

(** [find_child_inode]: the result, and the inode cache after the call. *)
Definition find_child_inode (parent_inode : Z) (fname : list Z)
    (cached_inode_sector : Z) (cached_inode_buffer : sector)
  : M (Z * Z * sector) :=
  base <~ defined (inode_base_checked parent_inode cached_inode_sector) ;;
  type <~ defined (inode_type cached_inode_buffer base) ;;
  if negb (type =? 1) then ret (-2, cached_inode_sector, cached_inode_buffer)
  else
    nentries <~ defined (inode_size cached_inode_buffer base) ;;
    find_child_loop (Z.to_nat nentries) nentries 0 cached_inode_buffer base
      fname cached_inode_sector.

(** The tokens that successive calls of [strsep(&lpath, "/")] return. *)
Fixpoint strsep_all (s cur : list Z) : list (list Z) :=
  match s with
  | [] => [rev cur]
  | c :: s' =>
      if c =? 47 then rev cur :: strsep_all s' [] else strsep_all s' (c :: cur)
  end.

(** What [follow_path] hands back: its return value, [*last_inode] and
    [last_fname]; [None] for an output that was not written. *)
Record followed : Type := Followed {
  fp_parent : Z;
  fp_last_inode : option Z;
  fp_last_fname : option (list Z)
}.

(** The [while ((token = strsep(...)) != NULL)] loop of [follow_path]. *)
Fixpoint follow_tokens (tokens : list (list Z)) (parent_inode child_inode : Z)
    (cached_sector : Z) (cached_buffer : sector) (last_fname : option (list Z))
  : M followed :=
  match tokens with
  | [] =>
      if child_inode <? -1 then ret (Followed (-1) None last_fname)
      else
        let parent_inode :=
          if (parent_inode =? -1) && (child_inode =? 0) then 0 else parent_inode in
        ret (Followed parent_inode (Some child_inode) last_fname)
  | token :: rest =>
      match token with
      | [] => follow_tokens rest parent_inode child_inode cached_sector
                cached_buffer last_fname
      | _ =>
          if negb (illegal_filename token =? 0) then
            ret (Followed (-1) None last_fname)
          else if child_inode <? 0 then ret (Followed (-1) None last_fname)
          else
            let parent_inode := child_inode in
            r <~ find_child_inode parent_inode token cached_sector cached_buffer ;;
            let '(child_inode, cached_sector, cached_buffer) := r in
            follow_tokens rest parent_inode child_inode cached_sector
              cached_buffer (Some token)
      end
  end.

(** [follow_path(path, &last_inode, last_fname)] for a non-null [path]. *)
Definition follow_path (path : list Z) : M followed :=
  match c_str path with
  | c :: rest =>
      if negb (c =? 47) then ret (Followed (-1) None None)
      else
        let pathstore := take (Z.to_nat (MAX_PATH - 1)) rest in
        let cached_sector := INODE_TABLE_START_SECTOR in
        r <~ Disk_Read cached_sector ;;
        match r with
        | None => ret (Followed (-1) None None)
        | Some cached_buffer =>
            follow_tokens (strsep_all pathstore []) (-1) 0 cached_sector
              cached_buffer None
        end
  | [] => ret (Followed (-1) None None)
  end.

(** ** Inode lifecycle *)

Definition add_inode (type parent_inode : Z) (file : list Z) : M Z :=
  child_inode <~ bitmap_first_unused INODE_BITMAP_START_SECTOR
                   INODE_BITMAP_SECTORS INODE_BITMAP_SIZE ;;
  if child_inode <? 0 then ret (-1)
  else
    let inode_sector := inode_sector_of child_inode in
    r <~ Disk_Read inode_sector ;;
    match r with
    | None => ret (-1)
    | Some inode_buffer =>
        child <~ defined (inode_base_checked child_inode inode_sector) ;;
        inode_buffer <~ defined (memset inode_buffer child 0 sizeof_inode_t) ;;
        inode_buffer <~ defined (set_inode_type inode_buffer child type) ;;
        rc <~ Disk_Write inode_sector inode_buffer ;;
        if rc <? 0 then ret (-1)
        else
          let inode_sector := inode_sector_of parent_inode in
          r <~ Disk_Read inode_sector ;;
          match r with
          | None => ret (-1)
          | Some inode_buffer =>
              parent <~ defined (inode_base_checked parent_inode inode_sector) ;;
              ptype <~ defined (inode_type inode_buffer parent) ;;
              if negb (ptype =? 1) then ret (-2)
              else
                psize <~ defined (inode_size inode_buffer parent) ;;
                let group := to_int (to_size_t psize / DIRENTS_PER_SECTOR) in
                (** the two branches leave the parent inode buffer and the
                    directory-entry buffer, or the error to return *)
                br <~ (if to_size_t (to_size_t group * DIRENTS_PER_SECTOR)
                          =? to_size_t psize
                       then
                         newsec <~ bitmap_first_unused SECTOR_BITMAP_START_SECTOR
                                     SECTOR_BITMAP_SECTORS SECTOR_BITMAP_SIZE ;;
                         if newsec <? 0 then ret None
                         else
                           inode_buffer <~ defined (set_inode_data inode_buffer
                                                      parent group newsec) ;;
                           ret (Some (inode_buffer,
                                      repeat 0 (Z.to_nat SECTOR_SIZE)))
                       else
                         sec <~ defined (inode_data inode_buffer parent group) ;;
                         r <~ Disk_Read sec ;;
                         match r with
                         | None => ret None
                         | Some dirent_buffer =>
                             ret (Some (inode_buffer, dirent_buffer))
                         end) ;;
                match br with
                | None => ret (-1)
                | Some (inode_buffer, dirent_buffer) =>
                    let start_entry :=
                      to_int (to_size_t group * DIRENTS_PER_SECTOR) in
                    let offset := psize - start_entry in
                    let dirent := offset * sizeof_dirent_t in
                    dirent_buffer <~ defined (strncpy dirent_buffer dirent file
                                                MAX_NAME) ;;
                    dirent_buffer <~ defined (store_int dirent_buffer
                                                (dirent + MAX_NAME) child_inode) ;;
                    sec <~ defined (inode_data inode_buffer parent group) ;;
                    rc <~ Disk_Write sec dirent_buffer ;;
                    if rc <? 0 then ret (-1)
                    else
                      inode_buffer <~ defined (set_inode_size inode_buffer parent
                                                 (psize + 1)) ;;
                      rc <~ Disk_Write inode_sector inode_buffer ;;
                      if rc <? 0 then ret (-1) else ret 0
                end
          end
    end.

Definition create_file_or_directory (type : Z) (pathname : list Z) : M Z :=
  f <~ follow_path pathname ;;
  if fp_parent f >=? 0 then
    child_inode <~ defined (fp_last_inode f) ;;
    if child_inode >=? 0 then set_osErrno E_CREATE ;;; ret (-1)
    else
      last_fname <~ defined (fp_last_fname f) ;;
      rc <~ add_inode type (fp_parent f) last_fname ;;
      if rc >=? 0 then ret 0 else set_osErrno E_CREATE ;;; ret (-1)
  else set_osErrno E_CREATE ;;; ret (-1).

(** The inner [for] loops of [remove_inode]: zero the first of the entries
    [dir .. dir + n) of [dirent_buf] whose inode is [child_inode]; the result
    tells whether one was found. *)
Fixpoint zero_dirent (n : nat) (dir child_inode : Z) (dirent_buf : sector)
  : option (bool * sector) :=
  match n with
  | O => Some (false, dirent_buf)
  | S n' =>
      ino ← dirent_inode dirent_buf (dir * sizeof_dirent_t);
      if ino =? child_inode then
        buf' ← memset dirent_buf (dir * sizeof_dirent_t) 0 sizeof_dirent_t;
        Some (true, buf')
      else zero_dirent n' (dir + 1) child_inode dirent_buf
  end.

(** The loop of [remove_inode] over the full directory-entry sectors,
    [for (dir_sec = ..; dir_sec < full_dirent_secs; dir_sec++)], with its
    leading [if (!found) break;].  [None] stands for [return(-1)]. *)
Fixpoint remove_full_loop (n : nat) (dir_sec child_inode : Z)
    (parent_buf : sector) (parent : Z) (found : Z) (dirent_buf : sector)
  : M (option (Z * sector)) :=
  match n with
  | O => ret (Some (found, dirent_buf))
  | S n' =>
      if found =? 0 then ret (Some (found, dirent_buf))
      else
        sec <~ defined (inode_data parent_buf parent dir_sec) ;;
        r <~ Disk_Read sec ;;
        match r with
        | None => ret None
        | Some dirent_buf =>
            z <~ defined (zero_dirent (Z.to_nat DIRENTS_PER_SECTOR) 0
                            child_inode dirent_buf) ;;
            let '(hit, dirent_buf) := z in
            remove_full_loop n' (dir_sec + 1) child_inode parent_buf parent
              (if (hit : bool) then sec else found) dirent_buf
        end
  end.

Definition remove_inode (type parent_inode child_inode : Z) : M Z :=
  let child_loc := inode_sector_of child_inode in
  let child := inode_base_mod child_inode in
  r <~ Disk_Read child_loc ;;
  match r with
  | None => ret (-1)
  | Some child_inode_buf =>
      ctype <~ defined (inode_type child_inode_buf child) ;;
      csize <~ defined (inode_size child_inode_buf child) ;;
      if negb (ctype =? type) then ret (-3)
      else if (ctype =? 1) && (csize >? 0) then ret (-2)
      else if negb (ctype =? 1) && (csize >? 0) then ret (-1)
      else
        let parent_loc := inode_sector_of parent_inode in
        let parent := inode_base_mod parent_inode in
        r <~ Disk_Read parent_loc ;;
        match r with
        | None => ret (-1)
        | Some parent_inode_buf =>
            ptype <~ defined (inode_type parent_inode_buf parent) ;;
            if negb (ptype =? 1) then ret (-3)
            else
              psize <~ defined (inode_size parent_inode_buf parent) ;;
              let full_dirent_secs :=
                to_int (to_size_t psize / DIRENTS_PER_SECTOR) in
              let partial_dirent_sec :=
                sgn (to_int (to_size_t psize
                             - to_size_t full_dirent_secs * DIRENTS_PER_SECTOR)) in
              (** [dirent_buf] is uninitialised until a sector is read into
                  it; it is not used before that *)
              fl <~ remove_full_loop (Z.to_nat full_dirent_secs) 0 child_inode
                      parent_inode_buf parent 0 [] ;;
              match fl with
              | None => ret (-1)
              | Some (found, dirent_buf) =>
                  pl <~ (if (found =? 0) && negb (partial_dirent_sec =? 0) then
                           sec <~ defined (inode_data parent_inode_buf parent
                                             full_dirent_secs) ;;
                           r <~ Disk_Read sec ;;
                           match r with
                           | None => ret None
                           | Some dirent_buf =>
                               z <~ defined (zero_dirent
                                      (Z.to_nat (to_size_t psize mod DIRENTS_PER_SECTOR))
                                      0 child_inode dirent_buf) ;;
                               let '(hit, dirent_buf) := z in
                               ret (Some (if (hit : bool) then sec else found,
                                          dirent_buf))
                           end
                         else ret (Some (found, dirent_buf))) ;;
                  match pl with
                  | None => ret (-1)
                  | Some (found, dirent_buf) =>
                      if found =? 0 then ret (-1)
                      else
                        bitmap_reset INODE_BITMAP_START_SECTOR
                          INODE_BITMAP_SECTORS child_inode ;;;
                        rc <~ Disk_Write found dirent_buf ;;
                        if rc <? 0 then ret (-1) else ret 0
                  end
              end
        end
  end.

(** ** The open-file table *)

(** [is_file_open(inode)]: 1 if some entry of the table has this inode. *)
Definition is_file_open (inode : Z) : M Z :=
  t <~ get_open_files ;;
  ret (if existsb (fun f => of_inode f =? inode) t then 1 else 0).

Fixpoint new_file_fd_loop (t : list open_file_t) (i : Z) : Z :=
  match t with
  | [] => -1
  | f :: t' => if of_inode f <=? 0 then i else new_file_fd_loop t' (i + 1)
  end.

Definition new_file_fd : M Z :=
  t <~ get_open_files ;;
  ret (new_file_fd_loop t 0).

(** [open_files[fd]], read and written. *)
Definition get_open_file (fd : Z) : M open_file_t :=
  t <~ get_open_files ;;
  if (0 <=? fd) && (fd <? MAX_OPEN_FILES) then defined (t !! Z.to_nat fd)
  else undefined.

Definition put_open_file (fd : Z) (f : open_file_t) : M unit :=
  t <~ get_open_files ;;
  if (0 <=? fd) && (fd <? MAX_OPEN_FILES) && (fd <? zlen t)
  then put_open_files (<[Z.to_nat fd := f]> t)
  else undefined.

(** ** API functions *)

(** [for (int i = ..; i < INODE_TABLE_SECTORS; i++)] of [FS_Boot]: format the
    inode table; the first entry is the root directory. *)
Fixpoint format_inode_table (n : nat) (i : Z) : M Z :=
  match n with
  | O => ret 0
  | S n' =>
      let buf := repeat 0 (Z.to_nat SECTOR_SIZE) in
      buf <~ (if i =? 0 then
                buf <~ defined (set_inode_size buf 0 0) ;;
                defined (set_inode_type buf 0 1)
              else ret buf) ;;
      rc <~ Disk_Write (INODE_TABLE_START_SECTOR + i) buf ;;
      if rc <? 0 then set_osErrno E_GENERAL ;;; ret (-1)
      else format_inode_table n' (i + 1)
  end.

(** [check_magic]: 1 if the superblock holds the magic number. *)
Definition check_magic : M Z :=
  r <~ Disk_Read SUPERBLOCK_START_SECTOR ;;
  match r with
  | None => ret 0
  | Some buf =>
      m <~ defined (load_int buf 0) ;;
      if m mod 2 ^ 32 =? OS_MAGIC then ret 1 else ret 0
  end.

(** [FS_Boot]; [load] is the answer of the block device to loading the
    backing file, [save_ok] tells whether saving it succeeds. *)
Definition FS_Boot (load : load_result) (save_ok : bool) : M Z :=
  Disk_Init ;;;
  rc <~ Disk_Load load ;;
  if rc <? 0 then
    match load with
    | OpeningFileError =>
        buf <~ defined (store_int (repeat 0 (Z.to_nat SECTOR_SIZE)) 0 OS_MAGIC) ;;
        rc <~ Disk_Write SUPERBLOCK_START_SECTOR buf ;;
        if rc <? 0 then set_osErrno E_GENERAL ;;; ret (-1)
        else
          bitmap_init INODE_BITMAP_START_SECTOR INODE_BITMAP_SECTORS 1 ;;;
          bitmap_init SECTOR_BITMAP_START_SECTOR SECTOR_BITMAP_SECTORS
            (to_int DATABLOCK_START_SECTOR) ;;;
          rc <~ format_inode_table (Z.to_nat INODE_TABLE_SECTORS) 0 ;;
          if rc <? 0 then ret (-1)
          else if negb save_ok then set_osErrno E_GENERAL ;;; ret (-1)
          else
            put_open_files (repeat (OpenFile 0 0 0) (Z.to_nat MAX_OPEN_FILES)) ;;;
            ret 0
    | _ => set_osErrno E_GENERAL ;;; ret (-1)
    end
  else
    let sz := match load with Loaded _ n => n | _ => 0 end in
    if negb (sz =? SECTOR_SIZE * TOTAL_SECTORS) then
      set_osErrno E_GENERAL ;;; ret (-1)
    else
      ok <~ check_magic ;;
      if negb (ok =? 0) then
        put_open_files (repeat (OpenFile 0 0 0) (Z.to_nat MAX_OPEN_FILES)) ;;;
        ret 0
      else set_osErrno E_GENERAL ;;; ret (-1).

(** The program before [FS_Boot]: zero-initialised globals, no disk yet. *)
Definition initial_world : world :=
  World [] (repeat (OpenFile 0 0 0) (Z.to_nat MAX_OPEN_FILES)) None [].

Definition File_Create (file : list Z) : M Z := create_file_or_directory 0 file.

(** [for (int i = 0; i < child->size; i++) bitmap_reset(..., child->data[i]);] *)
Fixpoint free_sectors (n : nat) (i : Z) (buf : sector) (child : Z) : M unit :=
  match n with
  | O => ret tt
  | S n' =>
      sec <~ defined (inode_data buf child i) ;;
      bitmap_reset SECTOR_BITMAP_START_SECTOR SECTOR_BITMAP_SECTORS sec ;;;
      free_sectors n' (i + 1) buf child
  end.

Definition File_Unlink (file : list Z) : M Z :=
  f <~ follow_path file ;;
  if fp_parent f <? 0 then set_osErrno E_NO_SUCH_FILE ;;; ret (-1)
  else
    child_inode <~ defined (fp_last_inode f) ;;
    o <~ is_file_open child_inode ;;
    if negb (o =? 0) then set_osErrno E_FILE_IN_USE ;;; ret (-1)
    else
      let child_inode_sec := inode_sector_of child_inode in
      let child := inode_base_mod child_inode in
      r <~ Disk_Read child_inode_sec ;;
      match r with
      | None => ret (-1)
      | Some child_inode_buffer =>
          ctype <~ defined (inode_type child_inode_buffer child) ;;
          if negb (ctype =? 0) then ret (-2)
          else
            csize <~ defined (inode_size child_inode_buffer child) ;;
            free_sectors (Z.to_nat csize) 0 child_inode_buffer child ;;;
            child_inode_buffer <~ defined (set_inode_size child_inode_buffer
                                             child 0) ;;
            rc <~ Disk_Write child_inode_sec child_inode_buffer ;;
            if rc <? 0 then ret (-1)
            else
              r <~ remove_inode 0 (fp_parent f) child_inode ;;
              if r <? 0 then ret (-1) else ret 0
      end.

Definition File_Open (file : list Z) : M Z :=
  fd <~ new_file_fd ;;
  if fd <? 0 then set_osErrno E_TOO_MANY_OPEN_FILES ;;; ret (-1)
  else
    f <~ follow_path file ;;
    (** the return value of [follow_path] is not looked at; [child_inode]
        is uninitialised when the path could not be followed *)
    child_inode <~ defined (fp_last_inode f) ;;
    if child_inode >=? 0 then
      let inode_sector := inode_sector_of child_inode in
      r <~ Disk_Read inode_sector ;;
      match r with
      | None => set_osErrno E_GENERAL ;;; ret (-1)
      | Some inode_buffer =>
          child <~ defined (inode_base_checked child_inode inode_sector) ;;
          ctype <~ defined (inode_type inode_buffer child) ;;
          if negb (ctype =? 0) then set_osErrno E_GENERAL ;;; ret (-1)
          else
            csize <~ defined (inode_size inode_buffer child) ;;
            put_open_file fd (OpenFile child_inode csize 0) ;;;
            ret fd
      end
    else set_osErrno E_NO_SUCH_FILE ;;; ret (-1).

(** The [while (left > 0 && f->pos < f->size)] loop of [File_Read]; the
    result is [out_pos] and the caller's buffer. *)
Fixpoint File_Read_loop (n : nat) (fd : Z) (inode_buffer : sector) (child : Z)
    (left curr_pos_in_sec curr_sec out_pos : Z) (buffer : list Z)
  : M (Z * list Z) :=
  f <~ get_open_file fd ;;
  if (left >? 0) && (of_pos f <? of_size f) then
    match n with
    | O => undefined
    | S n' =>
        sec <~ defined (inode_data inode_buffer child curr_sec) ;;
        r <~ Disk_Read sec ;;
        match r with
        | None => ret (-1, buffer)
        | Some data_buf =>
            let to_read :=
              if left + curr_pos_in_sec >? SECTOR_SIZE
              then SECTOR_SIZE - curr_pos_in_sec else left in
            buffer <~ defined (memcpy buffer 0 data_buf curr_pos_in_sec to_read) ;;
            let pos := of_pos f + to_read in
            let pos := if pos >? of_size f then of_size f else pos in
            put_open_file fd (OpenFile (of_inode f) (of_size f) pos) ;;;
            File_Read_loop n' fd inode_buffer child (left - to_read) 0
              (curr_sec + 1) (out_pos + to_read) buffer
        end
    end
  else ret (out_pos, buffer).

(** [File_Read(fd, buffer, size)]: the return value and the caller's buffer
    after the call. *)
Definition File_Read (fd : Z) (buffer : list Z) (size : Z) : M (Z * list Z) :=
  o <~ is_file_open fd ;;
  if o =? 0 then set_osErrno E_BAD_FD ;;; ret (-1, buffer)
  else
    f <~ get_open_file fd ;;
    if of_pos f =? of_size f then ret (0, buffer)
    else
      let inode_sector := inode_sector_of (of_inode f) in
      r <~ Disk_Read inode_sector ;;
      match r with
      | None => set_osErrno E_GENERAL ;;; ret (-1, buffer)
      | Some inode_buffer =>
          child <~ defined (inode_base_checked (of_inode f) inode_sector) ;;
          File_Read_loop (Z.to_nat size) fd inode_buffer child size
            (Z.rem (of_pos f) SECTOR_SIZE) (of_pos f ÷ SECTOR_SIZE) 0 buffer
      end.

(** The allocation loop of [File_Write],
    [for (int i = allocated_secs; i < allocated_secs + needed_secs; i++)];
    [None] stands for the [return(-1)] on exhaustion. *)
Fixpoint File_Write_alloc (n : nat) (i : Z) (inode_buffer : sector) (child : Z)
  : M (option sector) :=
  match n with
  | O => ret (Some inode_buffer)
  | S n' =>
      next <~ bitmap_first_unused SECTOR_BITMAP_START_SECTOR
                SECTOR_BITMAP_SECTORS SECTOR_BITMAP_SIZE ;;
      if next <? 0 then set_osErrno E_NO_SPACE ;;; ret None
      else
        inode_buffer <~ defined (set_inode_data inode_buffer child i next) ;;
        File_Write_alloc n' (i + 1) inode_buffer child
  end.

(** The [while (left > 0 && curr_sec < allocated_secs)] loop of
    [File_Write]. *)
Fixpoint File_Write_loop (n : nat) (fd : Z) (inode_buffer : sector) (child : Z)
    (size allocated_secs left curr_pos_in_sec curr_sec in_pos : Z)
    (buffer : list Z) : M Z :=
  if (left >? 0) && (curr_sec <? allocated_secs) then
    match n with
    | O => undefined
    | S n' =>
        sec <~ defined (inode_data inode_buffer child curr_sec) ;;
        r <~ Disk_Read sec ;;
        match r with
        | None => ret (-1)
        | Some data_buf =>
            let to_write :=
              if left >? SECTOR_SIZE then SECTOR_SIZE - curr_pos_in_sec
              else left - curr_pos_in_sec in
            data_buf <~ defined (memcpy data_buf curr_pos_in_sec buffer in_pos
                                   to_write) ;;
            rc <~ Disk_Write sec data_buf ;;
            if rc <? 0 then ret (-1)
            else
              f <~ get_open_file fd ;;
              put_open_file fd (OpenFile (of_inode f) (of_size f)
                                  (of_pos f + to_write)) ;;;
              File_Write_loop n' fd inode_buffer child size allocated_secs
                (left - to_write) 0 (curr_sec + 1) (in_pos + to_write) buffer
        end
    end
  else ret (size - left).

Definition File_Write (fd : Z) (buffer : list Z) (size : Z) : M Z :=
  o <~ is_file_open fd ;;
  if o =? 0 then set_osErrno E_BAD_FD ;;; ret (-1)
  else
    f <~ get_open_file fd ;;
    if of_pos f + size >? MAX_SECTORS_PER_FILE * SECTOR_SIZE then
      set_osErrno E_FILE_TOO_BIG ;;; ret (-1)
    else
      let inode_sector := inode_sector_of (of_inode f) in
      r <~ Disk_Read inode_sector ;;
      match r with
      | None => set_osErrno E_GENERAL ;;; ret (-1)
      | Some inode_buffer =>
          child <~ defined (inode_base_checked (of_inode f) inode_sector) ;;
          let allocated_secs := (of_size f + SECTOR_SIZE - 1) ÷ SECTOR_SIZE in
          let needed_secs :=
            (size - (allocated_secs * SECTOR_SIZE - of_pos f) + SECTOR_SIZE - 1)
            ÷ SECTOR_SIZE in
          a <~ File_Write_alloc (Z.to_nat needed_secs) allocated_secs
                 inode_buffer child ;;
          match a with
          | None => ret (-1)
          | Some inode_buffer =>
              csize <~ defined (inode_size inode_buffer child) ;;
              inode_buffer <~ defined (set_inode_size inode_buffer child
                                         (csize + size)) ;;
              rc <~ Disk_Write inode_sector inode_buffer ;;
              if rc <? 0 then ret (-1)
              else
                let allocated_secs := allocated_secs + needed_secs in
                put_open_file fd (OpenFile (of_inode f) (of_pos f + size)
                                    (of_pos f)) ;;;
                (** [child->size = f->size] changes the local buffer only,
                    which is not written again *)
                File_Write_loop (Z.to_nat (allocated_secs - of_pos f ÷ SECTOR_SIZE))
                  fd inode_buffer child size allocated_secs size
                  (Z.rem (of_pos f) SECTOR_SIZE) (of_pos f ÷ SECTOR_SIZE) 0 buffer
          end
      end.

Definition File_Seek (fd offset : Z) : M Z :=
  o <~ is_file_open fd ;;
  if o =? 0 then set_osErrno E_BAD_FD ;;; ret (-1)
  else
    f <~ get_open_file fd ;;
    if (offset >? of_size f) || (offset <? 0) then
      set_osErrno E_SEEK_OUT_OF_BOUNDS ;;; ret (-1)
    else
      put_open_file fd (OpenFile (of_inode f) (of_size f) offset) ;;;
      ret 0.

Definition File_Close (fd : Z) : M Z :=
  if (0 >? fd) || (fd >? MAX_OPEN_FILES) then set_osErrno E_BAD_FD ;;; ret (-1)
  else
    (** [fd == MAX_OPEN_FILES] passes the test above and indexes the table
        one past its end, which [get_open_file] leaves undefined *)
    f <~ get_open_file fd ;;
    if of_inode f <=? 0 then set_osErrno E_BAD_FD ;;; ret (-1)
    else
      put_open_file fd (OpenFile 0 (of_size f) (of_pos f)) ;;;
      ret 0.

Definition Dir_Create (path : list Z) : M Z := create_file_or_directory 1 path.

Definition Dir_Unlink (path : list Z) : M Z :=
  if decide (c_str path = [47]) then set_osErrno E_ROOT_DIR ;;; ret (-1)
  else
    f <~ follow_path path ;;
    if fp_parent f <? 0 then set_osErrno E_NO_SUCH_DIR ;;; ret (-1)
    else
      child_inode <~ defined (fp_last_inode f) ;;
      success <~ remove_inode 1 (fp_parent f) child_inode ;;
      if success <? 0 then set_osErrno E_DIR_NOT_EMPTY ;;; ret (-1)
      else ret 0.

Definition Dir_Size (path : list Z) : M Z :=
  f <~ follow_path path ;;
  if fp_parent f <? 0 then set_osErrno E_NO_SUCH_DIR ;;; ret (-1)
  else
    child_node <~ defined (fp_last_inode f) ;;
    let inode_sector := inode_sector_of child_node in
    r <~ Disk_Read inode_sector ;;
    (** the result of [Disk_Read] is not checked; after a failed read the
        buffer is uninitialised *)
    inode_buffer <~ defined r ;;
    let child := inode_base_mod child_node in
    csize <~ defined (inode_size inode_buffer child) ;;
    ret (to_int (to_size_t csize * sizeof_dirent_t)).

(** [for (int i = ..; i < child->size / DIRENTS_PER_SECTOR; i++)] of
    [Dir_Read]: copy the entries of the full sectors; the result is [out_pos],
    or [None] for [return(-1)], and the caller's buffer. *)
Fixpoint Dir_Read_full (n : nat) (i : Z) (inode_buffer : sector) (child : Z)
    (out_pos : Z) (buffer : list Z) : M (option Z * list Z) :=
  match n with
  | O => ret (Some out_pos, buffer)
  | S n' =>
      sec <~ defined (inode_data inode_buffer child i) ;;
      r <~ Disk_Read sec ;;
      match r with
      | None => ret (None, buffer)
      | Some sec_buf =>
          let len := DIRENTS_PER_SECTOR * sizeof_dirent_t in
          buffer <~ defined (memcpy buffer out_pos sec_buf 0 len) ;;
          Dir_Read_full n' (i + 1) inode_buffer child (out_pos + len) buffer
      end
  end.

(** [Dir_Read(path, buffer, size)]: the return value and the caller's buffer
    after the call. *)
Definition Dir_Read (path : list Z) (buffer : list Z) (size : Z)
  : M (Z * list Z) :=
  f <~ follow_path path ;;
  if fp_parent f <? 0 then set_osErrno E_NO_SUCH_DIR ;;; ret (-1, buffer)
  else
    child_node <~ defined (fp_last_inode f) ;;
    let inode_sector := inode_sector_of child_node in
    r <~ Disk_Read inode_sector ;;
    match r with
    | None => ret (-1, buffer)
    | Some inode_buffer =>
        let child := inode_base_mod child_node in
        csize <~ defined (inode_size inode_buffer child) ;;
        (** [size < child->size * sizeof(dirent_t)] compares in [size_t] *)
        if to_size_t size <? to_size_t (to_size_t csize * sizeof_dirent_t) then
          set_osErrno E_BUFFER_TOO_SMALL ;;; ret (-1, buffer)
        else
          let full := to_size_t csize / DIRENTS_PER_SECTOR in
          fl <~ Dir_Read_full (Z.to_nat full) 0 inode_buffer child 0 buffer ;;
          match fl with
          | (None, buffer) => ret (-1, buffer)
          | (Some out_pos, buffer) =>
              let left := to_int (to_size_t csize mod DIRENTS_PER_SECTOR) in
              if left >? 0 then
                sec <~ defined (inode_data inode_buffer child
                                  (to_size_t csize / DIRENTS_PER_SECTOR)) ;;
                r <~ Disk_Read sec ;;
                match r with
                | None => ret (-1, buffer)
                | Some sec_buf =>
                    buffer <~ defined (memcpy buffer out_pos sec_buf 0
                                         (left * sizeof_dirent_t)) ;;
                    ret (csize, buffer)
                end
              else ret (csize, buffer)
          end
    end.

End LibFS.

(** * Observations on the state *)

Section Observations.
Context {P : Params}.

(** A disk is well formed when it has [TOTAL_SECTORS] sectors of
    [SECTOR_SIZE] bytes each. *)
Definition byte_okb (b : Z) : bool := (0 <=? b) && (b <? 256).
Definition sector_okb (s : sector) : bool :=
  (zlen s =? SECTOR_SIZE) && forallb byte_okb s.
Definition wf_diskb (d : list sector) : bool :=
  (zlen d =? TOTAL_SECTORS) && forallb sector_okb d.

(** Bit [p] of the bitmap whose first sector is [start]: the bits are
    numbered across the sectors of the bitmap, most significant bit first
    within each byte. *)
Definition bitmap_bit (d : list sector) (start p : Z) : option bool :=
  sec ← d !! Z.to_nat (start + p / (SECTOR_SIZE * 8));
  b ← sec !! Z.to_nat (p / 8 mod SECTOR_SIZE);
  Some (Z.testbit b (7 - p mod 8)).

(** Bit [k] of the byte [b], most significant bit first. *)
Definition msb_bit (b k : Z) : bool := Z.testbit b (7 - k).

(** The bit indices of a byte. *)
Definition index8 : list Z := [0; 1; 2; 3; 4; 5; 6; 7].

(** What the scan of one byte of a bitmap finds, as a test that can be run on
    every byte. *)
Definition byte_scan_spec (b : Z) : bool :=
  match first_clear_bit 8 0 b with
  | Some k => (b <? 255) && (0 <=? k) && (k <? 8) && negb (msb_bit b k)
              && forallb (fun k' => implb (k' <? k) (msb_bit b k')) index8
  | None => forallb (msb_bit b) index8 && (b =? 255)
  end.

(** Entry [fd] of the open-file table is in use: [fd] indexes the table and
    the entry holds a positive inode, the way [new_file_fd] and [File_Close]
    read the table. *)
Definition open_entryb (w : world) (fd : Z) : bool :=
  (0 <=? fd) && (fd <? MAX_OPEN_FILES)
  && match open_files w !! Z.to_nat fd with
     | Some f => 0 <? of_inode f
     | None => false
     end.

(** Byte [o] of entry slot [m] of the directory whose inode record lies at
    [base] in the inode-table sector [ib]: the slots are packed,
    [DIRENTS_PER_SECTOR] to a sector, in the sectors of the block list. *)
Definition dir_byte (d : list sector) (ib : sector) (base m o : Z) : option Z :=
  s ← inode_data ib base (m / DIRENTS_PER_SECTOR);
  sec ← d !! Z.to_nat s;
  sec !! Z.to_nat (m mod DIRENTS_PER_SECTOR * sizeof_dirent_t + o).

(** The sectors that hold the first [n] entry slots are on the disk. *)
Definition entry_sectors_ok (d : list sector) (ib : sector) (base n : Z) : Prop :=
  forall i, 0 <= i -> i * DIRENTS_PER_SECTOR < n ->
    exists s (sec : list Z),
      inode_data ib base i = Some s /\ 0 <= s < TOTAL_SECTORS
      /\ d !! Z.to_nat s = Some sec /\ zlen sec = SECTOR_SIZE.

(** A spelling of the root: one or more slashes. *)
Definition slashes (k : nat) : list Z := repeat 47 (S k).

(** The state with [osErrno] set, with one entry of the open-file table
    replaced, and after one more read of sector [s]. *)
Definition with_errno (w : world) (e : FS_Error) : world :=
  World (disk w) (open_files w) (Some e) (io_log w).
Definition with_handle (w : world) (fd : Z) (f : open_file_t) : world :=
  World (disk w) (<[Z.to_nat fd := f]> (open_files w)) (osErrno w) (io_log w).
Definition with_read (w : world) (s : Z) : world :=
  World (disk w) (open_files w) (osErrno w) (IORead s :: io_log w).

(** Some entry of the open-file table holds [inode]: what [is_file_open]
    tests. *)
Definition has_inode (w : world) (inode : Z) : bool :=
  existsb (fun f => of_inode f =? inode) (open_files w).

Definition is_readb (e : io_event) : bool :=
  match e with IORead _ => true | IOWrite _ => false end.

(** From [w] to [w'] the block device was only read: the disk, the open-file
    table and [osErrno] are the same and the log gained read events only. *)
Definition reads_only (w w' : world) : Prop :=
  disk w' = disk w /\ open_files w' = open_files w /\ osErrno w' = osErrno w
  /\ exists evs, io_log w' = evs ++ io_log w /\ forallb is_readb evs = true.


(** Bit [p] of the bitmap at [start] is [v], as a test that can be run. *)
Definition bit_isb (d : list sector) (start : Z) (v : bool) (p : Z) : bool :=
  match bitmap_bit d start p with Some b => Bool.eqb b v | None => false end.

(** Setting bit [k] of a byte where it is clear and clearing it again gives
    the byte back, as a test that can be run on every byte. *)
Definition set_clear_byteb (b : Z) : bool :=
  forallb (fun k => implb (negb (msb_bit b k))
                      (Z.land (Z.lor b (nth (Z.to_nat k) scan_bits 0))
                              (Z.lnot (Z.shiftr 128 k) mod 256) =? b)) index8.


End Observations.

(** * The scenario configuration: runs of the program *)

Module Scenario.

#[local] Existing Instance scenario.

Definition str : string -> list Z := bytes_of_string.

(** Run a computation after another one; [None] once a step is undefined. *)
Definition after {A B} (st : option (A * world)) (m : M B) : option (B * world) :=
  match st with Some (_, w) => m w | None => None end.

Definition returned {A} (st : option (A * world)) : option A := fst <$> st.

Definition errno_after {A} (st : option (A * world)) : option (option FS_Error) :=
  (fun x => osErrno (snd x)) <$> st.

Definition log_after {A} (st : option (A * world)) : option (list io_event) :=
  (fun x => io_log (snd x)) <$> st.

Definition disk_after {A} (st : option (A * world)) : option (list sector) :=
  (fun x => disk (snd x)) <$> st.

Definition handle_after {A} (st : option (A * world)) (fd : Z) : option open_file_t :=
  st ≫= (fun x => open_files (snd x) !! Z.to_nat fd).

(** The [int] at byte [off] of sector [s]. *)
Definition int_after {A} (st : option (A * world)) (s off : Z) : option Z :=
  d ← disk_after st; sec ← d !! Z.to_nat s; load_int sec off.

Definition bit_after {A} (st : option (A * world)) (start p : Z) : option bool :=
  d ← disk_after st; bitmap_bit d start p.

(** The block-device calls made between two states, most recent first. *)
Definition events_between {A B} (st : option (A * world)) (st' : option (B * world))
  : option (list io_event) :=
  l ← log_after st; l' ← log_after st';
  Some (take (length l' - length l) l').

Definition world_after {A} (st : option (A * world)) : world :=
  match st with Some (_, w) => w | None => initial_world end.

(** The first sector of the inode table, which holds the root inode. *)
Definition root_inode_sector {A} (st : option (A * world)) : list Z :=
  default [] (disk (world_after st) !! Z.to_nat INODE_TABLE_START_SECTOR).

(** A freshly formatted volume. *)
Definition booted : option (Z * world) :=
  FS_Boot OpeningFileError true initial_world.

(** [/a] created and opened: descriptor 0, inode 1. *)
Definition file_a : option (Z * world) := after booted (File_Create (str "/a")).
Definition file_a_open : option (Z * world) := after file_a (File_Open (str "/a")).

(** 513 bytes, one more than a sector, written to [/a], then read back. *)
Definition two_sectors : list Z := 1 :: repeat 7 511 ++ [2].
Definition written : option (Z * world) :=
  after file_a_open (File_Write 0 two_sectors 513).
Definition rewound : option (Z * world) := after written (File_Seek 0 0).
Definition read_back : option (Z * list Z * world) :=
  after rewound (File_Read 0 (repeat 0 513) 513).

(** 512 bytes, one sector, written to [/a], then read back. *)
Definition one_sector : list Z := 1 :: repeat 7 510 ++ [2].
Definition read_back_one_sector : option (Z * list Z * world) :=
  after (after (after file_a_open (File_Write 0 one_sector 512)) (File_Seek 0 0))
    (File_Read 0 (repeat 0 512) 512).

(** A root directory of 26 entry slots: [/a] in slot 0, 23 slots of a file
    created and unlinked again, [/b] in slot 24 and [/c] in slot 25.  The first
    25 slots fill the first entry sector of the root. *)
Fixpoint churn (n : nat) (st : option (Z * world)) : option (Z * world) :=
  match n with
  | O => st
  | S n' => churn n' (after (after st (File_Create (str "/t")))
                        (File_Unlink (str "/t")))
  end.
Definition crowded : option (Z * world) :=
  after (after (churn 23 file_a) (File_Create (str "/b"))) (File_Create (str "/c")).

(** Two bytes written to [/a], the file closed and unlinked. *)
Definition small_file : option (Z * world) :=
  after (after file_a_open (File_Write 0 [5; 6] 2)) (File_Close 0).
Definition unlinked : option (Z * world) := after small_file (File_Unlink (str "/a")).

(** A directory [/d] in the root, then a write of -1 bytes through
    descriptor 0, which was never opened. *)
Definition one_dir : option (Z * world) := after booted (Dir_Create (str "/d")).
Definition shrunk : option (Z * world) := after one_dir (File_Write 0 [] (-1)).

(** [/a], [/b], [/c] created (inodes 1, 2, 3); [/b] and [/c] opened
    (descriptors 0 and 1). *)
Definition two_open : option (Z * world) :=
  after (after (after (after file_a (File_Create (str "/b")))
                   (File_Create (str "/c"))) (File_Open (str "/b")))
    (File_Open (str "/c")).

(** 144 bytes written through descriptor 0, which was never opened: a
    directory entry [x] for inode 71, and at the place of inode 71 (sector 13,
    offset 72) a file inode of size 1 whose first data sector is [target].
    Then [/x] is opened and one byte, 0, is written to it. *)
Definition forged (target : Z) : list Z :=
  str "x" ++ repeat 0 15 ++ [71; 0; 0; 0] ++ repeat 0 52
  ++ [1; 0; 0; 0] ++ [0; 0; 0; 0] ++ [target; 0; 0; 0] ++ repeat 0 60.
Definition forged_root (target : Z) : option (Z * world) :=
  after booted (File_Write 0 (forged target) 144).
Definition forged_open (target : Z) : option (Z * world) :=
  after (forged_root target) (File_Open (str "/x")).
Definition forged_write (target : Z) : option (Z * world) :=
  after (forged_open target) (File_Write 0 [0] 1).

(** [/a] and the root resolved on the volume that holds [/a], closed and
    open. *)
Abbreviation resolved_a := (follow_path (str "/a") (world_after file_a)).
Abbreviation resolved_a_open := (follow_path (str "/a") (world_after file_a_open)).
Abbreviation resolved_root := (follow_path (slashes 0) (world_after file_a)).

(** The volume that holds [/a], with an open-file table that has no free
    entry. *)
Definition crowded_table : world :=
  World (disk (world_after file_a))
        (repeat (OpenFile 1 0 0) (Z.to_nat MAX_OPEN_FILES)) None [].

(** A fresh volume whose inode bitmap has every bit set. *)
Definition full_inode_bitmap : world :=
  World (<[Z.to_nat INODE_BITMAP_START_SECTOR := repeat 255 (Z.to_nat SECTOR_SIZE)]>
           (disk (world_after booted)))
        (open_files (world_after booted)) None [].

(** A fresh volume after one inode has been allocated. *)
Abbreviation inode_allocated :=
  (bitmap_first_unused INODE_BITMAP_START_SECTOR INODE_BITMAP_SECTORS INODE_BITMAP_SIZE
     (world_after booted)).



(** [/b], which the volume that holds [/a] does not hold, resolved there. *)
Abbreviation resolved_b := (follow_path (str "/b") (world_after file_a)).
End Scenario.

(** * Properties *)

Section Properties.
Context {P : Params}.

(** ** The bitmap allocator *)

Lemma forall_byte (Q : Z -> bool) :
  forallb Q (map Z.of_nat (seq 0 256)) = true ->
  forall b, 0 <= b < 256 -> Q b = true.
Proof.
  intros H b Hb. rewrite forallb_forall in H. apply H.
  apply in_map_iff. exists (Z.to_nat b). split; [lia|]. apply in_seq. lia.
Qed.


Lemma index8_in k : 0 <= k < 8 -> In k index8.
Proof.
  intros H. assert (k = 0 \/ k = 1 \/ k = 2 \/ k = 3 \/ k = 4 \/ k = 5 \/ k = 6 \/ k = 7) as Hk by lia.
  unfold index8. simpl. intuition.
Qed.


Lemma byte_scan_all b : 0 <= b < 256 -> byte_scan_spec b = true.
Proof. revert b. apply forall_byte. vm_compute. reflexivity. Qed.

Lemma first_clear_bit_found b k :
  0 <= b < 256 -> 0 <= k < 8 -> msb_bit b k = false ->
  (forall k', 0 <= k' < k -> msb_bit b k' = true) ->
  b < 255 /\ first_clear_bit 8 0 b = Some k.
Proof.
  intros Hb Hk Hclear Hset. pose proof (byte_scan_all b Hb) as Hs.
  unfold byte_scan_spec in Hs. destruct (first_clear_bit 8 0 b) as [k0|] eqn:E.
  - rewrite !andb_true_iff in Hs. destruct Hs as [[[[H1 H2] H3] H4] H5].
    rewrite forallb_forall in H5.
    split; [lia|]. f_equal.
    destruct (Z.lt_trichotomy k0 k) as [Hlt | [Heq | Hgt]]; [| done |].
    + rewrite Hset in H4 by lia. discriminate.
    + specialize (H5 k (index8_in k Hk)).
      assert ((k <? k0) = true) as Hlt by lia. rewrite Hlt in H5. simpl in H5. congruence.
  - rewrite andb_true_iff in Hs. destruct Hs as [H1 _]. rewrite forallb_forall in H1.
    rewrite (H1 k (index8_in k Hk)) in Hclear. discriminate.
Qed.

Lemma byte_all_set b :
  0 <= b < 256 -> (forall k, 0 <= k < 8 -> msb_bit b k = true) -> b = 255.
Proof.
  intros Hb Hset. pose proof (byte_scan_all b Hb) as Hs.
  unfold byte_scan_spec in Hs. destruct (first_clear_bit 8 0 b) as [k0|] eqn:E.
  - rewrite !andb_true_iff in Hs. destruct Hs as [[[[H1 H2] H3] H4] H5].
    rewrite Hset in H4 by lia. discriminate.
  - rewrite andb_true_iff in Hs. lia.
Qed.


Lemma pos_coords i j k :
  0 < SECTOR_SIZE -> 0 <= j < SECTOR_SIZE -> 0 <= k < 8 ->
  ((i * SECTOR_SIZE + j) * 8 + k) / (SECTOR_SIZE * 8) = i
  /\ ((i * SECTOR_SIZE + j) * 8 + k) / 8 mod SECTOR_SIZE = j
  /\ ((i * SECTOR_SIZE + j) * 8 + k) mod 8 = k.
Proof.
  intros HS Hj Hk.
  assert (((i * SECTOR_SIZE + j) * 8 + k) / 8 = i * SECTOR_SIZE + j) as E8.
  { symmetry. apply Z.div_unique with (r := k); lia. }
  repeat split.
  - symmetry. apply Z.div_unique with (r := j * 8 + k); lia.
  - rewrite E8. symmetry. apply Z.mod_unique with (q := i); lia.
  - symmetry. apply Z.mod_unique with (q := i * SECTOR_SIZE + j); lia.
Qed.

Lemma pos_decompose pos :
  0 < SECTOR_SIZE -> 0 <= pos ->
  let i := pos / (SECTOR_SIZE * 8) in
  let j := pos / 8 mod SECTOR_SIZE in
  let k := pos mod 8 in
  pos = (i * SECTOR_SIZE + j) * 8 + k /\ 0 <= i /\ 0 <= j < SECTOR_SIZE /\ 0 <= k < 8.
Proof.
  intros HS Hp i j k.
  assert (i = pos / 8 / SECTOR_SIZE) as Hi.
  { unfold i. rewrite Z.mul_comm. symmetry. apply Z.div_div; lia. }
  pose proof (Z.div_mod pos 8 ltac:(lia)) as H8.
  assert (SECTOR_SIZE <> 0) as HS0 by lia.
  pose proof (Z.div_mod (pos / 8) SECTOR_SIZE HS0) as HSS.
  pose proof (Z.mod_pos_bound pos 8 ltac:(lia)).
  pose proof (Z.mod_pos_bound (pos / 8) SECTOR_SIZE HS).
  assert (0 <= pos / 8) by (apply Z.div_pos; lia).
  assert (0 <= pos / 8 / SECTOR_SIZE) by (apply Z.div_pos; lia).
  unfold j, k. rewrite Hi. repeat split; try lia.
Qed.

Lemma buf_get_lookup (buf : list Z) j : 0 <= j -> buf_get buf j = buf !! Z.to_nat j.
Proof. intros H. unfold buf_get. destruct (j <? 0) eqn:E; [lia | done]. Qed.

Lemma first_clear_in_sector_skip n : forall j (buf : sector),
  0 <= j ->
  (forall j', j <= j' < j + Z.of_nat n -> buf !! Z.to_nat j' = Some 255) ->
  first_clear_in_sector n j buf = Some None.
Proof.
  induction n as [|n IH]; intros j buf Hj Hall; [done|].
  cbn [first_clear_in_sector]. rewrite buf_get_lookup by lia.
  rewrite (Hall j) by lia. cbn. apply IH; [lia|].
  intros j' Hj'. apply Hall. lia.
Qed.

Lemma first_clear_in_sector_find n : forall j (buf : sector) j0 b k,
  0 <= j <= j0 -> j0 < j + Z.of_nat n ->
  (forall j', j <= j' < j0 -> buf !! Z.to_nat j' = Some 255) ->
  buf !! Z.to_nat j0 = Some b -> b < 255 -> first_clear_bit 8 0 b = Some k ->
  first_clear_in_sector n j buf = Some (Some (j0, k)).
Proof.
  induction n as [|n IH]; intros j buf j0 b k Hj Hn Hall Hb Hlt Hk; [lia|].
  cbn [first_clear_in_sector]. rewrite buf_get_lookup by lia.
  destruct (Z.eq_dec j j0) as [->|Hne].
  - rewrite Hb. cbn [mbind option_bind]. assert ((b <? 255) = true) as -> by lia.
    rewrite Hk. done.
  - rewrite (Hall j) by lia. cbn. apply (IH (j + 1) buf j0 b k); try lia; try done.
    intros j' Hj'. apply Hall. lia.
Qed.

Lemma wf_disk_lookup (d : list sector) s :
  wf_diskb d = true -> 0 <= s < TOTAL_SECTORS ->
  exists sec, d !! Z.to_nat s = Some sec /\ zlen sec = SECTOR_SIZE
              /\ (forall j b, sec !! j = Some b -> 0 <= b < 256).
Proof.
  intros Hwf Hs. unfold wf_diskb in Hwf. apply andb_true_iff in Hwf as [Hlen Hall].
  unfold zlen in Hlen.
  destruct (d !! Z.to_nat s) as [sec|] eqn:E.
  2:{ apply lookup_ge_None in E. lia. }
  exists sec. split; [done|].
  rewrite forallb_forall in Hall.
  assert (sector_okb sec = true) as Hok.
  { apply Hall. apply list_elem_of_In. eapply list_elem_of_lookup_2; eauto. }
  unfold sector_okb in Hok. apply andb_true_iff in Hok as [Hl Hb].
  split; [lia|]. intros j b Hjb. rewrite forallb_forall in Hb.
  assert (byte_okb b = true) as Hbok.
  { apply Hb. apply list_elem_of_In. eapply list_elem_of_lookup_2; eauto. }
  unfold byte_okb in Hbok. lia.
Qed.


Lemma bind_run {A B} (m : M A) (k : A -> M B) w a w' :
  m w = Some (a, w') -> bind m k w = k a w'.
Proof. intros H. unfold bind. by rewrite H. Qed.

Lemma defined_run {A} (o : option A) a w : o = Some a -> defined o w = Some (a, w).
Proof. by intros ->. Qed.

Lemma Disk_Read_ok w s (sec : list Z) :
  0 <= s < TOTAL_SECTORS -> disk w !! Z.to_nat s = Some sec ->
  Disk_Read s w
  = Some (Some sec, World (disk w) (open_files w) (osErrno w) (IORead s :: io_log w)).
Proof.
  intros Hs Hsec. unfold Disk_Read.
  assert (((0 <=? s) && (s <? TOTAL_SECTORS)) = true) as -> by lia.
  by rewrite Hsec.
Qed.

Lemma Disk_Write_ok w s (buf : list Z) :
  zlen buf = SECTOR_SIZE -> 0 <= s < TOTAL_SECTORS -> s < zlen (disk w) ->
  Disk_Write s buf w
  = Some (0, World (<[Z.to_nat s := buf]> (disk w)) (open_files w) (osErrno w)
                   (IOWrite s :: io_log w)).
Proof.
  intros Hlen Hs Hd. unfold Disk_Write.
  assert ((zlen buf =? SECTOR_SIZE) = true) as -> by lia. cbn [negb].
  assert (((0 <=? s) && (s <? zlen (disk w)) && (s <? TOTAL_SECTORS)) = true) as -> by lia.
  done.
Qed.

Lemma bitmap_first_unused_loop_find (start nbits i0 j k b : Z)
    (sec0 : list Z) (d : list sector) :
  0 <= start -> start + i0 < TOTAL_SECTORS -> 0 < SECTOR_SIZE ->
  d !! Z.to_nat (i0 + start) = Some sec0 -> zlen sec0 = SECTOR_SIZE ->
  first_clear_in_sector (Z.to_nat SECTOR_SIZE) 0 sec0 = Some (Some (j, k)) ->
  0 <= j -> sec0 !! Z.to_nat j = Some b ->
  forall n i w, 0 <= i <= i0 -> i0 < i + Z.of_nat n -> disk w = d ->
    (forall i', i <= i' < i0 ->
       exists sec, d !! Z.to_nat (i' + start) = Some sec
         /\ first_clear_in_sector (Z.to_nat SECTOR_SIZE) 0 sec = Some None) ->
    exists log,
      bitmap_first_unused_loop n i start nbits w
      = Some (if (i0 * SECTOR_SIZE + j) * 8 + k <? nbits
              then (i0 * SECTOR_SIZE + j) * 8 + k else -1,
              World (<[Z.to_nat (i0 + start) :=
                        <[Z.to_nat j := Z.lor b (nth (Z.to_nat k) scan_bits 0)]> sec0]> d)
                    (open_files w) (osErrno w) (IOWrite (i0 + start) :: log)).
Proof.
  intros Hstart Hend HS Hsec0 Hlen0 Hscan Hj Hb.
  induction n as [|n IH]; intros i w Hi Hn Hd Hskip; [lia|].
  cbn [bitmap_first_unused_loop].
  destruct (Z.eq_dec i i0) as [->|Hne].
  - erewrite bind_run; [|apply Disk_Read_ok; [lia | by rewrite Hd]].
    cbv beta iota.
    erewrite bind_run; [|apply defined_run, Hscan]. cbv beta iota.
    erewrite bind_run; [|apply defined_run; rewrite buf_get_lookup by lia; exact Hb].
    assert (j < zlen sec0) as Hjlt.
    { apply lookup_lt_Some in Hb. unfold zlen. lia. }
    erewrite bind_run.
    2:{ apply defined_run. unfold buf_set.
        assert (((0 <=? j) && (j <? zlen sec0)) = true) as -> by lia. done. }
    cbv beta iota.
    erewrite bind_run.
    2:{ apply Disk_Write_ok; cbn [disk].
        - unfold zlen in *. rewrite length_insert. done.
        - lia.
        - rewrite Hd. apply lookup_lt_Some in Hsec0. unfold zlen. lia. }
    cbn [disk open_files osErrno io_log]. rewrite Hd.
    assert ((0 <? 0) = false) as -> by lia.
    eexists. destruct ((i0 * SECTOR_SIZE + j) * 8 + k <? nbits); reflexivity.
  - destruct (Hskip i ltac:(lia)) as (sec & Hsec & Hnone).
    erewrite bind_run; [|apply Disk_Read_ok; [lia | by rewrite Hd]].
    cbv beta iota.
    erewrite bind_run; [|apply defined_run, Hnone].
    cbv beta iota.
    destruct (IH (i + 1) (World (disk w) (open_files w) (osErrno w)
                            (IORead (i + start) :: io_log w))) as [log Hlog];
      [lia | lia | done | intros i' Hi'; apply Hskip; lia |].
    exists log. exact Hlog.
Qed.

(** Whatever the disk, a non-negative result is a position below [nbits]. *)
Lemma bitmap_first_unused_loop_below (start nbits : Z) :
  forall n i w r w',
    bitmap_first_unused_loop n i start nbits w = Some (r, w') ->
    0 <= r -> r < nbits.
Proof.
  induction n as [|n IH]; intros i w r w' Hrun Hr.
  - cbn in Hrun. unfold ret in Hrun. injection Hrun as <- _. lia.
  - cbn [bitmap_first_unused_loop] in Hrun. unfold bind at 1 in Hrun.
    destruct (Disk_Read (i + start) w) as [[[buf|] w1]|]; [| |done].
    2:{ unfold ret in Hrun. injection Hrun as <- _. lia. }
    unfold bind at 1 in Hrun.
    destruct (defined (first_clear_in_sector (Z.to_nat SECTOR_SIZE) 0 buf) w1)
      as [[[[j k]|] w2]|]; [| |done].
    2:{ eapply IH; eauto. }
    unfold bind at 1 in Hrun.
    destruct (defined (buf_get buf j) w2) as [[b w3]|]; [|done].
    unfold bind at 1 in Hrun.
    destruct (defined (buf_set buf j (Z.lor b (nth (Z.to_nat k) scan_bits 0))) w3)
      as [[buf' w4]|]; [|done].
    unfold bind at 1 in Hrun.
    destruct (Disk_Write (i + start) buf' w4) as [[rc w5]|]; [|done].
    destruct (rc <? 0).
    { unfold ret in Hrun. injection Hrun as <- _. lia. }
    destruct ((i * SECTOR_SIZE + j) * 8 + k <? nbits) eqn:E;
      unfold ret in Hrun; injection Hrun as <- _; lia.
Qed.


Lemma bitmap_bit_coords (d : list sector) start i j k :
  0 < SECTOR_SIZE -> 0 <= j < SECTOR_SIZE -> 0 <= k < 8 ->
  bitmap_bit d start ((i * SECTOR_SIZE + j) * 8 + k)
  = (sec ← d !! Z.to_nat (start + i); b ← sec !! Z.to_nat j; Some (msb_bit b k)).
Proof.
  intros HS Hj Hk. unfold bitmap_bit, msb_bit.
  destruct (pos_coords i j k HS Hj Hk) as (-> & -> & ->). done.
Qed.

Lemma scan_bits_pow k : 0 <= k < 8 -> nth (Z.to_nat k) scan_bits 0 = 2 ^ (7 - k).
Proof.
  intros H.
  assert (k = 0 \/ k = 1 \/ k = 2 \/ k = 3 \/ k = 4 \/ k = 5 \/ k = 6 \/ k = 7)
    as Hk by lia.
  repeat (destruct Hk as [-> | Hk]; [reflexivity|]). subst. reflexivity.
Qed.

Lemma msb_bit_lor b k k' :
  0 <= k < 8 -> 0 <= k' < 8 ->
  msb_bit (Z.lor b (nth (Z.to_nat k) scan_bits 0)) k'
  = if k =? k' then true else msb_bit b k'.
Proof.
  intros Hk Hk'. unfold msb_bit. rewrite scan_bits_pow by done.
  rewrite Z.lor_spec, Z.pow2_bits_eqb by lia.
  destruct (Z.eqb_spec k k') as [->|Hne].
  - rewrite Z.eqb_refl. apply orb_true_r.
  - assert ((7 - k =? 7 - k') = false) as -> by lia. apply orb_false_r.
Qed.

(** Claim C5.  When the first zero bit of the bitmap of [num] sectors at
    [start] lies at position [pos] and [pos >= nbits], [bitmap_first_unused]
    returns -1, and yet sets that bit (the bitmap lies on the disk and its bit
    positions fit in an [int]): in the disk after the call bit [pos] is
    1, every other bit and every other sector are unchanged, and the last
    block-device call is the write of the sector that holds the bit.  On any
    disk, a non-negative result of [bitmap_first_unused] is strictly below
    [nbits]. *)
Theorem bitmap_first_unused_beyond_capacity (start num nbits pos : Z) (w : world) :
  0 < SECTOR_SIZE -> wf_diskb (disk w) = true ->
  0 <= start -> start + num <= TOTAL_SECTORS ->
  num * SECTOR_SIZE * 8 < 2 ^ 31 ->
  0 <= pos < num * SECTOR_SIZE * 8 ->
  (forall q, 0 <= q < pos -> bitmap_bit (disk w) start q = Some true) ->
  bitmap_bit (disk w) start pos = Some false ->
  nbits <= pos ->
  (exists w',
     bitmap_first_unused start num nbits w = Some (-1, w')
     /\ bitmap_bit (disk w') start pos = Some true
     /\ (forall q, 0 <= q -> q <> pos ->
           bitmap_bit (disk w') start q = bitmap_bit (disk w) start q)
     /\ (forall s, s <> Z.to_nat (start + pos / (SECTOR_SIZE * 8)) ->
           disk w' !! s = disk w !! s)
     /\ head (io_log w') = Some (IOWrite (start + pos / (SECTOR_SIZE * 8)))
     /\ open_files w' = open_files w /\ osErrno w' = osErrno w)
  /\ (forall w0 r w1,
        bitmap_first_unused start num nbits w0 = Some (r, w1) -> 0 <= r -> r < nbits).
Proof.
  intros HS Hwf Hstart Hend _ Hpos Hones Hzero Hcap.
  split; [| intros w0 r w1; apply bitmap_first_unused_loop_below].
  destruct (pos_decompose pos HS ltac:(lia)) as (Epos & Hi0 & Hj & Hk).
  set (i0 := pos / (SECTOR_SIZE * 8)) in *.
  set (j := pos / 8 mod SECTOR_SIZE) in *.
  set (k := pos mod 8) in *.
  assert (i0 < num) as Hi0n by nia.
  (* the sector and the byte that hold the bit *)
  destruct (wf_disk_lookup (disk w) (start + i0) Hwf ltac:(lia))
    as (sec0 & Hsec0 & Hlen0 & Hbytes0).
  destruct (sec0 !! Z.to_nat j) as [b|] eqn:Hb.
  2:{ apply lookup_ge_None in Hb. unfold zlen in Hlen0. lia. }
  assert (forall k', 0 <= k' < 8 ->
            bitmap_bit (disk w) start ((i0 * SECTOR_SIZE + j) * 8 + k')
            = Some (msb_bit b k')) as Hbyte.
  { intros k' Hk'. rewrite bitmap_bit_coords by done. rewrite Hsec0. cbn [mbind option_bind].
    rewrite Hb. done. }
  assert (msb_bit b k = false) as Hclear.
  { specialize (Hbyte k Hk). rewrite <- Epos, Hzero in Hbyte. congruence. }
  destruct (first_clear_bit_found b k (Hbytes0 _ _ Hb) Hk Hclear) as [Hb255 Hfirst].
  { intros k' Hk'. specialize (Hbyte k' ltac:(lia)).
    rewrite Hones in Hbyte by nia. congruence. }
  (* every earlier byte is 0xff *)
  assert (forall i' j', 0 <= i' -> 0 <= j' < SECTOR_SIZE ->
            (i' * SECTOR_SIZE + j') * 8 + 7 < pos ->
            forall sec, disk w !! Z.to_nat (start + i') = Some sec ->
              (forall jj bb, sec !! jj = Some bb -> 0 <= bb < 256) ->
              zlen sec = SECTOR_SIZE ->
              sec !! Z.to_nat j' = Some 255) as Hff.
  { intros i' j' Hi' Hj' Hlt sec Hsec Hbytes Hlen.
    destruct (sec !! Z.to_nat j') as [b'|] eqn:Hb'.
    2:{ apply lookup_ge_None in Hb'. unfold zlen in Hlen. lia. }
    f_equal. apply byte_all_set; [eauto|].
    intros k' Hk'.
    assert (0 <= (i' * SECTOR_SIZE + j') * 8 + k' < pos) as Hrange by nia.
    pose proof (Hones _ Hrange) as Hq.
    rewrite bitmap_bit_coords in Hq by done. rewrite Hsec in Hq. cbn [mbind option_bind] in Hq.
    rewrite Hb' in Hq. cbn [mbind option_bind] in Hq. congruence. }
  assert (first_clear_in_sector (Z.to_nat SECTOR_SIZE) 0 sec0 = Some (Some (j, k)))
    as Hscan.
  { apply (first_clear_in_sector_find _ 0 sec0 j b k); try done; try lia.
    intros j' Hj'. apply (Hff i0 j'); try done; try lia; try nia. }
  destruct (bitmap_first_unused_loop_find start nbits i0 j k b sec0 (disk w)
              Hstart ltac:(lia) HS ltac:(by rewrite Z.add_comm) Hlen0 Hscan
              ltac:(lia) Hb (Z.to_nat num) 0 w ltac:(lia) ltac:(lia) eq_refl)
    as [log Hrun].
  { intros i' Hi'.
    destruct (wf_disk_lookup (disk w) (start + i') Hwf ltac:(lia))
      as (sec & Hsec & Hlen & Hbytes).
    exists sec. split; [by rewrite Z.add_comm|].
    apply first_clear_in_sector_skip; [lia|].
    intros j' Hj'. apply (Hff i' j'); try done; try lia; try nia. }
  rewrite <- Epos in Hrun.
  assert ((pos <? nbits) = false) as Hge by lia. rewrite Hge in Hrun.
  unfold bitmap_first_unused. eexists. split; [exact Hrun|].
  cbn [disk open_files osErrno io_log].
  rewrite (Z.add_comm i0 start).
  assert (Z.to_nat (start + i0) < length (disk w))%nat as HltS
    by (by apply lookup_lt_Some in Hsec0).
  assert (Z.to_nat j < length sec0)%nat as HltJ by (by apply lookup_lt_Some in Hb).
  repeat split.
  - rewrite Epos, bitmap_bit_coords by done.
    rewrite list_lookup_insert_eq by done. cbn [mbind option_bind].
    rewrite list_lookup_insert_eq by done. cbn [mbind option_bind].
    rewrite msb_bit_lor by done. by rewrite Z.eqb_refl.
  - intros q Hq Hne.
    destruct (pos_decompose q HS Hq) as (Eq & Hqi & Hqj & Hqk).
    set (qi := q / (SECTOR_SIZE * 8)) in *.
    set (qj := q / 8 mod SECTOR_SIZE) in *.
    set (qk := q mod 8) in *.
    rewrite Eq, !bitmap_bit_coords by done.
    destruct (Z.eq_dec qi i0) as [Ei|Ei].
    2:{ rewrite list_lookup_insert_ne by lia. done. }
    rewrite Ei, list_lookup_insert_eq, Hsec0 by done. cbn [mbind option_bind].
    destruct (Z.eq_dec qj j) as [Ej|Ej].
    2:{ rewrite list_lookup_insert_ne by lia. done. }
    rewrite Ej, list_lookup_insert_eq, Hb by done. cbn [mbind option_bind].
    rewrite msb_bit_lor by done.
    assert ((k =? qk) = false) as -> by (subst qi qj; lia). done.
  - intros s Hs. rewrite list_lookup_insert_ne by lia. done.
Qed.


(** ** Reading a directory *)

Lemma memcpy_ok (dst : list Z) doff (src : list Z) soff n :
  0 <= n -> 0 <= doff -> 0 <= soff ->
  doff + n <= zlen dst -> soff + n <= zlen src ->
  exists dst',
    memcpy dst doff src soff n = Some dst'
    /\ length dst' = length dst
    /\ (forall x : nat, (Z.of_nat x < doff \/ doff + n <= Z.of_nat x) ->
          dst' !! x = dst !! x)
    /\ (forall o, 0 <= o < n ->
          dst' !! Z.to_nat (doff + o) = src !! Z.to_nat (soff + o)).
Proof.
  intros Hn Hd Hs Hdl Hsl. unfold memcpy, zlen in *.
  assert (((0 <=? n) && (0 <=? doff) && (0 <=? soff)
           && (doff + n <=? Z.of_nat (length dst))
           && (soff + n <=? Z.of_nat (length src))) = true) as -> by lia.
  eexists. split; [reflexivity|].
  assert (length (take (Z.to_nat doff) dst) = Z.to_nat doff) as L1
    by (rewrite length_take; lia).
  assert (length (take (Z.to_nat n) (drop (Z.to_nat soff) src)) = Z.to_nat n) as L2
    by (rewrite length_take, length_drop; lia).
  repeat split.
  - rewrite !length_app, L1, L2, length_drop. lia.
  - intros x [Hx|Hx].
    + rewrite lookup_app_l by lia. apply lookup_take_lt. lia.
    + rewrite lookup_app_r by lia. rewrite lookup_app_r by lia.
      rewrite lookup_drop, L1, L2. f_equal. lia.
  - intros o Ho.
    rewrite lookup_app_r by lia. rewrite lookup_app_l by lia.
    rewrite lookup_take_lt by lia. rewrite lookup_drop, L1. f_equal. lia.
Qed.


Lemma Dir_Read_full_run (ib : list Z) (base : Z) (d : list sector) :
  let L := DIRENTS_PER_SECTOR * sizeof_dirent_t in
  0 <= L <= SECTOR_SIZE ->
  forall n i out_pos (buffer : list Z) w,
    disk w = d -> 0 <= i -> out_pos = i * L ->
    (forall i', i <= i' < i + Z.of_nat n ->
       exists s (sec : list Z),
         inode_data ib base i' = Some s /\ 0 <= s < TOTAL_SECTORS
         /\ d !! Z.to_nat s = Some sec /\ zlen sec = SECTOR_SIZE) ->
    (i + Z.of_nat n) * L <= zlen buffer ->
    exists (buffer' : list Z) w',
      Dir_Read_full n i ib base out_pos buffer w
      = Some ((Some ((i + Z.of_nat n) * L), buffer'), w')
      /\ disk w' = d /\ open_files w' = open_files w /\ osErrno w' = osErrno w
      /\ length buffer' = length buffer
      /\ (forall x : nat,
            (Z.of_nat x < i * L \/ (i + Z.of_nat n) * L <= Z.of_nat x) ->
            buffer' !! x = buffer !! x)
      /\ (forall i' o, i <= i' < i + Z.of_nat n -> 0 <= o < L ->
            buffer' !! Z.to_nat (i' * L + o)
            = (s ← inode_data ib base i'; sec ← d !! Z.to_nat s; sec !! Z.to_nat o)).
Proof.
  intros L HL.
  assert (L = DIRENTS_PER_SECTOR * sizeof_dirent_t) as HLdef by reflexivity.
  clearbody L.
  induction n as [|n IH]; intros i out_pos buffer w Hd Hi Hout Hsecs Hlen.
  - cbn [Dir_Read_full]. unfold ret. exists buffer, w. subst out_pos.
    replace (i + Z.of_nat 0) with i by lia.
    repeat split; try done. intros i' o Hi'. lia.
  - cbn [Dir_Read_full].
    destruct (Hsecs i ltac:(lia)) as (s & sec & Hdata & Hs & Hsec & Hseclen).
    erewrite bind_run; [|apply defined_run, Hdata]. cbv beta iota.
    erewrite bind_run; [|apply Disk_Read_ok; [done | by rewrite Hd]]. cbv beta iota.
    assert (0 <= i * L) as HiL by (apply Z.mul_nonneg_nonneg; lia).
    assert (0 <= Z.of_nat n * L) as HnL by (apply Z.mul_nonneg_nonneg; lia).
    destruct (memcpy_ok buffer out_pos sec 0 L) as (buf1 & Hcpy & Hlen1 & Hout1 & Hin1);
      try lia.
    rewrite <- HLdef. erewrite bind_run; [|apply defined_run, Hcpy]. cbv beta iota.
    destruct (IH (i + 1) (out_pos + L) buf1
                (World (disk w) (open_files w) (osErrno w) (IORead s :: io_log w)))
      as (buf2 & w2 & Hrun & Hd2 & Ho2 & He2 & Hlen2 & Hout2 & Hin2);
      try done; try lia.
    { intros i' Hi'. apply Hsecs. lia. }
    { unfold zlen in *. rewrite Hlen1. lia. }
    exists buf2, w2.
    replace (i + Z.of_nat (S n)) with (i + 1 + Z.of_nat n) by lia.
    split; [exact Hrun|]. repeat split; try done.
    + congruence.
    + intros x Hx. rewrite Hout2 by lia. apply Hout1. subst out_pos. lia.
    + intros i' o Hi' Ho.
      destruct (Z.eq_dec i' i) as [->|Hne].
      * rewrite Hout2 by nia. rewrite Hdata. cbn [mbind option_bind].
        rewrite Hsec. cbn [mbind option_bind].
        subst out_pos. rewrite (Hin1 o Ho). f_equal.
      * apply Hin2; lia.
Qed.


Lemma to_size_t_small x : 0 <= x < 2 ^ 64 -> to_size_t x = x.
Proof. intros H. unfold to_size_t. apply Z.mod_small. lia. Qed.

Lemma to_int_small x : - 2 ^ 31 <= x < 2 ^ 31 -> to_int x = x.
Proof. intros H. unfold to_int. rewrite Z.mod_small; lia. Qed.

Lemma DIRENTS_PER_SECTOR_bounds :
  sizeof_dirent_t <= SECTOR_SIZE < 2 ^ 31 ->
  0 < DIRENTS_PER_SECTOR < 2 ^ 31
  /\ DIRENTS_PER_SECTOR * sizeof_dirent_t <= SECTOR_SIZE.
Proof.
  intros H. unfold DIRENTS_PER_SECTOR, sizeof_dirent_t, MAX_NAME in *.
  change (16 + 4) with 20 in *.
  rewrite to_size_t_small by lia.
  pose proof (Z.mul_div_le SECTOR_SIZE 20 ltac:(lia)).
  assert (1 <= SECTOR_SIZE / 20) by (apply Z.div_le_lower_bound; lia).
  assert (SECTOR_SIZE / 20 <= SECTOR_SIZE) by (apply Z.div_le_upper_bound; lia).
  lia.
Qed.

Lemma Dir_Read_run (path buffer : list Z) (size : Z)
    (w w1 : world) (p c n : Z) (nm : option (list Z)) (ib : list Z) :
  sizeof_dirent_t <= SECTOR_SIZE < 2 ^ 31 ->
  follow_path path w = Some (Followed p (Some c) nm, w1) -> 0 <= p ->
  0 <= inode_sector_of c < TOTAL_SECTORS ->
  disk w1 !! Z.to_nat (inode_sector_of c) = Some ib ->
  inode_size ib (inode_base_mod c) = Some n -> 0 <= n ->
  entry_sectors_ok (disk w1) ib (inode_base_mod c) n ->
  0 <= size < 2 ^ 31 -> size <= zlen buffer ->
  exists r w2,
    Dir_Read path buffer size w = Some (r, w2)
    /\ disk w2 = disk w1 /\ open_files w2 = open_files w1
    /\ if size <? n * sizeof_dirent_t
       then r = (-1, buffer) /\ osErrno w2 = Some E_BUFFER_TOO_SMALL
       else fst r = n /\ osErrno w2 = osErrno w1
            /\ length (snd r) = length buffer
            /\ (forall m o, 0 <= m < n -> 0 <= o < sizeof_dirent_t ->
                  snd r !! Z.to_nat (m * sizeof_dirent_t + o)
                  = dir_byte (disk w1) ib (inode_base_mod c) m o)
            /\ (forall x : nat, n * sizeof_dirent_t <= Z.of_nat x ->
                  snd r !! x = buffer !! x).
Proof.
  intros HSS Hpath Hp Hsec Hib Hn Hn0 Hdir Hsize Hbuf.
  destruct (DIRENTS_PER_SECTOR_bounds HSS) as [HD HL].
  assert (n < 2 ^ 31) as Hn31.
  { unfold inode_size, load_int in Hn.
    destruct (buf_get ib (inode_base_mod c)); [|done].
    destruct (buf_get ib (inode_base_mod c + 1)); [|done].
    destruct (buf_get ib (inode_base_mod c + 2)); [|done].
    destruct (buf_get ib (inode_base_mod c + 3)); [|done].
    cbn in Hn. injection Hn as <-. unfold to_int.
    match goal with |- ?a mod ?b - _ < _ =>
      pose proof (Z.mod_pos_bound a b ltac:(lia)) end. lia. }
  assert (sizeof_dirent_t = 20) as H20 by reflexivity.
  unfold Dir_Read.
  erewrite bind_run; [|exact Hpath]. cbv beta iota. cbn [fp_parent fp_last_inode].
  assert ((p <? 0) = false) as -> by lia.
  erewrite bind_run; [|by apply defined_run]. cbv beta iota.
  erewrite bind_run; [|by apply Disk_Read_ok]. cbv beta iota.
  erewrite bind_run; [|apply defined_run, Hn]. cbv beta iota.
  rewrite (to_size_t_small size), (to_size_t_small n) by lia.
  rewrite (to_size_t_small (n * sizeof_dirent_t)) by lia.
  destruct (size <? n * sizeof_dirent_t) eqn:Hcmp.
  { unfold bind, set_osErrno, ret. cbn [disk open_files osErrno io_log].
    eexists _, _. split; [reflexivity|]. cbn [disk open_files osErrno]. done. }
  apply Z.ltb_ge in Hcmp.
  set (w1r := World (disk w1) (open_files w1) (osErrno w1)
                (IORead (inode_sector_of c) :: io_log w1)).
  set (q := n / DIRENTS_PER_SECTOR).
  set (left := n mod DIRENTS_PER_SECTOR).
  assert (n = DIRENTS_PER_SECTOR * q + left) as Hdm by (apply Z.div_mod; lia).
  assert (0 <= left < DIRENTS_PER_SECTOR) as Hleft by (apply Z.mod_pos_bound; lia).
  assert (0 <= q) as Hq by (apply Z.div_pos; lia).
  set (L := DIRENTS_PER_SECTOR * sizeof_dirent_t) in *.
  assert (q * L + left * sizeof_dirent_t = n * sizeof_dirent_t) as HqL
    by (unfold L; transitivity ((DIRENTS_PER_SECTOR * q + left) * sizeof_dirent_t);
        [ring | by rewrite <- Hdm]).
  assert (0 <= q * L) as HqL0 by (apply Z.mul_nonneg_nonneg; lia).
  destruct (Dir_Read_full_run ib (inode_base_mod c) (disk w1) ltac:(fold L; lia)
              (Z.to_nat q) 0 0 buffer w1r eq_refl ltac:(lia) ltac:(lia))
    as (buf1 & w2 & Hrun & Hd2 & Ho2 & He2 & Hlen1 & Hout1 & Hin1).
  { intros i' Hi'. apply Hdir; [lia|]. nia. }
  { fold L. rewrite Z2Nat.id by lia. lia. }
  cbn [disk open_files osErrno w1r] in Hd2, Ho2, He2.
  fold L in Hrun, Hout1, Hin1.
  rewrite Z2Nat.id in Hrun, Hout1, Hin1 by lia.
  rewrite Z.add_0_l in Hrun, Hout1, Hin1.
  erewrite bind_run; [|exact Hrun]. cbv beta iota.
  rewrite (to_int_small left) by lia.
  (* where slot [m] lies *)
  assert (forall m, 0 <= m < n ->
            m / DIRENTS_PER_SECTOR <= q
            /\ 0 <= m mod DIRENTS_PER_SECTOR < DIRENTS_PER_SECTOR
            /\ m * sizeof_dirent_t
               = m / DIRENTS_PER_SECTOR * L + m mod DIRENTS_PER_SECTOR * sizeof_dirent_t
            /\ 0 <= m / DIRENTS_PER_SECTOR
            /\ (m / DIRENTS_PER_SECTOR = q ->
                  m mod DIRENTS_PER_SECTOR * sizeof_dirent_t + sizeof_dirent_t
                  <= left * sizeof_dirent_t)
            /\ m mod DIRENTS_PER_SECTOR * sizeof_dirent_t + sizeof_dirent_t <= L
            /\ (m / DIRENTS_PER_SECTOR <> q -> m / DIRENTS_PER_SECTOR * L + L <= q * L)
            /\ 0 <= m / DIRENTS_PER_SECTOR * L
            /\ 0 <= m mod DIRENTS_PER_SECTOR * sizeof_dirent_t)
    as Hslot.
  { intros m Hm.
    assert (DIRENTS_PER_SECTOR <> 0) as HD0 by lia.
    assert (0 < DIRENTS_PER_SECTOR) as HDpos by lia.
    pose proof (Z.div_mod m DIRENTS_PER_SECTOR HD0) as Hmd.
    pose proof (Z.mod_pos_bound m DIRENTS_PER_SECTOR HDpos) as Hmb.
    assert (m / DIRENTS_PER_SECTOR <= q) by (apply Z.div_le_mono; lia).
    assert (0 <= m / DIRENTS_PER_SECTOR) by (apply Z.div_pos; lia).
    assert (forall a b, a + 1 <= b -> a * sizeof_dirent_t + sizeof_dirent_t
                                      <= b * sizeof_dirent_t) as Hmono.
    { intros a b Hab. rewrite H20. lia. }
    assert (forall a b, a + 1 <= b -> a * L + L <= b * L) as HmonoL.
    { intros a b Hab.
      pose proof (Z.mul_le_mono_nonneg_r (a + 1) b L ltac:(lia) Hab). lia. }
    split; [done|]. split; [done|]. split; [unfold L; lia|]. split; [done|].
    split; [intros E; apply Hmono; rewrite E in Hmd; lia|].
    split; [unfold L; apply Hmono; lia|].
    split; [intros E; apply HmonoL; lia|].
    split; apply Z.mul_nonneg_nonneg; lia. }
  destruct (left >? 0) eqn:Hl.
  - apply Z.gtb_lt in Hl.
    destruct (Hdir q Hq ltac:(lia)) as (s & sec & Hdata & Hs & Hsec' & Hseclen).
    erewrite bind_run; [|apply defined_run, Hdata]. cbv beta iota.
    erewrite bind_run; [|apply Disk_Read_ok; [done | by rewrite Hd2]]. cbv beta iota.
    assert (0 <= left * sizeof_dirent_t <= L) as HleftL.
    { split; [apply Z.mul_nonneg_nonneg; lia|].
      unfold L. apply Z.mul_le_mono_nonneg_r; lia. }
    destruct (memcpy_ok buf1 (q * L) sec 0 (left * sizeof_dirent_t))
      as (buf2 & Hcpy & Hlen2 & Hout2 & Hin2); try lia.
    { unfold zlen in *. rewrite Hlen1. lia. }
    erewrite bind_run; [|apply defined_run, Hcpy]. cbv beta iota.
    unfold ret. eexists _, _. split; [reflexivity|].
    cbn [disk open_files osErrno io_log fst snd].
    split; [congruence|]. split; [congruence|]. split; [reflexivity|].
    split; [congruence|]. split; [congruence|]. split.
    + intros m o Hm Ho.
      destruct (Hslot m Hm)
        as (Hle & Hmod & Hmul & Hdiv0 & Hlast & HmL & Hfull & HdL & HmS).
      unfold dir_byte. rewrite Hmul.
      destruct (Z.eq_dec (m / DIRENTS_PER_SECTOR) q) as [E|E].
      * rewrite E, Hdata. cbn [mbind option_bind]. rewrite Hsec'.
        cbn [mbind option_bind]. specialize (Hlast E).
        rewrite <- Z.add_assoc. rewrite Hin2 by lia. f_equal.
      * specialize (Hfull E). rewrite Hout2 by lia. rewrite <- Z.add_assoc.
        rewrite Hin1 by lia. reflexivity.
    + intros x Hx. rewrite Hout2 by lia. apply Hout1. lia.
  - assert (left = 0) as Hl0 by lia.
    unfold ret. eexists _, _. split; [reflexivity|].
    cbn [disk open_files osErrno io_log fst snd].
    split; [congruence|]. split; [congruence|]. split; [reflexivity|].
    split; [congruence|]. split; [congruence|]. split.
    + intros m o Hm Ho.
      destruct (Hslot m Hm)
        as (Hle & Hmod & Hmul & Hdiv0 & Hlast & HmL & Hfull & HdL & HmS).
      unfold dir_byte. rewrite Hmul.
      assert (m / DIRENTS_PER_SECTOR <> q) as E
        by (intros E; specialize (Hlast E); rewrite H20 in Hlast; lia).
      specialize (Hfull E).
      rewrite <- Z.add_assoc. rewrite Hin1 by lia. reflexivity.
    + intros x Hx. apply Hout1. lia.
Qed.

(** Property X1.  For a capacity that is not negative, [Dir_Read] does what
    the specification says of it: it fails with [E_BUFFER_TOO_SMALL] exactly
    when the capacity is below [n] entries of [sizeof_dirent_t] bytes, and
    otherwise returns [n] and copies the [n] entry slots, byte for byte and in
    the order of the disk, to the start of the buffer, leaving the rest of the
    buffer alone.  [w1] is the state after the path has been followed. *)
Theorem Dir_Read_nonnegative_capacity (path buffer : list Z) (size : Z)
    (w w1 : world) (p c n : Z) (nm : option (list Z)) (ib : list Z) :
  sizeof_dirent_t <= SECTOR_SIZE < 2 ^ 31 ->
  follow_path path w = Some (Followed p (Some c) nm, w1) -> 0 <= p ->
  0 <= inode_sector_of c < TOTAL_SECTORS ->
  disk w1 !! Z.to_nat (inode_sector_of c) = Some ib ->
  inode_size ib (inode_base_mod c) = Some n -> 0 <= n ->
  entry_sectors_ok (disk w1) ib (inode_base_mod c) n ->
  0 <= size < 2 ^ 31 -> size <= zlen buffer ->
  exists r w2,
    Dir_Read path buffer size w = Some (r, w2)
    /\ disk w2 = disk w1 /\ open_files w2 = open_files w1
    /\ if size <? n * sizeof_dirent_t
       then r = (-1, buffer) /\ osErrno w2 = Some E_BUFFER_TOO_SMALL
       else fst r = n /\ osErrno w2 = osErrno w1
            /\ length (snd r) = length buffer
            /\ (forall m o, 0 <= m < n -> 0 <= o < sizeof_dirent_t ->
                  snd r !! Z.to_nat (m * sizeof_dirent_t + o)
                  = dir_byte (disk w1) ib (inode_base_mod c) m o)
            /\ (forall x : nat, n * sizeof_dirent_t <= Z.of_nat x ->
                  snd r !! x = buffer !! x).
Proof.
  exact (Dir_Read_run path buffer size w w1 p c n nm ib).
Qed.

(** ** Removing entries *)

(** The loop of [remove_inode] over the full entry sectors is entered with
    [found = 0] and leaves at once: it reads no sector and finds nothing,
    however many full sectors the directory has. *)
Lemma remove_full_loop_breaks n dir_sec child_inode (parent_buf : list Z) parent
    (dirent_buf : list Z) w :
  remove_full_loop n dir_sec child_inode parent_buf parent 0 dirent_buf w
  = Some (Some (0, dirent_buf), w).
Proof. destruct n; reflexivity. Qed.

(** ** Unlinking the root *)

Lemma c_str_repeat_slash n : c_str (repeat 47 n) = repeat 47 n.
Proof. induction n as [|n IH]; [done|]. cbn. by rewrite IH. Qed.

Lemma take_repeat {A} (x : A) m n : take m (repeat x n) = repeat x (min m n).
Proof.
  revert m. induction n as [|n IH]; intros [|m]; cbn; try done. by rewrite IH.
Qed.

Lemma strsep_all_slashes n : strsep_all (repeat 47 n) [] = repeat [] (S n).
Proof. induction n as [|n IH]; [done|]. cbn. by rewrite IH. Qed.

Lemma follow_tokens_empty n parent child cs (cb : list Z) lf w :
  -1 <= child ->
  follow_tokens (repeat [] n) parent child cs cb lf w
  = Some (Followed (if (parent =? -1) && (child =? 0) then 0 else parent)
            (Some child) lf, w).
Proof.
  intros Hc. induction n as [|n IH]; cbn.
  - assert ((child <? -1) = false) as -> by lia. done.
  - exact IH.
Qed.

Lemma follow_path_slashes k w (ib : list Z) :
  0 <= INODE_TABLE_START_SECTOR < TOTAL_SECTORS ->
  disk w !! Z.to_nat INODE_TABLE_START_SECTOR = Some ib ->
  follow_path (slashes k) w
  = Some (Followed 0 (Some 0) None,
          World (disk w) (open_files w) (osErrno w)
                (IORead INODE_TABLE_START_SECTOR :: io_log w)).
Proof.
  intros Hs Hib. unfold follow_path, slashes. rewrite c_str_repeat_slash.
  cbn [repeat]. rewrite Z.eqb_refl. cbn [negb].
  erewrite bind_run; [|by apply Disk_Read_ok]. cbv beta iota.
  rewrite take_repeat, strsep_all_slashes.
  rewrite follow_tokens_empty by lia. done.
Qed.


Lemma inode_sector_of_root :
  0 <= INODE_TABLE_START_SECTOR < 2 ^ 31 ->
  inode_sector_of 0 = INODE_TABLE_START_SECTOR.
Proof.
  intros H. unfold inode_sector_of.
  assert (to_size_t 0 = 0) as -> by reflexivity.
  rewrite Zdiv_0_l, Z.add_0_r, to_size_t_small, to_int_small; lia.
Qed.

Lemma inode_base_mod_root : inode_base_mod 0 = 0.
Proof.
  unfold inode_base_mod. assert (to_size_t 0 = 0) as -> by reflexivity.
  rewrite Zmod_0_l. reflexivity.
Qed.

(** [remove_inode] applied to the root directory as its own parent gives up
    before any write. *)
Lemma remove_inode_root w (ib : list Z) n :
  0 <= INODE_TABLE_START_SECTOR < TOTAL_SECTORS ->
  INODE_TABLE_START_SECTOR < 2 ^ 31 ->
  disk w !! Z.to_nat INODE_TABLE_START_SECTOR = Some ib ->
  inode_type ib 0 = Some 1 -> inode_size ib 0 = Some n -> 0 <= n ->
  exists r log,
    remove_inode 1 0 0 w
    = Some (r, World (disk w) (open_files w) (osErrno w) log) /\ r < 0.
Proof.
  intros Hs H31 Hib Ht Hn Hn0. unfold remove_inode.
  rewrite inode_sector_of_root, inode_base_mod_root by lia.
  erewrite bind_run; [|by apply Disk_Read_ok]. cbv beta iota.
  erewrite bind_run; [|apply defined_run, Ht]. cbv beta iota.
  erewrite bind_run; [|apply defined_run, Hn]. cbv beta iota.
  cbn [Z.eqb Pos.eqb negb andb].
  destruct (n >? 0) eqn:Hpos.
  { unfold ret. eexists _, _. split; [reflexivity | lia]. }
  assert (n = 0) as -> by lia.
  erewrite bind_run; [|by apply Disk_Read_ok]. cbv beta iota.
  erewrite bind_run; [|apply defined_run, Ht]. cbv beta iota.
  cbn [Z.eqb Pos.eqb negb].
  erewrite bind_run; [|apply defined_run, Hn]. cbv beta iota.
  assert (to_size_t 0 = 0) as -> by reflexivity.
  rewrite Zdiv_0_l. assert (to_int 0 = 0) as -> by reflexivity.
  rewrite Z.mul_0_l. change (0 - 0) with 0.
  assert (to_int 0 = 0) as -> by reflexivity.
  change (Z.to_nat 0) with 0%nat.
  cbn [remove_full_loop sgn Z.eqb negb andb].
  unfold bind, ret. cbn [Z.eqb]. eexists _, _. split; [reflexivity | lia].
Qed.

(** Property X2.  Unlinking a spelling of the root, as a directory or as a
    file, fails and leaves the disk as it was, whenever the root inode is a
    directory of non-negative size. *)
Theorem unlink_root_spelling (k : nat) (w : world) (ib : list Z) (n : Z) :
  0 <= INODE_TABLE_START_SECTOR < TOTAL_SECTORS ->
  INODE_TABLE_START_SECTOR < 2 ^ 31 ->
  disk w !! Z.to_nat INODE_TABLE_START_SECTOR = Some ib ->
  inode_type ib 0 = Some 1 -> inode_size ib 0 = Some n -> 0 <= n ->
  (exists w', Dir_Unlink (slashes k) w = Some (-1, w') /\ disk w' = disk w)
  /\ (exists r w', File_Unlink (slashes k) w = Some (r, w') /\ r < 0
                   /\ disk w' = disk w).
Proof.
  intros Hs H31 Hib Ht Hn Hn0.
  pose proof (follow_path_slashes k w ib Hs Hib) as Hpath.
  set (w1 := World (disk w) (open_files w) (osErrno w)
               (IORead INODE_TABLE_START_SECTOR :: io_log w)) in *.
  split.
  - unfold Dir_Unlink.
    destruct (decide (c_str (slashes k) = [47])).
    { unfold bind, set_osErrno, ret. eexists. split; [reflexivity | done]. }
    erewrite bind_run; [|exact Hpath]. cbv beta iota. cbn [fp_parent fp_last_inode].
    assert ((0 <? 0) = false) as -> by lia.
    erewrite bind_run; [|by apply defined_run]. cbv beta iota.
    destruct (remove_inode_root w1 ib n Hs H31 Hib Ht Hn Hn0) as (r & log & Hrun & Hr).
    erewrite bind_run; [|exact Hrun]. cbv beta iota.
    assert ((r <? 0) = true) as -> by lia.
    unfold bind, set_osErrno, ret. eexists. split; [reflexivity | done].
  - unfold File_Unlink.
    erewrite bind_run; [|exact Hpath]. cbv beta iota. cbn [fp_parent fp_last_inode].
    assert ((0 <? 0) = false) as -> by lia.
    erewrite bind_run; [|by apply defined_run]. cbv beta iota.
    unfold is_file_open. unfold bind at 2, get_open_files, ret.
    erewrite bind_run; [|reflexivity]. cbv beta iota.
    destruct (existsb _ _).
    { unfold bind, set_osErrno, ret. cbn. eexists _, _.
      split; [reflexivity | split; [lia | done]]. }
    cbn [Z.eqb negb].
    rewrite inode_sector_of_root, inode_base_mod_root by lia.
    erewrite bind_run; [|by apply Disk_Read_ok]. cbv beta iota.
    erewrite bind_run; [|apply defined_run, Ht]. cbv beta iota.
    cbn [Z.eqb negb]. unfold ret. eexists _, _.
    split; [reflexivity | split; [lia | done]].
Qed.

(** ** Closing a file *)

(** Claim C10.  For every [fd] that indexes an entry in use of the open-file
    table, [File_Close] succeeds (returns 0), makes no block-device call (the
    log of reads and writes is unchanged), frees that entry only (its inode
    becomes 0, the table keeps its length and every other entry), and leaves
    the disk and [osErrno] unchanged; so nothing of the handle, its cached
    size included, reaches the disk. *)
Theorem File_Close_frame (fd : Z) (w : world) :
  open_entryb w fd = true ->
  exists w',
    File_Close fd w = Some (0, w')
    /\ io_log w' = io_log w
    /\ disk w' = disk w
    /\ osErrno w' = osErrno w
    /\ (exists f', open_files w' !! Z.to_nat fd = Some f' /\ of_inode f' = 0)
    /\ length (open_files w') = length (open_files w)
    /\ (forall i, i <> Z.to_nat fd -> open_files w' !! i = open_files w !! i).
Proof.
  unfold open_entryb. intros Hopen.
  destruct (open_files w !! Z.to_nat fd) as [f|] eqn:Hf.
  2:{ rewrite andb_false_r in Hopen. discriminate. }
  apply andb_true_iff in Hopen as [Hfd Hino].
  assert (Z.to_nat fd < length (open_files w))%nat as Hlen
    by (by apply lookup_lt_Some in Hf).
  unfold File_Close.
  assert (((0 >? fd) || (fd >? MAX_OPEN_FILES)) = false) as -> by lia.
  unfold get_open_file, put_open_file, put_open_files, get_open_files, defined, ret, bind.
  rewrite Hfd. cbv beta iota. rewrite Hf.
  assert ((of_inode f <=? 0) = false) as -> by lia.
  cbv beta iota.
  assert ((fd <? zlen (open_files w)) = true) as -> by (unfold zlen; lia).
  cbn [andb].
  eexists. split; [reflexivity|]. cbn [disk open_files osErrno io_log].
  repeat split.
  - eexists. split; [by apply list_lookup_insert_eq | done].
  - apply length_insert.
  - intros i Hi. by apply list_lookup_insert_ne.
Qed.

End Properties.

(** * Path resolution and file names *)

Section PathResolution.
Context {P : Params}.

Lemma reads_only_refl w : reads_only w w.
Proof. repeat split. by exists []. Qed.

Lemma reads_only_trans w1 w2 w3 :
  reads_only w1 w2 -> reads_only w2 w3 -> reads_only w1 w3.
Proof.
  intros (?&?&?& e1 & E1 & F1) (?&?&?& e2 & E2 & F2).
  repeat split; try congruence.
  exists (e2 ++ e1). split.
  - rewrite E2, E1. by rewrite app_assoc.
  - rewrite forallb_app. by rewrite F1, F2.
Qed.

Lemma bind_inv {A B} (m : M A) (k : A -> M B) w b w2 :
  bind m k w = Some (b, w2) ->
  exists a w1, m w = Some (a, w1) /\ k a w1 = Some (b, w2).
Proof.
  unfold bind. destruct (m w) as [[a w1]|]; [|done]. intros H. by exists a, w1.
Qed.

Lemma defined_inv {A} (o : option A) w a w' :
  defined o w = Some (a, w') -> o = Some a /\ w' = w.
Proof. unfold defined. destruct o; [|done]. intros H. by injection H as -> ->. Qed.

Lemma ret_inv {A} (a : A) w b w' : ret a w = Some (b, w') -> b = a /\ w' = w.
Proof. unfold ret. intros H. by injection H as -> ->. Qed.

Lemma Disk_Read_reads_only s w r w' : Disk_Read s w = Some (r, w') -> reads_only w w'.
Proof.
  unfold Disk_Read. destruct ((0 <=? s) && (s <? TOTAL_SECTORS));
    intros H; injection H as _ <-; repeat split; by exists [IORead s].
Qed.

Lemma find_child_loop_reads_only n :
  forall nentries idx (cached : list Z) base fname cs w r w',
    find_child_loop n nentries idx cached base fname cs w = Some (r, w') ->
    reads_only w w'.
Proof.
  induction n as [|n IH]; intros nentries idx cached base fname cs w r w' H;
    cbn [find_child_loop] in H; destruct (nentries >? 0).
  - done.
  - apply ret_inv in H as [_ ->]. apply reads_only_refl.
  - apply bind_inv in H as (sec & w1 & H1 & H).
    apply defined_inv in H1 as [_ ->].
    apply bind_inv in H as (rd & w2 & H2 & H).
    apply Disk_Read_reads_only in H2.
    destruct rd as [buf|].
    2:{ apply ret_inv in H as [_ ->]. done. }
    apply bind_inv in H as (hit & w3 & H3 & H).
    apply defined_inv in H3 as [_ ->].
    destruct hit as [child|].
    + destruct (negb _).
      * apply bind_inv in H as (rd' & w4 & H4 & H).
        apply Disk_Read_reads_only in H4.
        destruct rd'; apply ret_inv in H as [_ ->]; by eapply reads_only_trans.
      * apply ret_inv in H as [_ ->]. done.
    + eapply reads_only_trans; [exact H2|]. eapply IH; eauto.
  - apply ret_inv in H as [_ ->]. apply reads_only_refl.
Qed.

Lemma find_child_inode_reads_only parent fname cs (cb : list Z) w r w' :
  find_child_inode parent fname cs cb w = Some (r, w') -> reads_only w w'.
Proof.
  unfold find_child_inode. intros H.
  apply bind_inv in H as (base & w1 & H1 & H). apply defined_inv in H1 as [_ ->].
  apply bind_inv in H as (ty & w1 & H1 & H). apply defined_inv in H1 as [_ ->].
  destruct (negb _).
  - apply ret_inv in H as [_ ->]. apply reads_only_refl.
  - apply bind_inv in H as (ne & w1 & H1 & H). apply defined_inv in H1 as [_ ->].
    by eapply find_child_loop_reads_only.
Qed.

Lemma follow_tokens_reads_only tokens :
  forall parent child cs (cb : list Z) lf w r w',
    follow_tokens tokens parent child cs cb lf w = Some (r, w') -> reads_only w w'.
Proof.
  induction tokens as [|token rest IH]; intros parent child cs cb lf w r w' H;
    cbn [follow_tokens] in H.
  - destruct (child <? -1); apply ret_inv in H as [_ ->]; apply reads_only_refl.
  - destruct token as [|c token].
    { by eapply IH. }
    destruct (negb _).
    { apply ret_inv in H as [_ ->]. apply reads_only_refl. }
    destruct (child <? 0).
    { apply ret_inv in H as [_ ->]. apply reads_only_refl. }
    apply bind_inv in H as ([[ci cs'] cb'] & w1 & H1 & H).
    apply find_child_inode_reads_only in H1.
    eapply reads_only_trans; [exact H1|]. by eapply IH.
Qed.

Lemma follow_path_ro path w r w' :
  follow_path path w = Some (r, w') -> reads_only w w'.
Proof.
  unfold follow_path. intros H.
  destruct (c_str path) as [|c rest].
  { apply ret_inv in H as [_ ->]. apply reads_only_refl. }
  destruct (negb _).
  { apply ret_inv in H as [_ ->]. apply reads_only_refl. }
  apply bind_inv in H as (rd & w1 & H1 & H). apply Disk_Read_reads_only in H1.
  destruct rd as [cb|].
  - eapply reads_only_trans; [exact H1|]. by eapply follow_tokens_reads_only.
  - apply ret_inv in H as [_ ->]. exact H1.
Qed.

(** Property X3.  Resolving a path only reads the device: whatever the path
    and the state, [follow_path] leaves the disk, the open-file table and
    [osErrno] as they were and adds read events only to the log. *)
Theorem follow_path_reads_only path w r w' :
  follow_path path w = Some (r, w') -> reads_only w w'.
Proof. exact (follow_path_ro path w r w'). Qed.

(** ** File names *)

Lemma illegal_filename_loop_spec name : forall len,
  illegal_filename_loop name len = 0
  <-> forallb legal_char name = true /\ len + zlen name < MAX_NAME.
Proof.
  unfold zlen. induction name as [|c name IH]; intros len; cbn [illegal_filename_loop forallb length].
  - destruct (len <? MAX_NAME) eqn:E; (split; [intros H | intros [_ H]]);
      try done; try lia.
  - destruct (legal_char c); cbn [andb].
    + rewrite IH. split; intros [? ?]; split; try done; lia.
    + split; [done | intros [? _]; done].
Qed.

(** Property X4.  A name is accepted exactly when it is made of letters,
    digits, dots, dashes and underscores and is shorter than [MAX_NAME]; the
    result is 0 or 1. *)
Theorem illegal_filename_spec name :
  (illegal_filename name = 0
   <-> forallb legal_char name = true /\ zlen name < MAX_NAME)
  /\ (illegal_filename name = 0 \/ illegal_filename name = 1).
Proof.
  split.
  - unfold illegal_filename. rewrite illegal_filename_loop_spec. by rewrite Z.add_0_l.
  - unfold illegal_filename.
    assert (forall len, illegal_filename_loop name len = 0
                        \/ illegal_filename_loop name len = 1) as H; [|apply H].
    induction name as [|c name IH]; intros len; cbn [illegal_filename_loop].
    + destruct (len <? MAX_NAME); [by left | by right].
    + destruct (legal_char c); [apply IH | by right].
Qed.

End PathResolution.

(** * The open-file table *)

Section OpenFiles.
Context {P : Params}.

(** ** Descriptors *)

Lemma new_file_fd_loop_spec t : forall i,
  (new_file_fd_loop t i = -1
   /\ forallb (fun f => 0 <? of_inode f) t = true)
  \/ (exists j f,
        new_file_fd_loop t i = i + Z.of_nat j
        /\ t !! j = Some f /\ of_inode f <= 0
        /\ forallb (fun f => 0 <? of_inode f) (take j t) = true).
Proof.
  induction t as [|f t IH]; intros i; cbn [new_file_fd_loop forallb].
  - by left.
  - destruct (of_inode f <=? 0) eqn:E.
    + right. exists 0%nat, f. repeat split; try done; lia.
    + destruct (IH (i + 1)) as [[H1 H2] | (j & g & H1 & H2 & H3 & H4)].
      * left. split; [done|]. rewrite H2. assert ((0 <? of_inode f) = true) as -> by lia. done.
      * right. exists (S j), g. repeat split; try done; [lia|].
        cbn [take forallb]. rewrite H4.
        assert ((0 <? of_inode f) = true) as -> by lia. done.
Qed.

(** Property X5.  [new_file_fd] hands out the lowest entry that is free (inode
    not positive), and -1 exactly when every entry is in use; it changes
    nothing. *)
Theorem new_file_fd_spec w :
  exists r,
    new_file_fd w = Some (r, w)
    /\ ((r = -1 /\ forallb (fun f => 0 <? of_inode f) (open_files w) = true)
        \/ (exists j f,
              r = Z.of_nat j /\ open_files w !! j = Some f /\ of_inode f <= 0
              /\ forallb (fun f => 0 <? of_inode f) (take j (open_files w)) = true)).
Proof.
  eexists. split; [reflexivity|]. cbv beta.
  destruct (new_file_fd_loop_spec (open_files w) 0) as [H | (j & f & H)]; [by left|].
  right. exists j, f. by rewrite Z.add_0_l in H.
Qed.

(** Property X6.  With every entry of the table in use, [File_Open] fails with
    [E_TOO_MANY_OPEN_FILES] before it looks at the path: no device call is
    made and nothing but [osErrno] changes. *)
Theorem File_Open_table_full file w :
  forallb (fun f => 0 <? of_inode f) (open_files w) = true ->
  File_Open file w = Some (-1, with_errno w E_TOO_MANY_OPEN_FILES).
Proof.
  intros Hfull. unfold File_Open.
  destruct (new_file_fd_loop_spec (open_files w) 0) as [[H _] | (j & f & _ & Hj & Hf & _)].
  - erewrite bind_run; [|reflexivity]. cbv beta. rewrite H. reflexivity.
  - rewrite forallb_forall in Hfull.
    assert (In f (open_files w)) as Hin
      by (apply list_elem_of_In; eapply list_elem_of_lookup_2; eauto).
    specialize (Hfull f Hin). lia.
Qed.

Lemma has_inode_with_handle w fd f f' inode :
  open_files w !! Z.to_nat fd = Some f -> of_inode f' = of_inode f ->
  has_inode (with_handle w fd f') inode = has_inode w inode.
Proof.
  intros Hf Hino. unfold has_inode, with_handle. cbn [open_files].
  generalize dependent (Z.to_nat fd). generalize (open_files w).
  induction l as [|g l IH]; intros [|n] Hn; try done; cbn in *.
  - injection Hn as ->. by rewrite Hino.
  - by rewrite IH.
Qed.

Lemma is_file_open_run w inode :
  is_file_open inode w = Some (if has_inode w inode then 1 else 0, w).
Proof. reflexivity. Qed.

Lemma get_open_file_run w fd f :
  0 <= fd < MAX_OPEN_FILES -> open_files w !! Z.to_nat fd = Some f ->
  get_open_file fd w = Some (f, w).
Proof.
  intros Hfd Hf. unfold get_open_file.
  erewrite bind_run; [|reflexivity]. cbv beta.
  assert (((0 <=? fd) && (fd <? MAX_OPEN_FILES)) = true) as -> by lia.
  by apply defined_run.
Qed.

Lemma put_open_file_run w fd f f' :
  0 <= fd < MAX_OPEN_FILES -> open_files w !! Z.to_nat fd = Some f ->
  put_open_file fd f' w = Some (tt, with_handle w fd f').
Proof.
  intros Hfd Hf. unfold put_open_file.
  erewrite bind_run; [|reflexivity]. cbv beta.
  assert (Z.to_nat fd < length (open_files w))%nat by (by apply lookup_lt_Some in Hf).
  assert (((0 <=? fd) && (fd <? MAX_OPEN_FILES) && (fd <? zlen (open_files w))) = true)
    as -> by (unfold zlen; lia).
  reflexivity.
Qed.

(** ** Seeking *)

Lemma File_Seek_run fd offset w f :
  has_inode w fd = true -> 0 <= fd < MAX_OPEN_FILES ->
  open_files w !! Z.to_nat fd = Some f ->
  File_Seek fd offset w
  = Some (if (0 <=? offset) && (offset <=? of_size f)
          then (0, with_handle w fd (OpenFile (of_inode f) (of_size f) offset))
          else (-1, with_errno w E_SEEK_OUT_OF_BOUNDS)).
Proof.
  intros Hgate Hfd Hf. unfold File_Seek.
  erewrite bind_run; [|apply is_file_open_run]. rewrite Hgate. cbn [Z.eqb].
  erewrite bind_run; [|by apply get_open_file_run]. cbv beta.
  destruct ((0 <=? offset) && (offset <=? of_size f)) eqn:E.
  - assert (((offset >? of_size f) || (offset <? 0)) = false) as -> by lia.
    erewrite bind_run; [|by eapply put_open_file_run]. reflexivity.
  - assert (((offset >? of_size f) || (offset <? 0)) = true) as -> by lia.
    reflexivity.
Qed.

(** Property X7.  Once the descriptor test of [File_Seek] passes, the call
    succeeds exactly for [0 <= offset <= size], the end of the file included,
    and then changes the cursor of the entry and nothing else; otherwise it
    fails with [E_SEEK_OUT_OF_BOUNDS] and leaves the table alone.  The device
    is not used. *)
Theorem File_Seek_spec fd offset w f :
  has_inode w fd = true -> 0 <= fd < MAX_OPEN_FILES ->
  open_files w !! Z.to_nat fd = Some f ->
  File_Seek fd offset w
  = Some (if (0 <=? offset) && (offset <=? of_size f)
          then (0, with_handle w fd (OpenFile (of_inode f) (of_size f) offset))
          else (-1, with_errno w E_SEEK_OUT_OF_BOUNDS)).
Proof. exact (File_Seek_run fd offset w f). Qed.

(** Property X8.  Setting the cursor at the end of the file and reading gives
    0 bytes, on every call and whatever the count asked for: the read leaves
    the buffer and the whole state as they are. *)
Theorem seek_to_end_then_read fd w f :
  has_inode w fd = true -> 0 <= fd < MAX_OPEN_FILES ->
  open_files w !! Z.to_nat fd = Some f -> 0 <= of_size f ->
  exists w1,
    File_Seek fd (of_size f) w = Some (0, w1)
    /\ forall buffer size, File_Read fd buffer size w1 = Some ((0, buffer), w1).
Proof.
  intros Hgate Hfd Hf Hsize.
  rewrite (File_Seek_run fd (of_size f) w f Hgate Hfd Hf).
  assert (((0 <=? of_size f) && (of_size f <=? of_size f)) = true) as -> by lia.
  eexists. split; [reflexivity|]. intros buffer size.
  set (f' := OpenFile (of_inode f) (of_size f) (of_size f)).
  unfold File_Read.
  erewrite bind_run; [|apply is_file_open_run].
  rewrite (has_inode_with_handle w fd f f' fd Hf eq_refl), Hgate. cbn [Z.eqb].
  erewrite bind_run.
  2:{ apply (get_open_file_run _ fd f'); [done|]. cbn [with_handle open_files].
      apply list_lookup_insert_eq. by apply lookup_lt_Some in Hf. }
  cbv beta. cbn [of_pos of_size f']. by rewrite Z.eqb_refl.
Qed.

(** ** Writing *)


(** ** Closing *)

Lemma File_Close_bad fd w :
  (fd < 0 \/ MAX_OPEN_FILES < fd
   \/ (0 <= fd < MAX_OPEN_FILES
       /\ exists f, open_files w !! Z.to_nat fd = Some f /\ of_inode f <= 0)) ->
  File_Close fd w = Some (-1, with_errno w E_BAD_FD).
Proof.
  intros H. unfold File_Close.
  destruct ((0 >? fd) || (fd >? MAX_OPEN_FILES)) eqn:E; [reflexivity|].
  destruct H as [H | [H | (Hfd & f & Hf & Hino)]]; try lia.
  erewrite bind_run; [|by apply get_open_file_run]. cbv beta.
  assert ((of_inode f <=? 0) = true) as -> by lia. reflexivity.
Qed.

(** Property X10.  [File_Close] fails with [E_BAD_FD], and changes nothing
    else, for a descriptor that is negative, beyond [MAX_OPEN_FILES], or whose
    entry is free. *)
Theorem File_Close_rejects fd w :
  (fd < 0 \/ MAX_OPEN_FILES < fd
   \/ (0 <= fd < MAX_OPEN_FILES
       /\ exists f, open_files w !! Z.to_nat fd = Some f /\ of_inode f <= 0)) ->
  File_Close fd w = Some (-1, with_errno w E_BAD_FD).
Proof. exact (File_Close_bad fd w). Qed.

(** Property X11.  Closing a descriptor twice: the first call succeeds, the
    second fails with [E_BAD_FD] and changes nothing else. *)
Theorem File_Close_twice fd w :
  open_entryb w fd = true ->
  exists w1,
    File_Close fd w = Some (0, w1)
    /\ File_Close fd w1 = Some (-1, with_errno w1 E_BAD_FD).
Proof.
  unfold open_entryb. intros Hopen.
  destruct (open_files w !! Z.to_nat fd) as [f|] eqn:Hf.
  2:{ rewrite andb_false_r in Hopen. discriminate. }
  apply andb_true_iff in Hopen as [Hfd Hino].
  assert (0 <= fd < MAX_OPEN_FILES) as Hfd' by lia.
  exists (with_handle w fd (OpenFile 0 (of_size f) (of_pos f))). split.
  - unfold File_Close.
    assert (((0 >? fd) || (fd >? MAX_OPEN_FILES)) = false) as -> by lia.
    erewrite bind_run; [|by apply get_open_file_run]. cbv beta.
    assert ((of_inode f <=? 0) = false) as -> by lia.
    erewrite bind_run; [|by eapply put_open_file_run]. reflexivity.
  - apply File_Close_bad. right. right. split; [done|].
    eexists. split.
    + cbn [with_handle open_files]. apply list_lookup_insert_eq.
      by apply lookup_lt_Some in Hf.
    + cbn. lia.
Qed.

End OpenFiles.

(** * Operations on paths *)

Section PathOperations.
Context {P : Params}.

Lemma Disk_Read_run w s (sec : list Z) :
  0 <= s < TOTAL_SECTORS -> disk w !! Z.to_nat s = Some sec ->
  Disk_Read s w = Some (Some sec, with_read w s).
Proof. apply Disk_Read_ok. Qed.

(** ** Opening *)

Lemma File_Open_run file w w1 p c nm fd f0 (ib : list Z) base ty n :
  new_file_fd_loop (open_files w) 0 = fd -> 0 <= fd < MAX_OPEN_FILES ->
  open_files w !! Z.to_nat fd = Some f0 ->
  follow_path file w = Some (Followed p (Some c) nm, w1) -> 0 <= c ->
  0 <= inode_sector_of c < TOTAL_SECTORS ->
  disk w !! Z.to_nat (inode_sector_of c) = Some ib ->
  inode_base_checked c (inode_sector_of c) = Some base ->
  inode_type ib base = Some ty -> inode_size ib base = Some n ->
  File_Open file w
  = Some (if ty =? 0
          then (fd, with_handle (with_read w1 (inode_sector_of c)) fd (OpenFile c n 0))
          else (-1, with_errno (with_read w1 (inode_sector_of c)) E_GENERAL)).
Proof.
  intros Hfd Hfdr Hf0 Hpath Hc Hs Hib Hbase Hty Hn.
  destruct (follow_path_ro _ _ _ _ Hpath) as (Hd & Ho & _).
  unfold File_Open.
  erewrite bind_run; [|reflexivity]. cbv beta. rewrite Hfd.
  assert ((fd <? 0) = false) as -> by lia.
  erewrite bind_run; [|exact Hpath]. cbv beta. cbn [fp_last_inode].
  erewrite bind_run; [|by apply defined_run]. cbv beta.
  assert ((c >=? 0) = true) as -> by lia.
  erewrite bind_run; [|apply Disk_Read_run; [done | by rewrite Hd]]. cbv beta iota.
  erewrite bind_run; [|apply defined_run, Hbase]. cbv beta.
  erewrite bind_run; [|apply defined_run, Hty]. cbv beta.
  destruct (ty =? 0); cbn [negb]; [|reflexivity].
  erewrite bind_run; [|apply defined_run, Hn]. cbv beta.
  erewrite bind_run; [|eapply put_open_file_run; [done|]; cbn [with_read open_files];
                        rewrite Ho; exact Hf0].
  reflexivity.
Qed.

(** Property X12.  When a free descriptor exists and the path resolves to an
    inode, the type of the inode decides: a regular file is opened on the
    lowest free descriptor, with the size found in the inode and the cursor at
    0; anything else is refused with [E_GENERAL].  The disk is only read. *)
Theorem File_Open_resolved file w w1 p c nm fd f0 (ib : list Z) base ty n :
  new_file_fd_loop (open_files w) 0 = fd -> 0 <= fd < MAX_OPEN_FILES ->
  open_files w !! Z.to_nat fd = Some f0 ->
  follow_path file w = Some (Followed p (Some c) nm, w1) -> 0 <= c ->
  0 <= inode_sector_of c < TOTAL_SECTORS ->
  disk w !! Z.to_nat (inode_sector_of c) = Some ib ->
  inode_base_checked c (inode_sector_of c) = Some base ->
  inode_type ib base = Some ty -> inode_size ib base = Some n ->
  File_Open file w
  = Some (if ty =? 0
          then (fd, with_handle (with_read w1 (inode_sector_of c)) fd (OpenFile c n 0))
          else (-1, with_errno (with_read w1 (inode_sector_of c)) E_GENERAL)).
Proof. exact (File_Open_run file w w1 p c nm fd f0 ib base ty n). Qed.

(** ** Relative paths *)

Lemma follow_path_relative path w :
  head (c_str path) <> Some 47 ->
  follow_path path w = Some (Followed (-1) None None, w).
Proof.
  intros H. unfold follow_path. destruct (c_str path) as [|c rest]; [done|].
  cbn in H. destruct (Z.eqb_spec c 47) as [->|Hne]; [done|]. reflexivity.
Qed.

(** Property X13.  A path that does not start with a slash is turned down by
    every operation that takes a path and checks the result of [follow_path]:
    each fails with its own error, makes no device call and changes nothing
    but [osErrno]. *)
Theorem relative_path_rejected path w :
  head (c_str path) <> Some 47 ->
  (forall type, create_file_or_directory type path w = Some (-1, with_errno w E_CREATE))
  /\ File_Unlink path w = Some (-1, with_errno w E_NO_SUCH_FILE)
  /\ Dir_Unlink path w = Some (-1, with_errno w E_NO_SUCH_DIR)
  /\ Dir_Size path w = Some (-1, with_errno w E_NO_SUCH_DIR)
  /\ (forall buffer size,
        Dir_Read path buffer size w = Some ((-1, buffer), with_errno w E_NO_SUCH_DIR)).
Proof.
  intros H. pose proof (follow_path_relative path w H) as Hp.
  repeat split.
  - intros type. unfold create_file_or_directory. erewrite bind_run; [|exact Hp]. reflexivity.
  - unfold File_Unlink. erewrite bind_run; [|exact Hp]. reflexivity.
  - unfold Dir_Unlink. destruct (decide (c_str path = [47])) as [E|E].
    { rewrite E in H. done. }
    erewrite bind_run; [|exact Hp]. reflexivity.
  - unfold Dir_Size. erewrite bind_run; [|exact Hp]. reflexivity.
  - intros buffer size. unfold Dir_Read. erewrite bind_run; [|exact Hp]. reflexivity.
Qed.

(** ** Creating *)

(** Property X14.  Creating fails with [E_CREATE] when the path cannot be
    followed and when its last component exists already; in both cases the
    disk has only been read. *)
Theorem create_refused type pathname w fp w1 :
  follow_path pathname w = Some (fp, w1) ->
  (fp_parent fp < 0 \/ exists c, fp_last_inode fp = Some c /\ 0 <= c) ->
  create_file_or_directory type pathname w = Some (-1, with_errno w1 E_CREATE)
  /\ reads_only w w1.
Proof.
  intros Hp H. split; [|by eapply follow_path_ro].
  unfold create_file_or_directory. erewrite bind_run; [|exact Hp]. cbv beta.
  destruct (fp_parent fp >=? 0) eqn:E; [|reflexivity].
  destruct H as [H | (c & Hc & Hc0)]; [lia|].
  erewrite bind_run; [|apply defined_run, Hc]. cbv beta.
  assert ((c >=? 0) = true) as -> by lia. reflexivity.
Qed.

(** ** Removing *)

Lemma remove_inode_refusal type parent child w (ib : list Z) ty n :
  0 <= inode_sector_of child < TOTAL_SECTORS ->
  disk w !! Z.to_nat (inode_sector_of child) = Some ib ->
  inode_type ib (inode_base_mod child) = Some ty ->
  inode_size ib (inode_base_mod child) = Some n ->
  ty <> type \/ 0 < n ->
  remove_inode type parent child w
  = Some (if negb (ty =? type) then -3 else if ty =? 1 then -2 else -1,
          with_read w (inode_sector_of child)).
Proof.
  intros Hs Hib Hty Hn H. unfold remove_inode.
  erewrite bind_run; [|by apply Disk_Read_run]. cbv beta iota.
  erewrite bind_run; [|apply defined_run, Hty]. cbv beta.
  erewrite bind_run; [|apply defined_run, Hn]. cbv beta.
  destruct (ty =? type) eqn:E; cbn [negb]; [|reflexivity].
  assert ((n >? 0) = true) as -> by lia.
  destruct (ty =? 1); reflexivity.
Qed.

(** Property X15.  [remove_inode] gives up after reading the child's inode,
    with nothing written, when the child is not of the expected type (-3) and
    when it still has a size: -2 for a directory, -1 for a file. *)
Theorem remove_inode_refused type parent child w (ib : list Z) ty n :
  0 <= inode_sector_of child < TOTAL_SECTORS ->
  disk w !! Z.to_nat (inode_sector_of child) = Some ib ->
  inode_type ib (inode_base_mod child) = Some ty ->
  inode_size ib (inode_base_mod child) = Some n ->
  ty <> type \/ 0 < n ->
  remove_inode type parent child w
  = Some (if negb (ty =? type) then -3 else if ty =? 1 then -2 else -1,
          with_read w (inode_sector_of child)).
Proof. exact (remove_inode_refusal type parent child w ib ty n). Qed.


(** Property X17.  [File_Unlink] refuses a path that cannot be followed
    ([E_NO_SUCH_FILE]) and a file that some entry of the open-file table holds
    ([E_FILE_IN_USE]); in both cases the disk has only been read. *)
Theorem File_Unlink_refused file w fp w1 :
  follow_path file w = Some (fp, w1) ->
  (fp_parent fp < 0 ->
     File_Unlink file w = Some (-1, with_errno w1 E_NO_SUCH_FILE))
  /\ (forall c, 0 <= fp_parent fp -> fp_last_inode fp = Some c ->
        has_inode w c = true ->
        File_Unlink file w = Some (-1, with_errno w1 E_FILE_IN_USE))
  /\ reads_only w w1.
Proof.
  intros Hpath. pose proof (follow_path_ro _ _ _ _ Hpath) as Hro.
  destruct Hro as (Hd & Ho & He & Hl).
  split; [|split; [|by repeat split]].
  - intros Hneg. unfold File_Unlink. erewrite bind_run; [|exact Hpath]. cbv beta.
    assert ((fp_parent fp <? 0) = true) as -> by lia. reflexivity.
  - intros c Hp Hc Hopen. unfold File_Unlink.
    erewrite bind_run; [|exact Hpath]. cbv beta.
    assert ((fp_parent fp <? 0) = false) as -> by lia.
    erewrite bind_run; [|apply defined_run, Hc]. cbv beta.
    erewrite bind_run; [|apply is_file_open_run].
    unfold has_inode in *. rewrite Ho, Hopen. reflexivity.
Qed.

(** ** The size of a directory *)

(** Property X18.  [Dir_Size] returns the count of entry slots times
    [sizeof_dirent_t], and that number of bytes is a capacity [Dir_Read]
    accepts: with it, [Dir_Read] returns the count of slots. *)
Theorem Dir_Size_is_enough (path buffer : list Z) (w w1 : world) (p c n : Z)
    (nm : option (list Z)) (ib : list Z) :
  sizeof_dirent_t <= SECTOR_SIZE < 2 ^ 31 ->
  follow_path path w = Some (Followed p (Some c) nm, w1) -> 0 <= p ->
  0 <= inode_sector_of c < TOTAL_SECTORS ->
  disk w1 !! Z.to_nat (inode_sector_of c) = Some ib ->
  inode_size ib (inode_base_mod c) = Some n ->
  0 <= n -> n * sizeof_dirent_t < 2 ^ 31 ->
  entry_sectors_ok (disk w1) ib (inode_base_mod c) n ->
  n * sizeof_dirent_t <= zlen buffer ->
  Dir_Size path w = Some (n * sizeof_dirent_t, with_read w1 (inode_sector_of c))
  /\ exists buffer' w2,
       Dir_Read path buffer (n * sizeof_dirent_t) w = Some ((n, buffer'), w2).
Proof.
  intros HSS Hpath Hp Hs Hib Hn Hn0 Hn31 Hdir Hbuf.
  assert (sizeof_dirent_t = 20) as H20 by reflexivity.
  split.
  - unfold Dir_Size.
    erewrite bind_run; [|exact Hpath]. cbv beta. cbn [fp_parent fp_last_inode].
    assert ((p <? 0) = false) as -> by lia.
    erewrite bind_run; [|by apply defined_run]. cbv beta.
    erewrite bind_run; [|by apply Disk_Read_run]. cbv beta.
    erewrite bind_run; [|by apply defined_run]. cbv beta.
    erewrite bind_run; [|apply defined_run, Hn]. cbv beta.
    rewrite (to_size_t_small n), to_int_small by lia. reflexivity.
  - destruct (Dir_Read_run path buffer (n * sizeof_dirent_t)
                w w1 p c n nm ib HSS Hpath Hp Hs Hib Hn Hn0 Hdir ltac:(lia) Hbuf)
      as ([r buffer'] & w2 & Hrun & _ & _ & Hres).
    rewrite Z.ltb_irrefl in Hres. destruct Hres as (Hr & _). cbn in Hr. subst r.
    by exists buffer', w2.
Qed.

End PathOperations.

(** * Allocating and freeing bits *)

Section BitmapAllocation.
Context {P : Params}.

Lemma bits_below (d : list sector) start v n :
  forallb (bit_isb d start v) (map Z.of_nat (seq 0 n)) = true ->
  forall q, 0 <= q < Z.of_nat n -> bitmap_bit d start q = Some v.
Proof.
  intros H q Hq. rewrite forallb_forall in H.
  assert (bit_isb d start v q = true) as Hb.
  { apply H. apply in_map_iff. exists (Z.to_nat q). split; [lia|]. apply in_seq. lia. }
  unfold bit_isb in Hb. destruct (bitmap_bit d start q) as [b|]; [|done].
  f_equal. by apply Bool.eqb_prop.
Qed.

Lemma first_zero_run_on (start num nbits pos : Z) (w : world) :
  0 < SECTOR_SIZE ->
  (forall i, 0 <= i < num ->
     exists sec : list Z,
       disk w !! Z.to_nat (start + i) = Some sec /\ zlen sec = SECTOR_SIZE
       /\ (forall j b, sec !! j = Some b -> 0 <= b < 256)) ->
  0 <= start -> start + num <= TOTAL_SECTORS ->
  0 <= pos < num * SECTOR_SIZE * 8 ->
  (forall q, 0 <= q < pos -> bitmap_bit (disk w) start q = Some true) ->
  bitmap_bit (disk w) start pos = Some false ->
  exists (sec0 : list Z) b log,
    disk w !! Z.to_nat (start + pos / (SECTOR_SIZE * 8)) = Some sec0
    /\ sec0 !! Z.to_nat (pos / 8 mod SECTOR_SIZE) = Some b
    /\ 0 <= b < 256 /\ msb_bit b (pos mod 8) = false
    /\ bitmap_first_unused start num nbits w
       = Some (if pos <? nbits then pos else -1,
               World (<[Z.to_nat (start + pos / (SECTOR_SIZE * 8)) :=
                         <[Z.to_nat (pos / 8 mod SECTOR_SIZE) :=
                            Z.lor b (nth (Z.to_nat (pos mod 8)) scan_bits 0)]> sec0]>
                        (disk w))
                     (open_files w) (osErrno w)
                     (IOWrite (start + pos / (SECTOR_SIZE * 8)) :: log)).
Proof.
  intros HS Hbm Hstart Hend Hpos Hones Hzero.
  destruct (pos_decompose pos HS ltac:(lia)) as (Epos & Hi0 & Hj & Hk).
  set (i0 := pos / (SECTOR_SIZE * 8)) in *.
  set (j := pos / 8 mod SECTOR_SIZE) in *.
  set (k := pos mod 8) in *.
  assert (i0 < num) as Hi0n by nia.
  assert (0 <= i0 < num) as Hi0r by lia.
  destruct (Hbm i0 Hi0r) as (sec0 & Hsec0 & Hlen0 & Hbytes0).
  destruct (sec0 !! Z.to_nat j) as [b|] eqn:Hb.
  2:{ apply lookup_ge_None in Hb. unfold zlen in Hlen0. lia. }
  assert (forall k', 0 <= k' < 8 ->
            bitmap_bit (disk w) start ((i0 * SECTOR_SIZE + j) * 8 + k')
            = Some (msb_bit b k')) as Hbyte.
  { intros k' Hk'. rewrite bitmap_bit_coords by done. rewrite Hsec0. cbn [mbind option_bind].
    rewrite Hb. done. }
  assert (msb_bit b k = false) as Hclear.
  { specialize (Hbyte k Hk). rewrite <- Epos, Hzero in Hbyte. congruence. }
  destruct (first_clear_bit_found b k (Hbytes0 _ _ Hb) Hk Hclear) as [Hb255 Hfirst].
  { intros k' Hk'. specialize (Hbyte k' ltac:(lia)).
    rewrite Hones in Hbyte by nia. congruence. }
  assert (forall i' j', 0 <= i' -> 0 <= j' < SECTOR_SIZE ->
            (i' * SECTOR_SIZE + j') * 8 + 7 < pos ->
            forall sec, disk w !! Z.to_nat (start + i') = Some sec ->
              (forall jj bb, sec !! jj = Some bb -> 0 <= bb < 256) ->
              zlen sec = SECTOR_SIZE ->
              sec !! Z.to_nat j' = Some 255) as Hff.
  { intros i' j' Hi' Hj' Hlt sec Hsec Hbytes Hlen.
    destruct (sec !! Z.to_nat j') as [b'|] eqn:Hb'.
    2:{ apply lookup_ge_None in Hb'. unfold zlen in Hlen. lia. }
    f_equal. apply byte_all_set; [eauto|].
    intros k' Hk'.
    assert (0 <= (i' * SECTOR_SIZE + j') * 8 + k' < pos) as Hrange by nia.
    pose proof (Hones _ Hrange) as Hq.
    rewrite bitmap_bit_coords in Hq by done. rewrite Hsec in Hq. cbn [mbind option_bind] in Hq.
    rewrite Hb' in Hq. cbn [mbind option_bind] in Hq. congruence. }
  assert (first_clear_in_sector (Z.to_nat SECTOR_SIZE) 0 sec0 = Some (Some (j, k)))
    as Hscan.
  { apply (first_clear_in_sector_find _ 0 sec0 j b k); try done; try lia.
    intros j' Hj'. apply (Hff i0 j'); try done; try lia; try nia. }
  assert (start + i0 < TOTAL_SECTORS) as Hin by lia.
  assert (disk w !! Z.to_nat (i0 + start) = Some sec0) as Hsec0' by (by rewrite Z.add_comm).
  assert (0 <= j) as Hj0 by lia.
  assert (0 <= 0 <= i0) as H00 by lia.
  assert (i0 < 0 + Z.of_nat (Z.to_nat num)) as Hfuel by lia.
  destruct (bitmap_first_unused_loop_find start nbits i0 j k b sec0 (disk w)
              Hstart Hin HS Hsec0' Hlen0 Hscan
              Hj0 Hb (Z.to_nat num) 0 w H00 Hfuel eq_refl)
    as [log Hrun].
  { intros i' Hi'.
    assert (0 <= i' < num) as Hi'r by lia.
    destruct (Hbm i' Hi'r) as (sec & Hsec & Hlen & Hbytes).
    exists sec. split; [by rewrite Z.add_comm|].
    apply first_clear_in_sector_skip; [lia|].
    intros j' Hj'. apply (Hff i' j'); try done; try lia; try nia. }
  rewrite <- Epos in Hrun. rewrite (Z.add_comm i0 start) in Hrun.
  exists sec0, b, log. repeat split; try done; try (by apply (Hbytes0 _ _ Hb)).
Qed.

Lemma first_zero_run (start num nbits pos : Z) (w : world) :
  0 < SECTOR_SIZE -> wf_diskb (disk w) = true ->
  0 <= start -> start + num <= TOTAL_SECTORS ->
  0 <= pos < num * SECTOR_SIZE * 8 ->
  (forall q, 0 <= q < pos -> bitmap_bit (disk w) start q = Some true) ->
  bitmap_bit (disk w) start pos = Some false ->
  exists (sec0 : list Z) b log,
    disk w !! Z.to_nat (start + pos / (SECTOR_SIZE * 8)) = Some sec0
    /\ sec0 !! Z.to_nat (pos / 8 mod SECTOR_SIZE) = Some b
    /\ 0 <= b < 256 /\ msb_bit b (pos mod 8) = false
    /\ bitmap_first_unused start num nbits w
       = Some (if pos <? nbits then pos else -1,
               World (<[Z.to_nat (start + pos / (SECTOR_SIZE * 8)) :=
                         <[Z.to_nat (pos / 8 mod SECTOR_SIZE) :=
                            Z.lor b (nth (Z.to_nat (pos mod 8)) scan_bits 0)]> sec0]>
                        (disk w))
                     (open_files w) (osErrno w)
                     (IOWrite (start + pos / (SECTOR_SIZE * 8)) :: log)).
Proof.
  intros HS Hwf Hstart Hend Hpos Hones Hzero.
  apply first_zero_run_on; try done.
  intros i Hi. apply wf_disk_lookup; [done | lia].
Qed.

(** Replacing, in the byte that holds bit [pos], bit [pos mod 8] by [v] and
    keeping the other seven changes bit [pos] of the bitmap and no other. *)
Lemma bitmap_bit_update (d : list sector) (start pos : Z) (sec0 : list Z) (b b' : Z)
    (v : bool) :
  0 < SECTOR_SIZE -> 0 <= start -> 0 <= pos ->
  d !! Z.to_nat (start + pos / (SECTOR_SIZE * 8)) = Some sec0 ->
  sec0 !! Z.to_nat (pos / 8 mod SECTOR_SIZE) = Some b ->
  (forall k', 0 <= k' < 8 ->
     msb_bit b' k' = if pos mod 8 =? k' then v else msb_bit b k') ->
  let d' := <[Z.to_nat (start + pos / (SECTOR_SIZE * 8)) :=
               <[Z.to_nat (pos / 8 mod SECTOR_SIZE) := b']> sec0]> d in
  bitmap_bit d' start pos = Some v
  /\ (forall q, 0 <= q -> q <> pos -> bitmap_bit d' start q = bitmap_bit d start q)
  /\ (forall s, s <> Z.to_nat (start + pos / (SECTOR_SIZE * 8)) -> d' !! s = d !! s).
Proof.
  intros HS Hstart Hpos Hsec0 Hb Hbits d'. subst d'.
  destruct (pos_decompose pos HS Hpos) as (Epos & Hi0 & Hj & Hk).
  set (i0 := pos / (SECTOR_SIZE * 8)) in *.
  set (j := pos / 8 mod SECTOR_SIZE) in *.
  set (k := pos mod 8) in *.
  assert (Z.to_nat (start + i0) < length d)%nat as HltS
    by (by apply lookup_lt_Some in Hsec0).
  assert (Z.to_nat j < length sec0)%nat as HltJ by (by apply lookup_lt_Some in Hb).
  repeat split.
  - rewrite Epos, bitmap_bit_coords by done.
    rewrite list_lookup_insert_eq by done. cbn [mbind option_bind].
    rewrite list_lookup_insert_eq by done. cbn [mbind option_bind].
    rewrite Hbits by done. by rewrite Z.eqb_refl.
  - intros q Hq Hne.
    destruct (pos_decompose q HS Hq) as (Eq & Hqi & Hqj & Hqk).
    set (qi := q / (SECTOR_SIZE * 8)) in *.
    set (qj := q / 8 mod SECTOR_SIZE) in *.
    set (qk := q mod 8) in *.
    rewrite Eq, !bitmap_bit_coords by done.
    destruct (Z.eq_dec qi i0) as [Ei|Ei].
    2:{ rewrite list_lookup_insert_ne by lia. done. }
    rewrite Ei, list_lookup_insert_eq, Hsec0 by done. cbn [mbind option_bind].
    destruct (Z.eq_dec qj j) as [Ej|Ej].
    2:{ rewrite list_lookup_insert_ne by lia. done. }
    rewrite Ej, list_lookup_insert_eq, Hb by done. cbn [mbind option_bind].
    rewrite Hbits by done.
    assert ((k =? qk) = false) as -> by (subst qi qj; lia). done.
  - intros s Hs. rewrite list_lookup_insert_ne by lia. done.
Qed.

(** Property X19.  When the first zero bit of the bitmap lies at [pos] below
    [nbits], [bitmap_first_unused] returns [pos] and sets that bit and no
    other (the bitmap lies on the disk and its bit positions fit in an [int]).
    *)
Theorem bitmap_first_unused_allocates (start num nbits pos : Z) (w : world) :
  0 < SECTOR_SIZE -> wf_diskb (disk w) = true ->
  0 <= start -> start + num <= TOTAL_SECTORS ->
  num * SECTOR_SIZE * 8 < 2 ^ 31 ->
  0 <= pos < num * SECTOR_SIZE * 8 ->
  (forall q, 0 <= q < pos -> bitmap_bit (disk w) start q = Some true) ->
  bitmap_bit (disk w) start pos = Some false ->
  pos < nbits ->
  exists w',
    bitmap_first_unused start num nbits w = Some (pos, w')
    /\ bitmap_bit (disk w') start pos = Some true
    /\ (forall q, 0 <= q -> q <> pos ->
          bitmap_bit (disk w') start q = bitmap_bit (disk w) start q)
    /\ (forall s, s <> Z.to_nat (start + pos / (SECTOR_SIZE * 8)) ->
          disk w' !! s = disk w !! s)
    /\ open_files w' = open_files w /\ osErrno w' = osErrno w.
Proof.
  intros HS Hwf Hstart Hend _ Hpos Hones Hzero Hlt.
  destruct (first_zero_run start num nbits pos w HS Hwf Hstart Hend Hpos Hones Hzero)
    as (sec0 & b & log & Hsec0 & Hb & Hb256 & Hclear & Hrun).
  assert ((pos <? nbits) = true) as Hc by lia. rewrite Hc in Hrun.
  eexists. split; [exact Hrun|]. cbn [disk open_files osErrno].
  assert (0 <= pos mod 8 < 8) as Hk by (apply Z.mod_pos_bound; lia).
  destruct (bitmap_bit_update (disk w) start pos sec0 b
              (Z.lor b (nth (Z.to_nat (pos mod 8)) scan_bits 0)) true
              HS Hstart ltac:(lia) Hsec0 Hb) as (H1 & H2 & H3).
  { intros k' Hk'. by apply msb_bit_lor. }
  repeat split; done.
Qed.

Lemma bitmap_first_unused_loop_skip (start nbits : Z) :
  forall n i w,
    0 <= i -> 0 <= start -> i + Z.of_nat n + start <= TOTAL_SECTORS ->
    (forall i', i <= i' < i + Z.of_nat n ->
       exists sec, disk w !! Z.to_nat (i' + start) = Some sec
         /\ first_clear_in_sector (Z.to_nat SECTOR_SIZE) 0 sec = Some None) ->
    exists w', bitmap_first_unused_loop n i start nbits w = Some (-1, w')
               /\ reads_only w w'.
Proof.
  induction n as [|n IH]; intros i w Hi Hstart Hend Hskip.
  - exists w. split; [done | apply reads_only_refl].
  - cbn [bitmap_first_unused_loop].
    destruct (Hskip i ltac:(lia)) as (sec & Hsec & Hnone).
    erewrite bind_run; [|apply Disk_Read_ok; [lia | done]].
    cbv beta iota.
    erewrite bind_run; [|apply defined_run, Hnone].
    cbv beta iota.
    destruct (IH (i + 1) (World (disk w) (open_files w) (osErrno w)
                            (IORead (i + start) :: io_log w))) as (w' & Hrun & Hro);
      [lia | lia | lia | intros i' Hi'; apply Hskip; lia |].
    exists w'. split; [done|].
    eapply reads_only_trans; [|exact Hro].
    repeat split. by exists [IORead (i + start)].
Qed.

(** Property X20.  When every bit of the [num] sectors of the bitmap is set,
    [bitmap_first_unused] returns -1 and has only read the device. *)
Theorem bitmap_first_unused_full (start num nbits : Z) (w : world) :
  0 < SECTOR_SIZE -> wf_diskb (disk w) = true ->
  0 <= start -> 0 <= num -> start + num <= TOTAL_SECTORS ->
  (forall q, 0 <= q < num * SECTOR_SIZE * 8 ->
     bitmap_bit (disk w) start q = Some true) ->
  exists w', bitmap_first_unused start num nbits w = Some (-1, w')
             /\ reads_only w w'.
Proof.
  intros HS Hwf Hstart Hnum Hend Hones.
  apply bitmap_first_unused_loop_skip; try lia.
  intros i' Hi'.
  assert (0 <= start + i' < TOTAL_SECTORS) as Hin by lia.
  destruct (wf_disk_lookup (disk w) (start + i') Hwf Hin)
    as (sec & Hsec & Hlen & Hbytes).
  exists sec. split; [by rewrite Z.add_comm|].
  apply first_clear_in_sector_skip; [lia|].
  intros j' Hj'.
  destruct (sec !! Z.to_nat j') as [b'|] eqn:Hb'.
  2:{ apply lookup_ge_None in Hb'. unfold zlen in Hlen. lia. }
  f_equal. apply byte_all_set; [eauto|].
  intros k' Hk'.
  assert (0 <= (i' * SECTOR_SIZE + j') * 8 + k' < num * SECTOR_SIZE * 8) as Hrange by nia.
  pose proof (Hones _ Hrange) as Hq.
  rewrite bitmap_bit_coords in Hq by (done || lia). rewrite Hsec in Hq.
  cbn [mbind option_bind] in Hq.
  rewrite Hb' in Hq. cbn [mbind option_bind] in Hq. congruence.
Qed.

Lemma Disk_Write_frame s (buf : list Z) w r w' :
  Disk_Write s buf w = Some (r, w') ->
  open_files w' = open_files w /\ osErrno w' = osErrno w
  /\ length (disk w') = length (disk w)
  /\ (forall t, t <> Z.to_nat s -> disk w' !! t = disk w !! t)
  /\ (0 <= s \/ disk w' = disk w).
Proof.
  unfold Disk_Write. destruct (negb _); [done|].
  destruct ((0 <=? s) && (s <? zlen (disk w)) && (s <? TOTAL_SECTORS)) eqn:E;
    intros H; injection H as <- <-; cbn [disk open_files osErrno].
  - repeat split; try done.
    + by rewrite length_insert.
    + intros t Ht. by rewrite list_lookup_insert_ne.
    + left. lia.
  - repeat split; try done. by right.
Qed.

Lemma bitmap_first_unused_loop_frame (start nbits : Z) :
  forall n i w r w',
    0 <= i + start ->
    bitmap_first_unused_loop n i start nbits w = Some (r, w') ->
    open_files w' = open_files w /\ osErrno w' = osErrno w
    /\ length (disk w') = length (disk w)
    /\ (forall s, ~ (i + start <= s < i + start + Z.of_nat n) -> 0 <= s ->
          disk w' !! Z.to_nat s = disk w !! Z.to_nat s).
Proof.
  induction n as [|n IH]; intros i w r w' Hi Hrun.
  - apply ret_inv in Hrun as [_ ->]. done.
  - cbn [bitmap_first_unused_loop] in Hrun.
    apply bind_inv in Hrun as (rd & w1 & H1 & Hrun).
    apply Disk_Read_reads_only in H1 as (D1 & O1 & E1 & _).
    destruct rd as [buf|].
    2:{ apply ret_inv in Hrun as [_ ->]. rewrite D1. done. }
    apply bind_inv in Hrun as (found & w2 & H2 & Hrun).
    apply defined_inv in H2 as [_ ->].
    destruct found as [[j k]|].
    + apply bind_inv in Hrun as (b & w3 & H3 & Hrun).
      apply defined_inv in H3 as [_ ->].
      apply bind_inv in Hrun as (buf' & w4 & H4 & Hrun).
      apply defined_inv in H4 as [_ ->].
      apply bind_inv in Hrun as (rc & w5 & H5 & Hrun).
      apply Disk_Write_frame in H5 as (O5 & E5 & L5 & D5 & _).
      assert (w' = w5) as ->.
      { destruct (rc <? 0); [by apply ret_inv in Hrun as [_ ->]|].
        destruct (_ <? nbits); by apply ret_inv in Hrun as [_ ->]. }
      rewrite O5, E5, L5, O1, E1, D1. repeat split; try done.
      intros s Hs Hs0. rewrite D5 by lia. by rewrite D1.
    + apply IH in Hrun as (O & E & L & D); [|lia].
      rewrite O, E, L, O1, E1, D1. repeat split; try done.
      intros s Hs Hs0. rewrite D by lia. by rewrite D1.
Qed.

(** Property X21.  Whatever the disk holds, [bitmap_first_unused] leaves the
    open-file table, [osErrno] and every sector outside the [num] sectors of
    its bitmap as they were. *)
Theorem bitmap_first_unused_frame (start num nbits : Z) (w : world) r w' :
  0 <= start ->
  bitmap_first_unused start num nbits w = Some (r, w') ->
  open_files w' = open_files w /\ osErrno w' = osErrno w
  /\ length (disk w') = length (disk w)
  /\ (forall s, 0 <= s -> ~ (start <= s < start + num) ->
        disk w' !! Z.to_nat s = disk w !! Z.to_nat s).
Proof.
  intros Hstart Hrun.
  apply bitmap_first_unused_loop_frame in Hrun as (O & E & L & D); [|lia].
  repeat split; try done. intros s Hs Hout. apply D; lia.
Qed.

Lemma msb_bit_land_mask b k k' :
  0 <= k < 8 -> 0 <= k' < 8 ->
  msb_bit (Z.land b (Z.lnot (Z.shiftr 128 k) mod 256)) k'
  = if k =? k' then false else msb_bit b k'.
Proof.
  intros Hk Hk'. unfold msb_bit.
  rewrite Z.land_spec. change 256 with (2 ^ 8).
  rewrite Z.mod_pow2_bits_low by lia.
  rewrite Z.lnot_spec by lia. rewrite Z.shiftr_spec by lia.
  change 128 with (2 ^ 7). rewrite Z.pow2_bits_eqb by lia.
  destruct (Z.eqb_spec k k') as [->|Hne].
  - assert ((7 =? 7 - k' + k') = true) as -> by lia. apply andb_false_r.
  - assert ((7 =? 7 - k' + k) = false) as -> by lia. apply andb_true_r.
Qed.

Lemma bitmap_reset_run (start num ibit : Z) (w : world) :
  0 < SECTOR_SIZE -> wf_diskb (disk w) = true ->
  0 <= start -> 0 <= ibit -> start + ibit / SECTOR_SIZE < TOTAL_SECTORS ->
  exists (sec : list Z) b,
    disk w !! Z.to_nat (start + ibit / SECTOR_SIZE) = Some sec
    /\ sec !! Z.to_nat (ibit mod SECTOR_SIZE / 8) = Some b
    /\ bitmap_reset start num ibit w
       = Some (0, World (<[Z.to_nat (start + ibit / SECTOR_SIZE) :=
                           <[Z.to_nat (ibit mod SECTOR_SIZE / 8) :=
                              Z.land b (Z.lnot (Z.shiftr 128 (ibit mod 8)) mod 256)]> sec]>
                          (disk w))
                       (open_files w) (osErrno w)
                       (IOWrite (start + ibit / SECTOR_SIZE)
                        :: IORead (start + ibit / SECTOR_SIZE) :: io_log w)).
Proof.
  intros HS Hwf Hstart Hibit Hend.
  assert (0 <= ibit / SECTOR_SIZE) as Hq by (apply Z.div_pos; lia).
  assert (0 <= ibit mod SECTOR_SIZE < SECTOR_SIZE) as Hr by (apply Z.mod_pos_bound; lia).
  assert (0 <= ibit mod 8 < 8) as Hk by (apply Z.mod_pos_bound; lia).
  assert (0 <= ibit mod SECTOR_SIZE / 8) as Hj0 by (apply Z.div_pos; lia).
  assert (ibit mod SECTOR_SIZE / 8 <= ibit mod SECTOR_SIZE) as Hj1.
  { apply Z.div_le_upper_bound; lia. }
  assert (0 <= start + ibit / SECTOR_SIZE < TOTAL_SECTORS) as Hin by lia.
  destruct (wf_disk_lookup (disk w) (start + ibit / SECTOR_SIZE) Hwf Hin)
    as (sec & Hsec & Hlen & Hbytes).
  destruct (sec !! Z.to_nat (ibit mod SECTOR_SIZE / 8)) as [b|] eqn:Hb.
  2:{ apply lookup_ge_None in Hb. unfold zlen in Hlen. lia. }
  exists sec, b. repeat split; try done.
  unfold bitmap_reset.
  rewrite Z.quot_div_nonneg by lia.
  rewrite (Z.rem_mod_nonneg ibit SECTOR_SIZE) by lia.
  rewrite (Z.quot_div_nonneg (ibit mod SECTOR_SIZE) 8) by lia.
  rewrite (Z.rem_mod_nonneg ibit 8) by lia.
  erewrite bind_run; [|apply Disk_Read_ok; [lia | done]].
  cbv beta iota.
  assert ((ibit mod 8 <? 0) = false) as -> by lia.
  erewrite bind_run; [|apply defined_run; rewrite buf_get_lookup by lia; exact Hb].
  erewrite bind_run.
  2:{ apply defined_run. unfold buf_set.
      assert (((0 <=? ibit mod SECTOR_SIZE / 8)
               && (ibit mod SECTOR_SIZE / 8 <? zlen sec)) = true) as -> by lia.
      done. }
  cbv beta iota.
  erewrite bind_run.
  2:{ apply Disk_Write_ok; cbn [disk].
      - unfold zlen in *. rewrite length_insert. done.
      - lia.
      - apply lookup_lt_Some in Hsec. unfold zlen. lia. }
  cbn [disk open_files osErrno io_log].
  assert ((0 <? 0) = false) as -> by lia. done.
Qed.

Lemma reset_coords ibit :
  0 < SECTOR_SIZE -> 0 <= ibit ->
  let p := (ibit / SECTOR_SIZE * SECTOR_SIZE + ibit mod SECTOR_SIZE / 8) * 8 + ibit mod 8 in
  0 <= p /\ p / (SECTOR_SIZE * 8) = ibit / SECTOR_SIZE
  /\ p / 8 mod SECTOR_SIZE = ibit mod SECTOR_SIZE / 8
  /\ p mod 8 = ibit mod 8
  /\ (ibit < SECTOR_SIZE -> p = ibit).
Proof.
  intros HS Hibit p.
  assert (0 <= ibit / SECTOR_SIZE) as Hq by (apply Z.div_pos; lia).
  assert (0 <= ibit mod SECTOR_SIZE < SECTOR_SIZE) as Hr by (apply Z.mod_pos_bound; lia).
  assert (0 <= ibit mod 8 < 8) as Hk by (apply Z.mod_pos_bound; lia).
  assert (0 <= ibit mod SECTOR_SIZE / 8) as Hj0 by (apply Z.div_pos; lia).
  assert (ibit mod SECTOR_SIZE / 8 <= ibit mod SECTOR_SIZE) as Hj1.
  { apply Z.div_le_upper_bound; lia. }
  assert (0 <= ibit mod SECTOR_SIZE / 8 < SECTOR_SIZE) as Hj by lia.
  destruct (pos_coords (ibit / SECTOR_SIZE) (ibit mod SECTOR_SIZE / 8) (ibit mod 8)
              HS Hj Hk) as (E1 & E2 & E3).
  repeat split; try done.
  - subst p. nia.
  - intros Hlt. subst p.
    rewrite (Z.div_small ibit SECTOR_SIZE) by lia.
    rewrite (Z.mod_small ibit SECTOR_SIZE) by lia.
    pose proof (Z.div_mod ibit 8 ltac:(lia)). lia.
Qed.

(** Property X22.  [bitmap_reset] returns 0 and clears one bit of the bitmap,
    the one in sector [ibit / SECTOR_SIZE], byte [ibit mod SECTOR_SIZE / 8],
    and leaves every other bit and sector; that bit is bit [ibit] when
    [ibit < SECTOR_SIZE]. *)
Theorem bitmap_reset_clears (start num ibit : Z) (w : world) :
  0 < SECTOR_SIZE -> wf_diskb (disk w) = true ->
  0 <= start -> 0 <= ibit -> start + ibit / SECTOR_SIZE < TOTAL_SECTORS ->
  let p := (ibit / SECTOR_SIZE * SECTOR_SIZE + ibit mod SECTOR_SIZE / 8) * 8 + ibit mod 8 in
  (ibit < SECTOR_SIZE -> p = ibit)
  /\ exists w',
       bitmap_reset start num ibit w = Some (0, w')
       /\ bitmap_bit (disk w') start p = Some false
       /\ (forall q, 0 <= q -> q <> p ->
             bitmap_bit (disk w') start q = bitmap_bit (disk w) start q)
       /\ (forall s, s <> Z.to_nat (start + ibit / SECTOR_SIZE) ->
             disk w' !! s = disk w !! s)
       /\ open_files w' = open_files w /\ osErrno w' = osErrno w.
Proof.
  intros HS Hwf Hstart Hibit Hend p.
  destruct (reset_coords ibit HS Hibit) as (Hp & E1 & E2 & E3 & E4). fold p in Hp, E1, E2, E3, E4.
  split; [done|].
  destruct (bitmap_reset_run start num ibit w HS Hwf Hstart Hibit Hend)
    as (sec & b & Hsec & Hb & Hrun).
  eexists. split; [exact Hrun|]. cbn [disk open_files osErrno].
  assert (0 <= ibit mod 8 < 8) as Hk by (apply Z.mod_pos_bound; lia).
  destruct (bitmap_bit_update (disk w) start p sec b
              (Z.land b (Z.lnot (Z.shiftr 128 (ibit mod 8)) mod 256)) false
              HS Hstart Hp) as (H1 & H2 & H3).
  { by rewrite E1. }
  { by rewrite E2. }
  { intros k' Hk'. rewrite E3. by apply msb_bit_land_mask. }
  rewrite E1, E2 in H1, H2, H3.
  repeat split; done.
Qed.

Lemma set_clear_byte b k :
  0 <= b < 256 -> 0 <= k < 8 -> msb_bit b k = false ->
  Z.land (Z.lor b (nth (Z.to_nat k) scan_bits 0)) (Z.lnot (Z.shiftr 128 k) mod 256) = b.
Proof.
  intros Hb Hk Hclear.
  assert (set_clear_byteb b = true) as H.
  { revert b Hb Hclear. intros b Hb _. revert b Hb. apply forall_byte.
    vm_compute. reflexivity. }
  unfold set_clear_byteb in H. rewrite forallb_forall in H.
  specialize (H k (index8_in k Hk)). rewrite Hclear in H. cbn [negb implb] in H. lia.
Qed.

(** Property X23.  Allocating the first free bit and freeing it again gives
    back the disk as it was, for a position below both [nbits] and
    [SECTOR_SIZE]. *)
Theorem bitmap_allocate_then_free (start num nbits pos : Z) (w : world) :
  0 < SECTOR_SIZE -> wf_diskb (disk w) = true ->
  0 <= start -> start + num <= TOTAL_SECTORS ->
  num * SECTOR_SIZE * 8 < 2 ^ 31 ->
  0 <= pos < num * SECTOR_SIZE * 8 ->
  (forall q, 0 <= q < pos -> bitmap_bit (disk w) start q = Some true) ->
  bitmap_bit (disk w) start pos = Some false ->
  pos < nbits -> pos < SECTOR_SIZE ->
  exists w',
    (r <~ bitmap_first_unused start num nbits ;; bitmap_reset start num r) w
    = Some (0, w')
    /\ disk w' = disk w /\ open_files w' = open_files w /\ osErrno w' = osErrno w.
Proof.
  intros HS Hwf Hstart Hend _ Hpos Hones Hzero Hlt HltS.
  destruct (first_zero_run start num nbits pos w HS Hwf Hstart Hend Hpos Hones Hzero)
    as (sec0 & b & log & Hsec0 & Hb & Hb256 & Hclear & Hrun).
  assert ((pos <? nbits) = true) as Hc by lia. rewrite Hc in Hrun.
  assert (0 < num) as Hnum by nia.
  assert (0 <= start < TOTAL_SECTORS) as Hin by lia.
  assert (pos / (SECTOR_SIZE * 8) = 0) as E0 by (apply Z.div_small; lia).
  assert (pos / SECTOR_SIZE = 0) as E1 by (apply Z.div_small; lia).
  assert (pos mod SECTOR_SIZE = pos) as E2 by (apply Z.mod_small; lia).
  assert (pos / 8 mod SECTOR_SIZE = pos / 8) as E3.
  { apply Z.mod_small. split; [apply Z.div_pos; lia|].
    apply Z.div_lt_upper_bound; lia. }
  rewrite E0 in Hrun, Hsec0. rewrite E3 in Hrun, Hb. rewrite Z.add_0_r in Hrun, Hsec0.
  erewrite bind_run; [|exact Hrun]. cbv beta iota.
  assert (0 <= pos mod 8 < 8) as Hk by (apply Z.mod_pos_bound; lia).
  assert (0 <= pos / 8) as Hj0 by (apply Z.div_pos; lia).
  assert (pos / 8 < SECTOR_SIZE) as Hj1 by (apply Z.div_lt_upper_bound; lia).
  assert (Z.to_nat start < length (disk w))%nat as HltD
    by (by apply lookup_lt_Some in Hsec0).
  assert (Z.to_nat (pos / 8) < length sec0)%nat as HltJ
    by (by apply lookup_lt_Some in Hb).
  unfold bitmap_reset.
  rewrite Z.quot_div_nonneg by lia.
  rewrite (Z.rem_mod_nonneg pos SECTOR_SIZE) by lia.
  rewrite E1, E2, Z.add_0_r.
  rewrite (Z.quot_div_nonneg pos 8) by lia.
  rewrite (Z.rem_mod_nonneg pos 8) by lia.
  erewrite bind_run.
  2:{ apply Disk_Read_ok; cbn [disk]; [lia|]. by rewrite list_lookup_insert_eq. }
  cbv beta iota.
  assert ((pos mod 8 <? 0) = false) as -> by lia.
  erewrite bind_run.
  2:{ apply defined_run. rewrite buf_get_lookup by lia.
      by rewrite list_lookup_insert_eq. }
  erewrite bind_run.
  2:{ apply defined_run. unfold buf_set, zlen. rewrite length_insert.
      assert (((0 <=? pos / 8) && (pos / 8 <? Z.of_nat (length sec0))) = true) as -> by lia.
      done. }
  cbv beta iota.
  erewrite bind_run.
  2:{ apply Disk_Write_ok; cbn [disk].
      - unfold zlen. rewrite !length_insert.
        destruct (wf_disk_lookup (disk w) start Hwf Hin) as (s' & Hs' & Hl' & _).
        rewrite Hsec0 in Hs'. injection Hs' as <-. done.
      - lia.
      - unfold zlen. rewrite length_insert. lia. }
  cbn [disk open_files osErrno io_log].
  assert ((0 <? 0) = false) as -> by lia.
  eexists. split; [reflexivity|]. cbn [disk open_files osErrno].
  repeat split.
  rewrite list_insert_insert_eq, list_insert_insert_eq.
  rewrite set_clear_byte by done.
  rewrite (list_insert_id sec0) by done.
  by rewrite list_insert_id.
Qed.

End BitmapAllocation.

(** * Formatting a bitmap *)

Section BitmapFormat.
Context {P : Params}.

Lemma fill_bytes_run (c : Z) : forall n i (buf : list Z),
  0 <= i -> i + Z.of_nat n <= zlen buf ->
  exists buf' : list Z,
    fill_bytes n i c buf = Some buf' /\ length buf' = length buf
    /\ (forall t, i <= t < i + Z.of_nat n -> buf' !! Z.to_nat t = Some c)
    /\ (forall t, 0 <= t -> ~ (i <= t < i + Z.of_nat n) ->
          buf' !! Z.to_nat t = buf !! Z.to_nat t).
Proof.
  induction n as [|n IH]; intros i buf Hi Hlen.
  - exists buf. repeat split; try done. intros t Ht. lia.
  - cbn [fill_bytes]. unfold buf_set.
    assert (((0 <=? i) && (i <? zlen buf)) = true) as -> by lia.
    cbn [mbind option_bind].
    destruct (IH (i + 1) (<[Z.to_nat i := c]> buf)) as (buf' & Hrun & Hl & Hin & Hout);
      [lia | unfold zlen in *; rewrite length_insert; lia |].
    exists buf'. rewrite length_insert in Hl. repeat split; try done.
    + intros t Ht. destruct (Z.eq_dec t i) as [->|Hne].
      * rewrite Hout by lia. apply list_lookup_insert_eq. unfold zlen in Hlen. lia.
      * apply Hin. lia.
    + intros t Ht Hnot. rewrite Hout by lia. apply list_lookup_insert_ne. lia.
Qed.

Lemma write_sectors_run (buf : list Z) : forall n i w,
  zlen buf = SECTOR_SIZE -> 0 <= i ->
  exists w',
    write_sectors n i buf w = Some (tt, w')
    /\ open_files w' = open_files w /\ osErrno w' = osErrno w
    /\ length (disk w') = length (disk w)
    /\ (forall s, i <= s < i + Z.of_nat n -> s < zlen (disk w) -> s < TOTAL_SECTORS ->
          disk w' !! Z.to_nat s = Some buf)
    /\ (forall s, 0 <= s -> ~ (i <= s < i + Z.of_nat n) ->
          disk w' !! Z.to_nat s = disk w !! Z.to_nat s).
Proof.
  intros n. induction n as [|n IH]; intros i w Hbuf Hi.
  - exists w. repeat split; try done. intros s Hs. lia.
  - cbn [write_sectors].
    destruct (Disk_Write i buf w) as [[rc w1]|] eqn:HW.
    2:{ unfold Disk_Write in HW.
        assert ((zlen buf =? SECTOR_SIZE) = true) as E by lia. rewrite E in HW.
        cbn [negb] in HW. destruct (_ && _); done. }
    erewrite bind_run; [|exact HW].
    destruct (IH (i + 1) w1 Hbuf ltac:(lia)) as (w' & Hrun & O & E & L & Hin & Hout).
    assert (forall s, i = s -> s < zlen (disk w) -> s < TOTAL_SECTORS ->
              disk w1 !! Z.to_nat s = Some buf) as Hhere.
    { intros s <- H1 H2. unfold Disk_Write in HW.
      assert ((zlen buf =? SECTOR_SIZE) = true) as E' by lia. rewrite E' in HW.
      cbn [negb] in HW.
      assert (((0 <=? i) && (i <? zlen (disk w)) && (i <? TOTAL_SECTORS)) = true) as E'' by lia.
      rewrite E'' in HW. injection HW as _ <-. cbn [disk].
      apply list_lookup_insert_eq. unfold zlen in H1. lia. }
    apply Disk_Write_frame in HW as (O1 & E1 & L1 & D1 & _).
    exists w'. rewrite O, E, L, O1, E1, L1. repeat split; try done.
    + intros s Hs H1 H2. destruct (Z.eq_dec s i) as [->|Hne].
      * rewrite Hout by lia. by apply Hhere.
      * apply Hin; try lia. unfold zlen in *. lia.
    + intros s Hs Hnot. rewrite Hout by lia. apply D1. lia.
Qed.

Lemma init_bits_spec r k :
  0 <= r < 8 -> 0 <= k < 8 ->
  exists v, buf_get init_bits r = Some v /\ msb_bit v k = (k <? r).
Proof.
  intros Hr Hk.
  assert (r = 0 \/ r = 1 \/ r = 2 \/ r = 3 \/ r = 4 \/ r = 5 \/ r = 6 \/ r = 7)
    as Hr' by lia.
  assert (k = 0 \/ k = 1 \/ k = 2 \/ k = 3 \/ k = 4 \/ k = 5 \/ k = 6 \/ k = 7)
    as Hk' by lia.
  repeat (destruct Hr' as [-> | Hr']);
    repeat (destruct Hk' as [-> | Hk']); subst; eexists; split; reflexivity.
Qed.

Lemma msb_bit_255 k : 0 <= k < 8 -> msb_bit 255 k = true.
Proof.
  intros Hk.
  assert (k = 0 \/ k = 1 \/ k = 2 \/ k = 3 \/ k = 4 \/ k = 5 \/ k = 6 \/ k = 7)
    as Hk' by lia.
  repeat (destruct Hk' as [-> | Hk']); subst; reflexivity.
Qed.

Lemma msb_bit_0 k : msb_bit 0 k = false.
Proof. unfold msb_bit. apply Z.bits_0. Qed.

Lemma bitmap_init_run (start num nbits : Z) (w : world) :
  0 < SECTOR_SIZE -> zlen (disk w) = TOTAL_SECTORS ->
  0 <= start -> start + num <= TOTAL_SECTORS ->
  0 <= nbits < num * SECTOR_SIZE * 8 ->
  exists w',
    bitmap_init start num nbits w = Some (tt, w')
    /\ (forall p, 0 <= p < (nbits / (SECTOR_SIZE * 8) + 1) * SECTOR_SIZE * 8 ->
          bitmap_bit (disk w') start p = Some (p <? nbits))
    /\ (nbits mod 8 = 0 ->
        forall p, 0 <= p < num * SECTOR_SIZE * 8 ->
          bitmap_bit (disk w') start p = Some (p <? nbits))
    /\ (forall s, 0 <= s -> ~ (start <= s <= start + num) ->
          disk w' !! Z.to_nat s = disk w !! Z.to_nat s)
    /\ length (disk w') = length (disk w)
    /\ open_files w' = open_files w /\ osErrno w' = osErrno w.
Proof.
  intros HS Hlen Hstart Hend Hnbits.
  destruct (pos_decompose nbits HS ltac:(lia)) as (Enb & Ha & Hb & Hr).
  set (a := nbits / (SECTOR_SIZE * 8)) in *.
  set (b := nbits / 8 mod SECTOR_SIZE) in *.
  set (r := nbits mod 8) in *.
  assert (a < num) as Han by nia.
  assert (0 <= nbits / 8) as Hn8 by (apply Z.div_pos; lia).
  assert (nbits ÷ 8 ÷ SECTOR_SIZE = a) as Ea.
  { rewrite (Z.quot_div_nonneg nbits 8) by lia.
    rewrite (Z.quot_div_nonneg (nbits / 8) SECTOR_SIZE) by lia. unfold a.
    rewrite (Z.mul_comm SECTOR_SIZE 8). apply Z.div_div; lia. }
  assert (Z.rem (nbits ÷ 8) SECTOR_SIZE = b) as Eb.
  { rewrite Z.quot_div_nonneg by lia. by rewrite Z.rem_mod_nonneg by lia. }
  assert (Z.rem nbits 8 = r) as Er by (by rewrite Z.rem_mod_nonneg by lia).
  unfold bitmap_init. rewrite Ea, Eb, Er.
  (* the buffer of 0xff bytes *)
  destruct (fill_bytes_run 255 (Z.to_nat SECTOR_SIZE) 0 (repeat 0 (Z.to_nat SECTOR_SIZE)))
    as (buf1 & Hf1 & Hl1 & Hin1 & _);
    [lia | unfold zlen; rewrite repeat_length; lia |].
  rewrite repeat_length in Hl1.
  erewrite bind_run; [|apply defined_run, Hf1]. cbv beta iota.
  assert (zlen buf1 = SECTOR_SIZE) as Hz1 by (unfold zlen; lia).
  destruct (write_sectors_run buf1 (Z.to_nat a) start w Hz1 Hstart)
    as (w1 & Hw1 & O1 & E1 & L1 & Din1 & Dout1).
  erewrite bind_run; [|exact Hw1]. cbv beta iota.
  (* the partial sector *)
  destruct (init_bits_spec r 0 Hr ltac:(lia)) as (bits_r & Hbits & _).
  erewrite bind_run; [|apply defined_run, Hbits]. cbv beta iota.
  erewrite bind_run.
  2:{ apply defined_run. unfold buf_set.
      assert (((0 <=? b) && (b <? zlen buf1)) = true) as -> by lia. done. }
  cbv beta iota.
  destruct (fill_bytes_run 0 (Z.to_nat (SECTOR_SIZE - (b + 1))) (b + 1)
              (<[Z.to_nat b := bits_r]> buf1))
    as (buf3 & Hf3 & Hl3 & Hin3 & Hout3);
    [lia | unfold zlen; rewrite length_insert; lia |].
  rewrite length_insert in Hl3.
  erewrite bind_run; [|apply defined_run, Hf3]. cbv beta iota.
  assert (zlen buf3 = SECTOR_SIZE) as Hz3 by (unfold zlen; lia).
  assert (zlen (disk w1) = TOTAL_SECTORS) as Hlen1 by (unfold zlen in *; lia).
  erewrite bind_run.
  2:{ apply Disk_Write_ok; try done; lia. }
  (* the sectors of zeroes *)
  destruct (fill_bytes_run 0 (Z.to_nat b) 0 buf3) as (buf4 & Hf4 & Hl4 & Hin4 & Hout4);
    [lia | lia |].
  erewrite bind_run; [|apply defined_run, Hf4]. cbv beta iota.
  assert (zlen buf4 = SECTOR_SIZE) as Hz4 by (unfold zlen in *; lia).
  match goal with
  | |- context [write_sectors ?n ?i buf4 ?w2] =>
      destruct (write_sectors_run buf4 n i w2 Hz4 ltac:(lia))
        as (w3 & Hw3 & O3 & E3 & L3 & Din3 & Dout3)
  end.
  cbn [disk open_files osErrno] in *.
  exists w3. split; [exact Hw3|].
  (* the sectors of the result *)
  assert (forall i', 0 <= i' < a -> disk w3 !! Z.to_nat (start + i') = Some buf1) as Hfull.
  { intros i' Hi'. rewrite Dout3 by lia.
    rewrite list_lookup_insert_ne by lia. apply Din1; lia. }
  assert (disk w3 !! Z.to_nat (start + a) = Some buf3) as Hpart.
  { rewrite Dout3 by lia. apply list_lookup_insert_eq. unfold zlen in Hlen1. lia. }
  assert (forall t k, 0 <= t < SECTOR_SIZE -> 0 <= k < 8 ->
            exists v, buf3 !! Z.to_nat t = Some v
                      /\ msb_bit v k = ((a * SECTOR_SIZE + t) * 8 + k <? nbits)) as Hbuf3.
  { intros t k Ht Hk.
    destruct (Z.lt_trichotomy t b) as [Hlt | [-> | Hgt]].
    - exists 255. split.
      + rewrite Hout3 by lia. rewrite list_lookup_insert_ne by lia. apply Hin1. lia.
      + rewrite msb_bit_255 by done. symmetry. apply Z.ltb_lt. nia.
    - destruct (init_bits_spec r k Hr Hk) as (v & Hv & Hvk).
      rewrite Hbits in Hv. injection Hv as <-.
      exists bits_r. split.
      + rewrite Hout3 by lia. apply list_lookup_insert_eq. lia.
      + rewrite Hvk. destruct (Z.ltb_spec k r); symmetry; [apply Z.ltb_lt | apply Z.ltb_ge]; lia.
    - exists 0. split.
      + apply Hin3. lia.
      + rewrite msb_bit_0. symmetry. apply Z.ltb_ge. nia. }
  assert (forall p, 0 <= p < (a + 1) * SECTOR_SIZE * 8 ->
            bitmap_bit (disk w3) start p = Some (p <? nbits)) as Hlead.
  { intros p Hp.
    destruct (pos_decompose p HS ltac:(lia)) as (Ep & Hpi & Hpj & Hpk).
    set (pi := p / (SECTOR_SIZE * 8)) in *.
    set (pj := p / 8 mod SECTOR_SIZE) in *.
    set (pk := p mod 8) in *.
    assert (pi <= a) as Hpia by nia.
    rewrite Ep, bitmap_bit_coords by done.
    destruct (Z.eq_dec pi a) as [Epi|Hne].
    - rewrite Epi, Hpart. cbn [mbind option_bind].
      destruct (Hbuf3 pj pk Hpj Hpk) as (v & Hv & Hvk).
      rewrite Hv. cbn [mbind option_bind]. by rewrite Hvk.
    - rewrite Hfull by lia. cbn [mbind option_bind].
      rewrite Hin1 by lia. cbn [mbind option_bind].
      rewrite msb_bit_255 by done. f_equal. symmetry. apply Z.ltb_lt. nia. }
  repeat split; try congruence.
  - exact Hlead.
  - intros Hr0 p Hp.
    destruct (Z.lt_ge_cases p ((a + 1) * SECTOR_SIZE * 8)) as [Hlt|Hge];
      [apply Hlead; lia|].
    destruct (pos_decompose p HS ltac:(lia)) as (Ep & Hpi & Hpj & Hpk).
    set (pi := p / (SECTOR_SIZE * 8)) in *.
    set (pj := p / 8 mod SECTOR_SIZE) in *.
    set (pk := p mod 8) in *.
    assert (a < pi < num) as Hpia by nia.
    rewrite Ep, bitmap_bit_coords by done.
    assert (0 <= sgn b <= 1) as Hsg.
    { unfold sgn. destruct (Z.eqb_spec b 0); [lia|]. destruct (Z.gtb_spec b 0); lia. }
    rewrite Din3; cbn [disk]; [| lia | unfold zlen; rewrite length_insert; fold (zlen (disk w1)); lia | lia].
    cbn [mbind option_bind].
    assert (buf4 !! Z.to_nat pj = Some 0) as ->.
    { destruct (Z.lt_trichotomy pj b) as [Hlt | [E | Hgt]].
      - apply Hin4. lia.
      - rewrite Hout4 by lia. rewrite E. rewrite Hout3 by lia.
        rewrite list_lookup_insert_eq by lia.
        rewrite Hr0 in Hbits. vm_compute in Hbits. congruence.
      - rewrite Hout4 by lia. apply Hin3. lia. }
    cbn [mbind option_bind]. rewrite msb_bit_0. f_equal. symmetry. apply Z.ltb_ge. nia.
  - intros s Hs Hout.
    assert (0 <= sgn b <= 1) as Hsg.
    { unfold sgn. destruct (Z.eqb_spec b 0); [lia|]. destruct (Z.gtb_spec b 0); lia. }
    rewrite Dout3 by lia. rewrite list_lookup_insert_ne by lia. apply Dout1; lia.
  - rewrite L3, length_insert. done.
Qed.

(** Property X24.  [bitmap_init] sets the first [nbits] bits and clears the
    rest in every sector up to and including the one that holds bit [nbits];
    in the whole bitmap when [nbits] is a multiple of 8.  It leaves every
    sector outside [start .. start + num] as it was. *)
Theorem bitmap_init_marks (start num nbits : Z) (w : world) :
  0 < SECTOR_SIZE -> zlen (disk w) = TOTAL_SECTORS ->
  0 <= start -> start + num <= TOTAL_SECTORS ->
  0 <= nbits < num * SECTOR_SIZE * 8 ->
  exists w',
    bitmap_init start num nbits w = Some (tt, w')
    /\ (forall p, 0 <= p < (nbits / (SECTOR_SIZE * 8) + 1) * SECTOR_SIZE * 8 ->
          bitmap_bit (disk w') start p = Some (p <? nbits))
    /\ (nbits mod 8 = 0 ->
        forall p, 0 <= p < num * SECTOR_SIZE * 8 ->
          bitmap_bit (disk w') start p = Some (p <? nbits))
    /\ (forall s, 0 <= s -> ~ (start <= s <= start + num) ->
          disk w' !! Z.to_nat s = disk w !! Z.to_nat s)
    /\ length (disk w') = length (disk w)
    /\ open_files w' = open_files w /\ osErrno w' = osErrno w.
Proof. apply bitmap_init_run. Qed.

End BitmapFormat.

(** * Booting and formatting *)

Section Boot.
Context {P : Params}.

Lemma bytes_of_word u :
  0 <= u < 2 ^ 32 ->
  u mod 2 ^ 8 + 2 ^ 8 * (u / 2 ^ 8 mod 2 ^ 8) + 2 ^ 16 * (u / 2 ^ 16 mod 2 ^ 8)
  + 2 ^ 24 * (u / 2 ^ 24 mod 2 ^ 8) = u.
Proof.
  intros Hu.
  change (2 ^ 16) with (2 ^ 8 * 2 ^ 8). change (2 ^ 24) with (2 ^ 8 * 2 ^ 8 * 2 ^ 8).
  rewrite <- !Z.div_div by lia.
  change (2 ^ 8) with 256 in *. change (2 ^ 32) with 4294967296 in *.
  pose proof (Z.div_mod u 256 ltac:(lia)).
  pose proof (Z.div_mod (u / 256) 256 ltac:(lia)).
  pose proof (Z.div_mod (u / 256 / 256) 256 ltac:(lia)).
  pose proof (Z.div_mod (u / 256 / 256 / 256) 256 ltac:(lia)).
  pose proof (Z.mod_pos_bound u 256 ltac:(lia)).
  pose proof (Z.mod_pos_bound (u / 256) 256 ltac:(lia)).
  pose proof (Z.mod_pos_bound (u / 256 / 256) 256 ltac:(lia)).
  pose proof (Z.mod_pos_bound (u / 256 / 256 / 256) 256 ltac:(lia)).
  assert (u / 256 / 256 / 256 / 256 = 0) as E0.
  { rewrite !Z.div_div by lia. apply Z.div_small. lia. }
  lia.
Qed.

Lemma to_int_mod v : to_int (v mod 2 ^ 32) = to_int v.
Proof. unfold to_int. by rewrite Zplus_mod_idemp_l. Qed.

Lemma store_int_run (buf : list Z) off v :
  0 <= off -> off + 4 <= zlen buf ->
  exists buf' : list Z,
    store_int buf off v = Some buf' /\ length buf' = length buf
    /\ load_int buf' off = Some (to_int v)
    /\ (forall t, 0 <= t -> ~ (off <= t < off + 4) ->
          buf' !! Z.to_nat t = buf !! Z.to_nat t)
    /\ (forall t, off <= t < off + 4 ->
          buf' !! Z.to_nat t = Some (v mod 2 ^ 32 / 2 ^ (8 * (t - off)) mod 2 ^ 8)).
Proof.
  intros Hoff Hlen. unfold store_int, buf_set, zlen in *.
  set (u := v mod 2 ^ 32).
  assert (0 <= u < 2 ^ 32) as Hu by (apply Z.mod_pos_bound; lia).
  assert (((0 <=? off) && (off <? Z.of_nat (length buf))) = true) as -> by lia.
  cbn [mbind option_bind]. rewrite length_insert.
  assert (((0 <=? off + 1) && (off + 1 <? Z.of_nat (length buf))) = true) as -> by lia.
  cbn [mbind option_bind]. rewrite !length_insert.
  assert (((0 <=? off + 2) && (off + 2 <? Z.of_nat (length buf))) = true) as -> by lia.
  cbn [mbind option_bind]. rewrite !length_insert.
  assert (((0 <=? off + 3) && (off + 3 <? Z.of_nat (length buf))) = true) as -> by lia.
  match goal with
  | |- exists buf', Some ?l = Some buf' /\ _ => set (l4 := l)
  end.
  assert (l4 !! Z.to_nat off = Some (u mod 2 ^ 8)) as H0.
  { subst l4.
    rewrite list_lookup_insert_ne, list_lookup_insert_ne, list_lookup_insert_ne by lia.
    apply list_lookup_insert_eq. lia. }
  assert (l4 !! Z.to_nat (off + 1) = Some (u / 2 ^ 8 mod 2 ^ 8)) as H1.
  { subst l4. rewrite list_lookup_insert_ne, list_lookup_insert_ne by lia.
    apply list_lookup_insert_eq. rewrite length_insert. lia. }
  assert (l4 !! Z.to_nat (off + 2) = Some (u / 2 ^ 16 mod 2 ^ 8)) as H2.
  { subst l4. rewrite list_lookup_insert_ne by lia.
    apply list_lookup_insert_eq. rewrite !length_insert. lia. }
  assert (l4 !! Z.to_nat (off + 3) = Some (u / 2 ^ 24 mod 2 ^ 8)) as H3.
  { subst l4. apply list_lookup_insert_eq. rewrite !length_insert. lia. }
  assert (forall x, 0 <= x mod 2 ^ 8 < 256) as Hbyte
    by (intros x; apply Z.mod_pos_bound; lia).
  exists l4. split; [reflexivity|].
  repeat split.
  - subst l4. by rewrite !length_insert.
  - unfold load_int. rewrite !buf_get_lookup by lia.
    rewrite H0, H1, H2, H3. cbn [mbind option_bind].
    f_equal. rewrite bytes_of_word by done. apply to_int_mod.
  - intros t Ht Hout. subst l4. rewrite !list_lookup_insert_ne by lia. done.
  - intros t Ht. fold u.
    assert (t = off \/ t = off + 1 \/ t = off + 2 \/ t = off + 3) as [-> | [-> | [-> | ->]]]
      by lia.
    + replace (8 * (off - off)) with 0 by lia. by rewrite Z.pow_0_r, Z.div_1_r.
    + by replace (8 * (off + 1 - off)) with 8 by lia.
    + by replace (8 * (off + 2 - off)) with 16 by lia.
    + by replace (8 * (off + 3 - off)) with 24 by lia.
Qed.



Lemma repeat_lookup_Z_nat {A} (x : A) (n i : nat) :
  (i < n)%nat -> repeat x n !! i = Some x.
Proof.
  revert i. induction n as [|m IH]; intros i Hi; [lia|].
  destruct i as [|i]; [done|]. cbn. apply IH. lia.
Qed.

Lemma repeat_lookup_Z {A} (x : A) n t :
  0 <= t < n -> repeat x (Z.to_nat n) !! Z.to_nat t = Some x.
Proof. intros Ht. apply repeat_lookup_Z_nat. lia. Qed.

Lemma bitmap_bit_ext (d d' : list sector) start p :
  d' !! Z.to_nat (start + p / (SECTOR_SIZE * 8)) = d !! Z.to_nat (start + p / (SECTOR_SIZE * 8)) ->
  bitmap_bit d' start p = bitmap_bit d start p.
Proof. intros H. unfold bitmap_bit. by rewrite H. Qed.

(** The root sector of a formatted inode table: zeroes, with the type of the
    first record set to 1. *)
Lemma format_inode_table_run : forall n i w,
  8 <= SECTOR_SIZE -> 0 <= INODE_TABLE_START_SECTOR -> 0 <= i ->
  zlen (disk w) = TOTAL_SECTORS ->
  INODE_TABLE_START_SECTOR + i + Z.of_nat n <= TOTAL_SECTORS ->
  exists w',
    format_inode_table n i w = Some (0, w')
    /\ open_files w' = open_files w /\ osErrno w' = osErrno w
    /\ length (disk w') = length (disk w)
    /\ (forall s, 0 <= s ->
          ~ (INODE_TABLE_START_SECTOR + i <= s < INODE_TABLE_START_SECTOR + i + Z.of_nat n) ->
          disk w' !! Z.to_nat s = disk w !! Z.to_nat s)
    /\ (forall j, i <= j < i + Z.of_nat n ->
          exists sec : list Z,
            disk w' !! Z.to_nat (INODE_TABLE_START_SECTOR + j) = Some sec
            /\ zlen sec = SECTOR_SIZE
            /\ (forall t, 0 <= t < SECTOR_SIZE ->
                  sec !! Z.to_nat t = Some (if (j =? 0) && (t =? 4) then 1 else 0))).
Proof.
  induction n as [|n IH]; intros i w HSS HIT Hi Hlen Hfit.
  - exists w. repeat split; try done. intros j Hj. lia.
  - cbn [format_inode_table].
    assert (exists buf : list Z,
              (if i =? 0 then
                 buf <~ defined (set_inode_size (repeat 0 (Z.to_nat SECTOR_SIZE)) 0 0) ;;
                 defined (set_inode_type buf 0 1)
               else ret (repeat 0 (Z.to_nat SECTOR_SIZE))) w = Some (buf, w)
              /\ zlen buf = SECTOR_SIZE
              /\ (forall t, 0 <= t < SECTOR_SIZE ->
                    buf !! Z.to_nat t = Some (if (i =? 0) && (t =? 4) then 1 else 0)))
      as (buf & Hbuf & Hbl & Hbytes).
    { destruct (Z.eqb_spec i 0) as [->|Hne].
      - destruct (store_int_run (repeat 0 (Z.to_nat SECTOR_SIZE)) 0 0)
          as (b1 & Hs1 & Hl1 & _ & Ho1 & Hv1);
          [lia | unfold zlen; rewrite repeat_length; lia |].
        rewrite repeat_length in Hl1.
        destruct (store_int_run b1 4 1) as (b2 & Hs2 & Hl2 & _ & Ho2 & Hv2);
          [lia | unfold zlen; lia |].
        exists b2. split; [|split].
        + unfold set_inode_size, set_inode_type.
          erewrite bind_run; [|apply defined_run, Hs1].
          apply defined_run. exact Hs2.
        + unfold zlen. lia.
        + intros t Ht. cbn [andb].
          assert (forall t', 0 <= t' < SECTOR_SIZE -> b1 !! Z.to_nat t' = Some 0) as Hb1.
          { intros t' Ht'.
            destruct (Z_le_gt_dec 4 t') as [Hge|Hlt].
            - rewrite Ho1 by lia. by apply repeat_lookup_Z.
            - rewrite Hv1 by lia. change (0 mod 2 ^ 32) with 0. rewrite Zdiv_0_l. reflexivity. }
          destruct (Z.eqb_spec t 4) as [->|Hne4].
          { rewrite Hv2 by lia. reflexivity. }
          destruct (Z_le_gt_dec 4 t) as [Hge|Hlt]; [|rewrite Ho2 by lia; by apply Hb1].
          destruct (Z_le_gt_dec 8 t) as [Hge8|Hlt8]; [rewrite Ho2 by lia; by apply Hb1|].
          rewrite Hv2 by lia. change (1 mod 2 ^ 32) with 1.
          rewrite Z.div_small; [done|].
          split; [lia|]. apply (Z.pow_gt_1 2); lia.
      - exists (repeat 0 (Z.to_nat SECTOR_SIZE)). split; [done|]. split.
        + unfold zlen. rewrite repeat_length. lia.
        + intros t Ht. cbn [andb]. by apply repeat_lookup_Z. }
    erewrite bind_run; [|exact Hbuf]. cbv beta iota.
    erewrite bind_run; [|apply Disk_Write_ok; [done | lia | lia]].
    assert ((0 <? 0) = false) as -> by lia.
    match goal with
    | |- context [format_inode_table n (i + 1) ?w1] =>
        destruct (IH (i + 1) w1 HSS HIT ltac:(lia)) as (w' & Hrun & O & E & L & Dout & Din);
          [cbn [disk]; unfold zlen in *; rewrite length_insert; lia | lia |]
    end.
    cbn [disk open_files osErrno] in *.
    exists w'. rewrite length_insert in L. repeat split; try done.
    + intros s Hs Hout. rewrite Dout by lia. apply list_lookup_insert_ne. lia.
    + intros j Hj. destruct (Z.eq_dec j i) as [->|Hne].
      * exists buf. repeat split; try done.
        rewrite Dout by lia. apply list_lookup_insert_eq. unfold zlen in Hlen. lia.
      * apply Din. lia.
Qed.

(** Property X25.  [FS_Boot] on a loaded image returns 0 exactly when the
    image has [SECTOR_SIZE * TOTAL_SECTORS] bytes and sector 0 starts with the
    magic number; it then clears the open-file table.  Otherwise it returns -1
    with [E_GENERAL] and leaves the table. *)
Theorem FS_Boot_loaded (content : list sector) (len : Z) (save_ok : bool) (w : world)
    (sec0 : list Z) (m : Z) :
  0 < TOTAL_SECTORS -> content !! Z.to_nat 0 = Some sec0 -> load_int sec0 0 = Some m ->
  FS_Boot (Loaded content len) save_ok w
  = Some (if negb (len =? SECTOR_SIZE * TOTAL_SECTORS)
          then (-1, World content (open_files w) (Some E_GENERAL) (io_log w))
          else if m mod 2 ^ 32 =? OS_MAGIC
          then (0, World content (repeat (OpenFile 0 0 0) (Z.to_nat MAX_OPEN_FILES))
                         (osErrno w) (IORead 0 :: io_log w))
          else (-1, World content (open_files w) (Some E_GENERAL)
                          (IORead 0 :: io_log w))).
Proof.
  intros HTS Hsec Hm. unfold FS_Boot.
  unfold bind at 1. unfold Disk_Init. unfold bind at 1. unfold Disk_Load.
  cbn [disk open_files osErrno io_log]. change (0 <? 0) with false. cbv iota.
  destruct (negb (len =? SECTOR_SIZE * TOTAL_SECTORS)); [done|].
  unfold check_magic.
  unfold bind at 1. erewrite bind_run.
  2:{ apply Disk_Read_ok; [unfold SUPERBLOCK_START_SECTOR; lia | exact Hsec]. }
  cbv beta iota. erewrite bind_run; [|apply defined_run, Hm].
  cbn [disk open_files osErrno io_log].
  destruct (m mod 2 ^ 32 =? OS_MAGIC); done.
Qed.

Lemma up_to_multiple x d : 0 <= x -> 0 < d -> x <= (x + d - 1) ÷ d * d /\ (0 < x -> 0 < (x + d - 1) ÷ d).
Proof.
  intros Hx Hd. rewrite Z.quot_div_nonneg by lia.
  pose proof (Z.div_mod (x + d - 1) d ltac:(lia)).
  pose proof (Z.mod_pos_bound (x + d - 1) d Hd).
  split; [nia|]. intros Hpos. apply Z.div_str_pos. lia.
Qed.

Lemma FS_Boot_format_run (w : world) :
  8 <= SECTOR_SIZE -> 0 < MAX_FILES -> 0 < TOTAL_SECTORS < 2 ^ 31 ->
  INODE_TABLE_START_SECTOR + INODE_TABLE_SECTORS < TOTAL_SECTORS ->
  0 < INODE_TABLE_SECTORS ->
  exists w',
    FS_Boot OpeningFileError true w = Some (0, w')
    /\ zlen (disk w') = TOTAL_SECTORS
    /\ (exists sec0 : list Z,
          disk w' !! Z.to_nat 0 = Some sec0 /\ load_int sec0 0 = Some (to_int OS_MAGIC))
    /\ (forall p, 0 <= p < SECTOR_SIZE * 8 ->
          bitmap_bit (disk w') INODE_BITMAP_START_SECTOR p = Some (p =? 0))
    /\ (forall p, 0 <= p < (DATABLOCK_START_SECTOR / (SECTOR_SIZE * 8) + 1) * SECTOR_SIZE * 8 ->
          bitmap_bit (disk w') SECTOR_BITMAP_START_SECTOR p
          = Some (p <? DATABLOCK_START_SECTOR))
    /\ (forall j, 0 <= j < INODE_TABLE_SECTORS ->
          exists sec : list Z,
            disk w' !! Z.to_nat (INODE_TABLE_START_SECTOR + j) = Some sec
            /\ zlen sec = SECTOR_SIZE
            /\ (forall t, 0 <= t < SECTOR_SIZE ->
                  sec !! Z.to_nat t = Some (if (j =? 0) && (t =? 4) then 1 else 0)))
    /\ open_files w' = repeat (OpenFile 0 0 0) (Z.to_nat MAX_OPEN_FILES)
    /\ osErrno w' = osErrno w.
Proof.
  intros HSS HMF HTS Hfit HITS.
  (* the layout *)
  assert (0 < INODE_BITMAP_SECTORS) as HIB.
  { unfold INODE_BITMAP_SECTORS.
    assert (0 < INODE_BITMAP_SIZE) as Hsz.
    { unfold INODE_BITMAP_SIZE. rewrite Z.quot_div_nonneg by lia.
      apply Z.div_str_pos. lia. }
    apply up_to_multiple; lia. }
  assert (0 < SECTOR_BITMAP_SECTORS /\ TOTAL_SECTORS <= SECTOR_BITMAP_SECTORS * SECTOR_SIZE * 8)
    as [HSB HSBcap].
  { unfold SECTOR_BITMAP_SECTORS.
    assert (0 < SECTOR_BITMAP_SIZE /\ TOTAL_SECTORS <= SECTOR_BITMAP_SIZE * 8) as [Hsz Hcap].
    { unfold SECTOR_BITMAP_SIZE.
      replace (TOTAL_SECTORS + 7) with (TOTAL_SECTORS + 8 - 1) by lia.
      destruct (up_to_multiple TOTAL_SECTORS 8) as [H1 H2]; [lia | lia |].
      split; [apply H2; lia | lia]. }
    destruct (up_to_multiple SECTOR_BITMAP_SIZE SECTOR_SIZE) as [H1 H2]; [lia | lia |].
    split; [apply H2; lia | lia]. }
  assert (INODE_BITMAP_START_SECTOR = 1) as EIBS by reflexivity.
  assert (SECTOR_BITMAP_START_SECTOR = 1 + INODE_BITMAP_SECTORS) as ESBS by reflexivity.
  assert (INODE_TABLE_START_SECTOR = 1 + INODE_BITMAP_SECTORS + SECTOR_BITMAP_SECTORS)
    as EITS by reflexivity.
  assert (DATABLOCK_START_SECTOR = INODE_TABLE_START_SECTOR + INODE_TABLE_SECTORS) as ED.
  { unfold DATABLOCK_START_SECTOR, to_size_t.
    rewrite (Z.mod_small INODE_TABLE_START_SECTOR) by lia.
    apply Z.mod_small. lia. }
  assert (to_int DATABLOCK_START_SECTOR = DATABLOCK_START_SECTOR) as EDi.
  { unfold to_int. rewrite Z.mod_small by lia. lia. }
  unfold FS_Boot.
  unfold bind at 1. unfold Disk_Init. unfold bind at 1. unfold Disk_Load.
  change (-1 <? 0) with true. cbv iota.
  assert (zlen empty_disk = TOTAL_SECTORS) as Hempty.
  { unfold zlen, empty_disk. rewrite repeat_length. lia. }
  (* the superblock *)
  destruct (store_int_run (repeat 0 (Z.to_nat SECTOR_SIZE)) 0 OS_MAGIC)
    as (sb & Hsb & Hsbl & Hmagic & _ & _);
    [lia | unfold zlen; rewrite repeat_length; lia |].
  rewrite repeat_length in Hsbl.
  erewrite bind_run; [|apply defined_run, Hsb]. cbv beta iota.
  erewrite bind_run.
  2:{ apply Disk_Write_ok; cbn [disk]; [unfold zlen | unfold SUPERBLOCK_START_SECTOR
                                       | unfold SUPERBLOCK_START_SECTOR]; lia. }
  change (0 <? 0) with false. cbv iota.
  (* the two bitmaps *)
  match goal with
  | |- context [bind (bitmap_init _ _ 1) _ ?w1] =>
      destruct (bitmap_init_run INODE_BITMAP_START_SECTOR INODE_BITMAP_SECTORS 1 w1)
        as (w2 & Hb1 & Hlead1 & _ & Hout1 & L1 & O1 & E1);
        [lia | cbn [disk]; unfold zlen in *; rewrite length_insert; lia | lia | lia | nia |]
  end.
  erewrite bind_run; [|exact Hb1]. cbv beta iota.
  cbn [disk open_files osErrno io_log] in *. rewrite length_insert in L1.
  rewrite EDi.
  destruct (bitmap_init_run SECTOR_BITMAP_START_SECTOR SECTOR_BITMAP_SECTORS
              DATABLOCK_START_SECTOR w2)
    as (w3 & Hb2 & Hlead2 & _ & Hout2 & L2 & O2 & E2);
    [lia | unfold zlen in *; lia | lia | lia | lia |].
  erewrite bind_run; [|exact Hb2]. cbv beta iota.
  (* the inode table *)
  destruct (format_inode_table_run (Z.to_nat INODE_TABLE_SECTORS) 0 w3)
    as (w4 & Hfmt & O4 & E4 & L4 & Dout4 & Din4);
    [lia | lia | lia | unfold zlen in *; lia | lia |].
  erewrite bind_run; [|exact Hfmt]. cbv beta iota.
  change (0 <? 0) with false. cbn [negb]. cbv iota.
  unfold bind, put_open_files, ret. eexists. split; [reflexivity|].
  cbn [disk open_files osErrno io_log].
  assert (SUPERBLOCK_START_SECTOR = 0) as ESB by reflexivity.
  assert (0 <= DATABLOCK_START_SECTOR / (SECTOR_SIZE * 8)) as Ha0
    by (apply Z.div_pos; lia).
  assert (DATABLOCK_START_SECTOR / (SECTOR_SIZE * 8) < SECTOR_BITMAP_SECTORS) as Ha1.
  { apply Z.div_lt_upper_bound; lia. }
  repeat split.
  - unfold zlen in *. lia.
  - exists sb. split; [|done].
    rewrite Dout4 by lia. rewrite Hout2 by lia. rewrite Hout1 by lia.
    rewrite ESB. apply list_lookup_insert_eq. unfold zlen in Hempty. lia.
  - intros p Hp.
    assert (p / (SECTOR_SIZE * 8) = 0) as E0 by (apply Z.div_small; lia).
    transitivity (bitmap_bit (disk w2) INODE_BITMAP_START_SECTOR p).
    + apply bitmap_bit_ext. rewrite E0, Z.add_0_r.
      rewrite Dout4 by lia. apply Hout2; lia.
    + assert (1 / (SECTOR_SIZE * 8) = 0) as E1' by (apply Z.div_small; lia).
      rewrite E1' in Hlead1. rewrite Hlead1 by lia. f_equal.
      destruct (Z.eqb_spec p 0); [apply Z.ltb_lt | apply Z.ltb_ge]; lia.
  - intros p Hp.
    assert (0 <= p / (SECTOR_SIZE * 8) <= DATABLOCK_START_SECTOR / (SECTOR_SIZE * 8)) as Hpi.
    { split; [apply Z.div_pos; lia|].
      apply Z.lt_succ_r. apply Z.div_lt_upper_bound; lia. }
    transitivity (bitmap_bit (disk w3) SECTOR_BITMAP_START_SECTOR p).
    + apply bitmap_bit_ext. apply Dout4; lia.
    + apply Hlead2. lia.
  - intros j Hj. apply Din4. lia.
  - congruence.
Qed.

(** Property X26.  When the backing file does not exist, [FS_Boot] returns 0
    and leaves a formatted volume: the magic number in sector 0, in the first
    sector of the inode bitmap bit 0 set and no other, in the sector bitmap a
    bit set for each sector below [DATABLOCK_START_SECTOR], an inode table of
    zeroes except for the type, 1, of inode 0, and a cleared open-file table.
    *)
Theorem FS_Boot_formats (w : world) :
  8 <= SECTOR_SIZE -> 0 < MAX_FILES -> 0 < TOTAL_SECTORS < 2 ^ 31 ->
  INODE_TABLE_START_SECTOR + INODE_TABLE_SECTORS < TOTAL_SECTORS ->
  0 < INODE_TABLE_SECTORS ->
  exists w',
    FS_Boot OpeningFileError true w = Some (0, w')
    /\ zlen (disk w') = TOTAL_SECTORS
    /\ (exists sec0 : list Z,
          disk w' !! Z.to_nat 0 = Some sec0 /\ load_int sec0 0 = Some (to_int OS_MAGIC))
    /\ (forall p, 0 <= p < SECTOR_SIZE * 8 ->
          bitmap_bit (disk w') INODE_BITMAP_START_SECTOR p = Some (p =? 0))
    /\ (forall p, 0 <= p < (DATABLOCK_START_SECTOR / (SECTOR_SIZE * 8) + 1) * SECTOR_SIZE * 8 ->
          bitmap_bit (disk w') SECTOR_BITMAP_START_SECTOR p
          = Some (p <? DATABLOCK_START_SECTOR))
    /\ (forall j, 0 <= j < INODE_TABLE_SECTORS ->
          exists sec : list Z,
            disk w' !! Z.to_nat (INODE_TABLE_START_SECTOR + j) = Some sec
            /\ zlen sec = SECTOR_SIZE
            /\ (forall t, 0 <= t < SECTOR_SIZE ->
                  sec !! Z.to_nat t = Some (if (j =? 0) && (t =? 4) then 1 else 0)))
    /\ open_files w' = repeat (OpenFile 0 0 0) (Z.to_nat MAX_OPEN_FILES)
    /\ osErrno w' = osErrno w.
Proof. apply FS_Boot_format_run. Qed.

(** Property X27.  The image that [FS_Boot] formats boots: [FS_Boot] on it,
    loaded with its full length, returns 0. *)
Theorem FS_Boot_format_then_load (w w2 : world) (save_ok : bool) :
  8 <= SECTOR_SIZE -> 0 < MAX_FILES -> 0 < TOTAL_SECTORS < 2 ^ 31 ->
  INODE_TABLE_START_SECTOR + INODE_TABLE_SECTORS < TOTAL_SECTORS ->
  0 < INODE_TABLE_SECTORS ->
  exists w',
    FS_Boot OpeningFileError true w = Some (0, w')
    /\ FS_Boot (Loaded (disk w') (SECTOR_SIZE * TOTAL_SECTORS)) save_ok w2
       = Some (0, World (disk w') (repeat (OpenFile 0 0 0) (Z.to_nat MAX_OPEN_FILES))
                        (osErrno w2) (IORead 0 :: io_log w2)).
Proof.
  intros HSS HMF HTS Hfit HITS.
  destruct (FS_Boot_format_run w HSS HMF HTS Hfit HITS)
    as (w' & Hrun & _ & (sec0 & Hsec0 & Hmagic) & _).
  exists w'. split; [exact Hrun|].
  unfold FS_Boot.
  unfold bind at 1. unfold Disk_Init. unfold bind at 1. unfold Disk_Load.
  cbn [disk open_files osErrno io_log]. change (0 <? 0) with false. cbv iota.
  rewrite Z.eqb_refl. cbn [negb].
  unfold check_magic.
  unfold bind at 1. erewrite bind_run.
  2:{ apply Disk_Read_ok; [unfold SUPERBLOCK_START_SECTOR; lia | exact Hsec0]. }
  cbv beta iota. erewrite bind_run; [|apply defined_run, Hmagic].
  cbn [disk open_files osErrno io_log].
  change (to_int OS_MAGIC mod 2 ^ 32 =? OS_MAGIC) with true. done.
Qed.

End Boot.

(** * Writing and reading file data *)

Section FileData.
Context {P : Params}.









End FileData.

(** * Adding an entry to a directory *)

Section DirectoryEntries.
Context {P : Params}.








End DirectoryEntries.

(** * Looking a name up in a directory *)

Section Lookup.
Context {P : Params}.








End Lookup.

(** * Creating a file or a directory *)

Section Creating.
Context {P : Params}.


(** A volume on which [add_inode] can append an entry to the directory [p]:
    [d] is the disk, [ci] the first free inode, whose record lies at [cb] in
    its sector; the record of [p] lies at [pb] in the sector [ib0] and says
    that [p] is a directory of [n] entries; [sec] is the sector of slot [n],
    the first free sector when the slot is the first of its sector, and the
    last sector of the directory otherwise.  The bitmaps lie before the
    inode table, and the sectors named are on the disk and distinct. *)
Variables (type p ci n sec cb pb : Z) (file ib0 : list Z) (d : list sector).

Hypothesis HSS : sizeof_dirent_t <= SECTOR_SIZE < 2 ^ 31.
Hypothesis Hwf : wf_diskb d = true.
Hypothesis HIB : 0 <= INODE_BITMAP_SECTORS.
Hypothesis HSB : 0 <= SECTOR_BITMAP_SECTORS.
Hypothesis HIT : INODE_TABLE_START_SECTOR <= TOTAL_SECTORS.
Hypothesis HM : 0 < MAX_SECTORS_PER_FILE.
Hypothesis Htype : - 2 ^ 31 <= type < 2 ^ 31.
Hypothesis Hci : 0 <= ci < INODE_BITMAP_SECTORS * SECTOR_SIZE * 8.
Hypothesis Hci31 : INODE_BITMAP_SECTORS * SECTOR_SIZE * 8 < 2 ^ 31.
Hypothesis Hones :
  forall q, 0 <= q < ci -> bitmap_bit d INODE_BITMAP_START_SECTOR q = Some true.
Hypothesis Hzero : bitmap_bit d INODE_BITMAP_START_SECTOR ci = Some false.
Hypothesis Hcap : ci < INODE_BITMAP_SIZE.
Hypothesis Hsc : INODE_TABLE_START_SECTOR <= inode_sector_of ci < TOTAL_SECTORS.
Hypothesis Hcb : inode_base_checked ci (inode_sector_of ci) = Some cb.
Hypothesis Hcb1 : cb + sizeof_inode_t <= SECTOR_SIZE.
Hypothesis Hne : ci <> p.
Hypothesis Hsp : INODE_TABLE_START_SECTOR <= inode_sector_of p < TOTAL_SECTORS.
Hypothesis Hpb : inode_base_checked p (inode_sector_of p) = Some pb.
Hypothesis Hpb1 : pb + sizeof_inode_t <= SECTOR_SIZE.
Hypothesis Hib0 : d !! Z.to_nat (inode_sector_of p) = Some ib0.
Hypothesis Hty : inode_type ib0 pb = Some 1.
Hypothesis Hn : inode_size ib0 pb = Some n.
Hypothesis Hn0 : 0 <= n.
Hypothesis Hn31 : n + 1 < 2 ^ 31.
Hypothesis Hgrp : n / DIRENTS_PER_SECTOR < MAX_SECTORS_PER_FILE.
Hypothesis Hsec : INODE_TABLE_START_SECTOR <= sec < TOTAL_SECTORS.
Hypothesis HsecP : sec <> inode_sector_of p.
Hypothesis HsecC : sec <> inode_sector_of ci.
Hypothesis Hentry :
  if n mod DIRENTS_PER_SECTOR =? 0
  then sec < SECTOR_BITMAP_SECTORS * SECTOR_SIZE * 8 < 2 ^ 31
       /\ (forall q, 0 <= q < sec ->
             bitmap_bit d SECTOR_BITMAP_START_SECTOR q = Some true)
       /\ bitmap_bit d SECTOR_BITMAP_START_SECTOR sec = Some false
       /\ sec < SECTOR_BITMAP_SIZE
  else inode_data ib0 pb (n / DIRENTS_PER_SECTOR) = Some sec.



End Creating.

(** * The scenario configuration: what the runs show *)

Module ScenarioChecks.
Import Scenario.
#[local] Existing Instance scenario.

(** Claim C1 (the code departs from it).  [/a] is created and opened on a
    fresh volume (descriptor 0, inode 1, cursor 0); 513 bytes are written
    (the write returns 513), the cursor is set back to 0, and 513 bytes are
    read: [File_Read] returns 513, but it copies every sector to the start of
    the caller's buffer, so the buffer starts with the byte written last and
    its last byte is untouched: it differs from the bytes written. *)
Theorem File_Read_overwrites_buffer_start :
  returned file_a_open = Some 0
  /\ handle_after file_a_open 0 = Some (OpenFile 1 0 0)
  /\ returned written = Some 513
  /\ returned rewound = Some 0
  /\ returned read_back = Some (513, 2 :: repeat 7 511 ++ [0])
  /\ 2 :: repeat 7 511 ++ [0] <> two_sectors.
Proof. vm_compute. repeat split; try reflexivity. discriminate. Qed.

(** Claim C2 (the code departs from it).  The root directory has 26 entry
    slots, so its first entry sector (sector 13) is full and not the last;
    slot 0 of that sector holds inode 1, an empty regular file.
    [remove_inode] reads the two inodes and the trailing sector only, never
    sector 13, returns -1 and leaves the entry in place; [File_Unlink] of the
    file fails as well. *)
Theorem remove_inode_skips_full_sectors :
  int_after crowded INODE_TABLE_START_SECTOR 0 = Some 26
  /\ int_after crowded INODE_TABLE_START_SECTOR 4 = Some 1
  /\ int_after crowded INODE_TABLE_START_SECTOR 8 = Some 13
  /\ int_after crowded 13 MAX_NAME = Some 1
  /\ int_after crowded INODE_TABLE_START_SECTOR sizeof_inode_t = Some 0
  /\ int_after crowded INODE_TABLE_START_SECTOR (sizeof_inode_t + 4) = Some 0
  /\ returned (after crowded (remove_inode 0 0 1)) = Some (-1)
  /\ events_between crowded (after crowded (remove_inode 0 0 1))
     = Some [IORead 14; IORead 3; IORead 3]
  /\ int_after (after crowded (remove_inode 0 0 1)) 13 MAX_NAME = Some 1
  /\ returned (after crowded (File_Unlink (str "/a"))) = Some (-1).
Proof. vm_compute. repeat split; reflexivity. Qed.

(** Claim C3 (the code departs from it).  [/a] holds 2 bytes in one data
    sector (sector 14; the rest of its block list is 0) and is closed.
    [File_Unlink] succeeds and clears the sector-bitmap bit of sector 14, but
    its loop runs once per byte of the file, not once per sector, and also
    clears the bit of sector 0, the superblock. *)
Theorem File_Unlink_frees_superblock_sector :
  int_after small_file INODE_TABLE_START_SECTOR sizeof_inode_t = Some 2
  /\ int_after small_file INODE_TABLE_START_SECTOR (sizeof_inode_t + 8) = Some 14
  /\ int_after small_file INODE_TABLE_START_SECTOR (sizeof_inode_t + 12) = Some 0
  /\ handle_after small_file 0 = Some (OpenFile 0 2 2)
  /\ bit_after small_file SECTOR_BITMAP_START_SECTOR 14 = Some true
  /\ bit_after small_file SECTOR_BITMAP_START_SECTOR SUPERBLOCK_START_SECTOR = Some true
  /\ returned unlinked = Some 0
  /\ bit_after unlinked SECTOR_BITMAP_START_SECTOR 14 = Some false
  /\ bit_after unlinked SECTOR_BITMAP_START_SECTOR SUPERBLOCK_START_SECTOR = Some false.
Proof. vm_compute. repeat split; reflexivity. Qed.

(** Claim C4 (the code departs from it).  The root directory holds one
    entry; descriptor 0 was never opened, its table entry holds inode 0.
    [File_Write] of -1 bytes through descriptor 0 is not rejected: it returns
    0, sets no error, and the size of the root directory on disk goes from 1
    to 0. *)
Theorem File_Write_shrinks_root_directory :
  returned one_dir = Some 0
  /\ int_after one_dir INODE_TABLE_START_SECTOR 0 = Some 1
  /\ int_after one_dir INODE_TABLE_START_SECTOR 4 = Some 1
  /\ handle_after one_dir 0 = Some (OpenFile 0 0 0)
  /\ returned shrunk = Some 0
  /\ errno_after shrunk = Some None
  /\ int_after shrunk INODE_TABLE_START_SECTOR 0 = Some 0
  /\ int_after shrunk INODE_TABLE_START_SECTOR 4 = Some 1.
Proof. vm_compute. repeat split; reflexivity. Qed.

(** Claim C6 (the code departs from it).  [bitmap_init] for a bitmap of one
    sector at sector 1 with one preset bit, the call that [FS_Boot] makes for
    the inode bitmap, writes sector 1 and then sector 2, which is outside the
    bitmap, and leaves byte 0x80 there. *)
Theorem bitmap_init_writes_past_region :
  log_after (bitmap_init INODE_BITMAP_START_SECTOR INODE_BITMAP_SECTORS 1
               (World empty_disk [] None []))
  = Some [IOWrite 2; IOWrite 1]
  /\ empty_disk !! 2%nat = Some (repeat 0 512)
  /\ disk_after (bitmap_init INODE_BITMAP_START_SECTOR INODE_BITMAP_SECTORS 1
                   (World empty_disk [] None []))
     ≫= (fun d => d !! 2%nat)
     = Some (128 :: repeat 0 511).
Proof. vm_compute. repeat split; reflexivity. Qed.

(** Claim C7 (the code departs from it).  After boot no file is open, yet
    [File_Read] and [File_Write] on descriptor 0 succeed without [E_BAD_FD].
    With [/b] and [/c] (inodes 2 and 3) open on descriptors 0 and 1,
    descriptor 1 is an open entry, yet [File_Read] and [File_Write] on it fail
    with [E_BAD_FD]: the test looks for an open file whose inode number is the
    descriptor. *)
Theorem descriptor_check_looks_up_inodes :
  (handle_after booted 0 = Some (OpenFile 0 0 0)
   /\ returned (after booted (File_Read 0 [] 10)) = Some (0, [])
   /\ errno_after (after booted (File_Read 0 [] 10)) = Some None
   /\ returned (after booted (File_Write 0 [] 0)) = Some 0
   /\ errno_after (after booted (File_Write 0 [] 0)) = Some None)
  /\ (handle_after two_open 1 = Some (OpenFile 3 0 0)
      /\ returned (after two_open (File_Read 1 [0; 0] 2)) = Some (-1, [0; 0])
      /\ errno_after (after two_open (File_Read 1 [0; 0] 2)) = Some (Some E_BAD_FD)
      /\ returned (after two_open (File_Write 1 [0; 0] 2)) = Some (-1)
      /\ errno_after (after two_open (File_Write 1 [0; 0] 2)) = Some (Some E_BAD_FD)).
Proof. vm_compute. repeat split; reflexivity. Qed.

(** Claim C8 (the code departs from it).  The root directory holds one
    entry, 20 bytes.  [Dir_Read] with capacity -1 does not fail with
    [E_BUFFER_TOO_SMALL]: the capacity is compared as a [size_t]; the call
    copies the 20 bytes into the caller's buffer, returns 1 and sets no
    error. *)
Theorem Dir_Read_accepts_negative_capacity :
  returned (after file_a (Dir_Size (str "/"))) = Some 20
  /\ returned (after file_a (Dir_Read (str "/") (repeat 0 20) (-1)))
     = Some (1, str "a" ++ repeat 0 15 ++ [1; 0; 0; 0])
  /\ errno_after (after file_a (Dir_Read (str "/") (repeat 0 20) (-1))) = Some None.
Proof. vm_compute. repeat split; reflexivity. Qed.

(** Claim C9 (the code departs from it).  From a freshly formatted volume,
    where bit 0 of the inode bitmap is set: 144 bytes are written through
    descriptor 0, which was never opened, and land in a new entry sector of
    the root directory; the entry [x] they forge is opened, and one byte
    written to it goes to sector 1.  All three calls succeed, and bit 0 of the
    inode bitmap is clear afterwards. *)
Theorem inode_bitmap_bit_of_root_cleared :
  bit_after booted INODE_BITMAP_START_SECTOR 0 = Some true
  /\ handle_after booted 0 = Some (OpenFile 0 0 0)
  /\ returned (forged_root INODE_BITMAP_START_SECTOR) = Some 144
  /\ returned (forged_open INODE_BITMAP_START_SECTOR) = Some 0
  /\ handle_after (forged_open INODE_BITMAP_START_SECTOR) 0 = Some (OpenFile 71 1 0)
  /\ returned (forged_write INODE_BITMAP_START_SECTOR) = Some 1
  /\ bit_after (forged_write INODE_BITMAP_START_SECTOR) INODE_BITMAP_START_SECTOR 0
     = Some false.
Proof. vm_compute. repeat split; reflexivity. Qed.

(** Up to one sector the bytes written come back: the 512 bytes written to
    [/a] are the 512 bytes read. *)
Lemma one_sector_round_trip :
  returned read_back_one_sector = Some (512, one_sector).
Proof. vm_compute. reflexivity. Qed.

(** Creating an entry adds one slot to the parent; unlinking it leaves the
    count of slots alone and zeroes the slot in place. *)
Lemma directory_size_on_create_and_unlink :
  int_after booted INODE_TABLE_START_SECTOR 0 = Some 0
  /\ returned file_a = Some 0
  /\ int_after file_a INODE_TABLE_START_SECTOR 0 = Some 1
  /\ (take 20 <$> (disk_after small_file ≫= (fun d => d !! 13%nat)))
     = Some (str "a" ++ repeat 0 15 ++ [1; 0; 0; 0])
  /\ returned unlinked = Some 0
  /\ int_after unlinked INODE_TABLE_START_SECTOR 0 = Some 1
  /\ (take 20 <$> (disk_after unlinked ≫= (fun d => d !! 13%nat)))
     = Some (repeat 0 20).
Proof. vm_compute. repeat split; reflexivity. Qed.

(** A directory shrinks without any negative argument as well: with the
    forged inode pointing at the first sector of the inode table, the byte
    written to [/x] lands on the size of the root directory, 144 at that
    point, and leaves 0. *)
Lemma forged_write_shrinks_root_directory :
  returned (forged_root INODE_TABLE_START_SECTOR) = Some 144
  /\ int_after (forged_root INODE_TABLE_START_SECTOR) INODE_TABLE_START_SECTOR 0
     = Some 144
  /\ returned (forged_open INODE_TABLE_START_SECTOR) = Some 0
  /\ returned (forged_write INODE_TABLE_START_SECTOR) = Some 1
  /\ int_after (forged_write INODE_TABLE_START_SECTOR) INODE_TABLE_START_SECTOR 0
     = Some 0
  /\ int_after (forged_write INODE_TABLE_START_SECTOR) INODE_TABLE_START_SECTOR 4
     = Some 1.
Proof. vm_compute. repeat split; reflexivity. Qed.

(** [File_Close_frame] at descriptor 0 of the volume where [/a] is open. *)
Lemma File_Close_frame_witness :
  open_entryb (world_after file_a_open) 0 = true
  /\ exists w',
       File_Close 0 (world_after file_a_open) = Some (0, w')
       /\ io_log w' = io_log (world_after file_a_open)
       /\ disk w' = disk (world_after file_a_open)
       /\ osErrno w' = osErrno (world_after file_a_open)
       /\ (exists f', open_files w' !! Z.to_nat 0 = Some f' /\ of_inode f' = 0)
       /\ length (open_files w') = length (open_files (world_after file_a_open))
       /\ (forall i, i <> Z.to_nat 0 ->
             open_files w' !! i = open_files (world_after file_a_open) !! i).
Proof.
  assert (open_entryb (world_after file_a_open) 0 = true) as H by (vm_compute; reflexivity).
  split; [exact H | exact (File_Close_frame 0 (world_after file_a_open) H)].
Defined.

(** [bitmap_first_unused_beyond_capacity] on the inode bitmap of a fresh
    volume with a capacity of one bit: the first zero bit is bit 1. *)
Lemma bitmap_first_unused_beyond_capacity_witness :
  let w := world_after booted in
  (exists w',
     bitmap_first_unused INODE_BITMAP_START_SECTOR INODE_BITMAP_SECTORS 1 w = Some (-1, w')
     /\ bitmap_bit (disk w') INODE_BITMAP_START_SECTOR 1 = Some true
     /\ (forall q, 0 <= q -> q <> 1 ->
           bitmap_bit (disk w') INODE_BITMAP_START_SECTOR q
           = bitmap_bit (disk w) INODE_BITMAP_START_SECTOR q)
     /\ (forall s, s <> Z.to_nat (INODE_BITMAP_START_SECTOR + 1 / (SECTOR_SIZE * 8)) ->
           disk w' !! s = disk w !! s)
     /\ head (io_log w')
        = Some (IOWrite (INODE_BITMAP_START_SECTOR + 1 / (SECTOR_SIZE * 8)))
     /\ open_files w' = open_files w /\ osErrno w' = osErrno w)
  /\ (forall w0 r w1,
        bitmap_first_unused INODE_BITMAP_START_SECTOR INODE_BITMAP_SECTORS 1 w0
        = Some (r, w1) -> 0 <= r -> r < 1).
Proof.
  apply (bitmap_first_unused_beyond_capacity
           INODE_BITMAP_START_SECTOR INODE_BITMAP_SECTORS 1 1 (world_after booted)).
  - reflexivity.
  - vm_compute; reflexivity.
  - vm_compute; discriminate.
  - vm_compute; discriminate.
  - vm_compute; reflexivity.
  - vm_compute. split; [discriminate | reflexivity].
  - intros q Hq. assert (q = 0) as -> by lia. vm_compute; reflexivity.
  - vm_compute; reflexivity.
  - lia.
Defined.

(** ** The properties at inputs of the scenario *)

(** A run that returns [r] is the pair of [r] and the state after it. *)
Lemma run_result {A} (st : option (A * world)) (r : A) :
  returned st = Some r -> st = Some (r, world_after st).
Proof. destruct st as [[a w]|]; [|done]. cbn. by intros [= ->]. Qed.

(** A goal [st = Some (r, world_after st)], by evaluation of the result. *)
Tactic Notation "run_of" constr(st) :=
  match goal with
  | |- _ = Some (?r, _) =>
      let H := fresh "H" in
      assert (returned st = Some r) as H by (vm_compute; reflexivity);
      exact (run_result st r H)
  end.

(** [Dir_Read_nonnegative_capacity] at the root of the volume that holds
    [/a], with a buffer of exactly one entry. *)
Lemma Dir_Read_nonnegative_capacity_witness :
  exists r w2,
    Dir_Read (slashes 0) (repeat 0 20) 20 (world_after file_a) = Some (r, w2)
    /\ fst r = 1
    /\ (forall o, 0 <= o < sizeof_dirent_t ->
          snd r !! Z.to_nat (0 * sizeof_dirent_t + o)
          = dir_byte (disk (world_after file_a)) (root_inode_sector file_a) 0 0 o).
Proof.
  assert (0 <= INODE_TABLE_START_SECTOR < TOTAL_SECTORS) as Hs
    by (vm_compute; split; [discriminate | reflexivity]).
  assert (disk (world_after file_a) !! Z.to_nat INODE_TABLE_START_SECTOR
          = Some (root_inode_sector file_a)) as Hib by (vm_compute; reflexivity).
  pose proof (follow_path_slashes 0 (world_after file_a) (root_inode_sector file_a)
                Hs Hib) as Hpath.
  assert (sizeof_dirent_t <= SECTOR_SIZE < 2 ^ 31) as HSS
    by (vm_compute; split; [discriminate | reflexivity]).
  destruct (Dir_Read_nonnegative_capacity (slashes 0) (repeat 0 20) 20
              (world_after file_a) _ 0 0 1 None (root_inode_sector file_a) HSS Hpath)
    as (r & w2 & Hrun & _ & _ & Hres).
  - lia.
  - vm_compute. split; [discriminate | reflexivity].
  - vm_compute. reflexivity.
  - vm_compute. reflexivity.
  - lia.
  - intros i Hi Hlt. assert (i = 0) as -> by (change DIRENTS_PER_SECTOR with 25 in Hlt; lia).
    exists 13, (default [] (disk (world_after file_a) !! 13%nat)).
    vm_compute. repeat split; try reflexivity; discriminate.
  - vm_compute. split; [discriminate | reflexivity].
  - vm_compute. discriminate.
  - change (20 <? 1 * sizeof_dirent_t) with false in Hres. cbv iota in Hres.
    destruct Hres as (Hn & _ & _ & Hbytes & _).
    exists r, w2. split; [exact Hrun|]. split; [exact Hn|].
    intros o Ho. apply Hbytes; [lia | exact Ho].
Defined.

(** [unlink_root_spelling] at the spelling [//] on the volume that holds
    [/a]. *)
Lemma unlink_root_spelling_witness :
  (exists w', Dir_Unlink (slashes 1) (world_after file_a) = Some (-1, w')
              /\ disk w' = disk (world_after file_a))
  /\ (exists r w', File_Unlink (slashes 1) (world_after file_a) = Some (r, w')
                   /\ r < 0 /\ disk w' = disk (world_after file_a)).
Proof.
  apply (unlink_root_spelling 1 (world_after file_a) (root_inode_sector file_a) 1).
  - vm_compute. split; [discriminate | reflexivity].
  - vm_compute. reflexivity.
  - vm_compute. reflexivity.
  - vm_compute. reflexivity.
  - vm_compute. reflexivity.
  - lia.
Defined.

(** [follow_path_reads_only] at [/a] on the volume that holds it. *)
Lemma follow_path_reads_only_witness :
  reads_only (world_after file_a) (world_after resolved_a).
Proof.
  apply (follow_path_reads_only (str "/a") (world_after file_a)
           (Followed 0 (Some 1) (Some [97])) (world_after resolved_a)).
  run_of resolved_a.
Defined.

(** [File_Open_table_full] on a table without a free entry. *)
Lemma File_Open_table_full_witness :
  File_Open (str "/a") crowded_table
  = Some (-1, with_errno crowded_table E_TOO_MANY_OPEN_FILES).
Proof.
  apply (File_Open_table_full (str "/a") crowded_table). vm_compute. reflexivity.
Defined.

(** [File_Seek_spec] at offset 5 of [/a] after 513 bytes were written. *)
Lemma File_Seek_spec_witness :
  File_Seek 0 5 (world_after written)
  = Some (0, with_handle (world_after written) 0 (OpenFile 1 513 5)).
Proof.
  assert (has_inode (world_after written) 0 = true) as H1 by (vm_compute; reflexivity).
  assert (0 <= 0 < MAX_OPEN_FILES) as H2 by (vm_compute; split; [discriminate | reflexivity]).
  assert (open_files (world_after written) !! Z.to_nat 0 = Some (OpenFile 1 513 513)) as H3
    by (vm_compute; reflexivity).
  exact (File_Seek_spec 0 5 (world_after written) (OpenFile 1 513 513) H1 H2 H3).
Defined.

(** [seek_to_end_then_read] on [/a] after 513 bytes were written. *)
Lemma seek_to_end_then_read_witness :
  exists w1,
    File_Seek 0 513 (world_after written) = Some (0, w1)
    /\ forall buffer size, File_Read 0 buffer size w1 = Some ((0, buffer), w1).
Proof.
  assert (has_inode (world_after written) 0 = true) as H1 by (vm_compute; reflexivity).
  assert (0 <= 0 < MAX_OPEN_FILES) as H2 by (vm_compute; split; [discriminate | reflexivity]).
  assert (open_files (world_after written) !! Z.to_nat 0 = Some (OpenFile 1 513 513)) as H3
    by (vm_compute; reflexivity).
  assert (0 <= of_size (OpenFile 1 513 513)) as H4 by (vm_compute; discriminate).
  exact (seek_to_end_then_read 0 (world_after written) (OpenFile 1 513 513) H1 H2 H3 H4).
Defined.


(** [File_Close_rejects] at descriptor -1. *)
Lemma File_Close_rejects_witness :
  File_Close (-1) (world_after booted)
  = Some (-1, with_errno (world_after booted) E_BAD_FD).
Proof. apply (File_Close_rejects (-1) (world_after booted)). left. lia. Defined.

(** [File_Close_twice] at descriptor 0 of the volume where [/a] is open. *)
Lemma File_Close_twice_witness :
  exists w1,
    File_Close 0 (world_after file_a_open) = Some (0, w1)
    /\ File_Close 0 w1 = Some (-1, with_errno w1 E_BAD_FD).
Proof.
  apply (File_Close_twice 0 (world_after file_a_open)). vm_compute. reflexivity.
Defined.

(** [File_Open_resolved] at [/a] on the volume that holds it. *)
Lemma File_Open_resolved_witness :
  File_Open (str "/a") (world_after file_a)
  = Some (0, with_handle (with_read (world_after resolved_a) (inode_sector_of 1)) 0
               (OpenFile 1 0 0)).
Proof.
  assert (follow_path (str "/a") (world_after file_a)
          = Some (Followed 0 (Some 1) (Some [97]), world_after resolved_a)) as Hpath
    by (run_of resolved_a).
  assert (new_file_fd_loop (open_files (world_after file_a)) 0 = 0) as H1
    by (vm_compute; reflexivity).
  assert (0 <= 0 < MAX_OPEN_FILES) as H2 by (vm_compute; split; [discriminate | reflexivity]).
  assert (open_files (world_after file_a) !! Z.to_nat 0 = Some (OpenFile 0 0 0)) as H3
    by (vm_compute; reflexivity).
  assert (0 <= 1) as H4 by lia.
  assert (0 <= inode_sector_of 1 < TOTAL_SECTORS) as H5
    by (vm_compute; split; [discriminate | reflexivity]).
  assert (disk (world_after file_a) !! Z.to_nat (inode_sector_of 1)
          = Some (root_inode_sector file_a)) as H6 by (vm_compute; reflexivity).
  assert (inode_base_checked 1 (inode_sector_of 1) = Some 72) as H7
    by (vm_compute; reflexivity).
  assert (inode_type (root_inode_sector file_a) 72 = Some 0) as H8
    by (vm_compute; reflexivity).
  assert (inode_size (root_inode_sector file_a) 72 = Some 0) as H9
    by (vm_compute; reflexivity).
  exact (File_Open_resolved (str "/a") (world_after file_a) (world_after resolved_a)
           0 1 (Some [97]) 0 (OpenFile 0 0 0) (root_inode_sector file_a) 72 0 0
           H1 H2 H3 Hpath H4 H5 H6 H7 H8 H9).
Defined.

(** [relative_path_rejected] at the path [a] on a fresh volume. *)
Lemma relative_path_rejected_witness :
  let w := world_after booted in
  (forall type, create_file_or_directory type (str "a") w = Some (-1, with_errno w E_CREATE))
  /\ File_Unlink (str "a") w = Some (-1, with_errno w E_NO_SUCH_FILE)
  /\ Dir_Unlink (str "a") w = Some (-1, with_errno w E_NO_SUCH_DIR)
  /\ Dir_Size (str "a") w = Some (-1, with_errno w E_NO_SUCH_DIR)
  /\ (forall buffer size,
        Dir_Read (str "a") buffer size w = Some ((-1, buffer), with_errno w E_NO_SUCH_DIR)).
Proof.
  apply (relative_path_rejected (str "a") (world_after booted)).
  vm_compute. discriminate.
Defined.

(** [create_refused] at [/a] on the volume that holds it already. *)
Lemma create_refused_witness :
  create_file_or_directory 0 (str "/a") (world_after file_a)
  = Some (-1, with_errno (world_after resolved_a) E_CREATE)
  /\ reads_only (world_after file_a) (world_after resolved_a).
Proof.
  apply (create_refused 0 (str "/a") (world_after file_a)
           (Followed 0 (Some 1) (Some [97])) (world_after resolved_a)).
  - run_of resolved_a.
  - right. exists 1. split; [reflexivity | lia].
Defined.

(** [remove_inode_refused] for the file [/a] removed as a directory. *)
Lemma remove_inode_refused_witness :
  remove_inode 1 0 1 (world_after file_a)
  = Some (-3, with_read (world_after file_a) (inode_sector_of 1)).
Proof.
  assert (0 <= inode_sector_of 1 < TOTAL_SECTORS) as H1
    by (vm_compute; split; [discriminate | reflexivity]).
  assert (disk (world_after file_a) !! Z.to_nat (inode_sector_of 1)
          = Some (root_inode_sector file_a)) as H2 by (vm_compute; reflexivity).
  assert (inode_type (root_inode_sector file_a) (inode_base_mod 1) = Some 0) as H3
    by (vm_compute; reflexivity).
  assert (inode_size (root_inode_sector file_a) (inode_base_mod 1) = Some 0) as H4
    by (vm_compute; reflexivity).
  assert (0 <> 1 \/ 0 < 0) as H5 by (left; lia).
  exact (remove_inode_refused 1 0 1 (world_after file_a) (root_inode_sector file_a) 0 0
           H1 H2 H3 H4 H5).
Defined.


(** [File_Unlink_refused] for [/a] while it is open. *)
Lemma File_Unlink_refused_witness :
  let w := world_after file_a_open in
  let fp := Followed 0 (Some 1) (Some [97]) in
  let w1 := world_after resolved_a_open in
  (fp_parent fp < 0 -> File_Unlink (str "/a") w = Some (-1, with_errno w1 E_NO_SUCH_FILE))
  /\ (forall c, 0 <= fp_parent fp -> fp_last_inode fp = Some c ->
        has_inode w c = true ->
        File_Unlink (str "/a") w = Some (-1, with_errno w1 E_FILE_IN_USE))
  /\ reads_only w w1.
Proof.
  apply (File_Unlink_refused (str "/a") (world_after file_a_open)
           (Followed 0 (Some 1) (Some [97])) (world_after resolved_a_open)).
  run_of resolved_a_open.
Defined.

(** [Dir_Size_is_enough] at the root of the volume that holds [/a]. *)
Lemma Dir_Size_is_enough_witness :
  Dir_Size (slashes 0) (world_after file_a)
  = Some (1 * sizeof_dirent_t, with_read (world_after resolved_root) (inode_sector_of 0))
  /\ exists buffer' w2,
       Dir_Read (slashes 0) (repeat 0 20) (1 * sizeof_dirent_t) (world_after file_a)
       = Some ((1, buffer'), w2).
Proof.
  apply (Dir_Size_is_enough (slashes 0) (repeat 0 20) (world_after file_a)
           (world_after resolved_root) 0 0 1 None (root_inode_sector file_a)).
  - vm_compute. split; [discriminate | reflexivity].
  - run_of resolved_root.
  - lia.
  - vm_compute. split; [discriminate | reflexivity].
  - vm_compute. reflexivity.
  - vm_compute. reflexivity.
  - lia.
  - vm_compute. reflexivity.
  - intros i Hi Hlt. assert (i = 0) as -> by (change DIRENTS_PER_SECTOR with 25 in Hlt; lia).
    exists 13, (default [] (disk (world_after resolved_root) !! 13%nat)).
    vm_compute. repeat split; try reflexivity; discriminate.
  - vm_compute. discriminate.
Defined.

(** [bitmap_first_unused_allocates] on the inode bitmap of a fresh volume:
    the first zero bit is bit 1. *)
Lemma bitmap_first_unused_allocates_witness :
  let w := world_after booted in
  exists w',
    bitmap_first_unused INODE_BITMAP_START_SECTOR INODE_BITMAP_SECTORS INODE_BITMAP_SIZE w
    = Some (1, w')
    /\ bitmap_bit (disk w') INODE_BITMAP_START_SECTOR 1 = Some true
    /\ (forall q, 0 <= q -> q <> 1 ->
          bitmap_bit (disk w') INODE_BITMAP_START_SECTOR q
          = bitmap_bit (disk w) INODE_BITMAP_START_SECTOR q)
    /\ (forall s, s <> Z.to_nat (INODE_BITMAP_START_SECTOR + 1 / (SECTOR_SIZE * 8)) ->
          disk w' !! s = disk w !! s)
    /\ open_files w' = open_files w /\ osErrno w' = osErrno w.
Proof.
  apply (bitmap_first_unused_allocates INODE_BITMAP_START_SECTOR INODE_BITMAP_SECTORS
           INODE_BITMAP_SIZE 1 (world_after booted)).
  - reflexivity.
  - vm_compute; reflexivity.
  - vm_compute; discriminate.
  - vm_compute; discriminate.
  - vm_compute; reflexivity.
  - vm_compute. split; [discriminate | reflexivity].
  - intros q Hq. assert (q = 0) as -> by lia. vm_compute; reflexivity.
  - vm_compute; reflexivity.
  - vm_compute; reflexivity.
Defined.

(** [bitmap_first_unused_full] on an inode bitmap without a zero bit. *)
Lemma bitmap_first_unused_full_witness :
  exists w',
    bitmap_first_unused INODE_BITMAP_START_SECTOR INODE_BITMAP_SECTORS INODE_BITMAP_SIZE
      full_inode_bitmap = Some (-1, w')
    /\ reads_only full_inode_bitmap w'.
Proof.
  apply (bitmap_first_unused_full INODE_BITMAP_START_SECTOR INODE_BITMAP_SECTORS
           INODE_BITMAP_SIZE full_inode_bitmap).
  - reflexivity.
  - vm_compute; reflexivity.
  - vm_compute; discriminate.
  - vm_compute; discriminate.
  - vm_compute; discriminate.
  - apply (bits_below (disk full_inode_bitmap) INODE_BITMAP_START_SECTOR true 4096).
    vm_compute. reflexivity.
Defined.

(** [bitmap_first_unused_frame] on the inode bitmap of a fresh volume. *)
Lemma bitmap_first_unused_frame_witness :
  let w := world_after booted in
  let w' := world_after inode_allocated in
  open_files w' = open_files w /\ osErrno w' = osErrno w
  /\ length (disk w') = length (disk w)
  /\ (forall s, 0 <= s ->
        ~ (INODE_BITMAP_START_SECTOR <= s
           < INODE_BITMAP_START_SECTOR + INODE_BITMAP_SECTORS) ->
        disk w' !! Z.to_nat s = disk w !! Z.to_nat s).
Proof.
  apply (bitmap_first_unused_frame INODE_BITMAP_START_SECTOR INODE_BITMAP_SECTORS
           INODE_BITMAP_SIZE (world_after booted) 1 (world_after inode_allocated)).
  - vm_compute; discriminate.
  - run_of inode_allocated.
Defined.

(** [bitmap_reset_clears] at bit 0 of the inode bitmap of a fresh volume. *)
Lemma bitmap_reset_clears_witness :
  let w := world_after booted in
  let p := (0 / SECTOR_SIZE * SECTOR_SIZE + 0 mod SECTOR_SIZE / 8) * 8 + 0 mod 8 in
  (0 < SECTOR_SIZE -> p = 0)
  /\ exists w',
       bitmap_reset INODE_BITMAP_START_SECTOR INODE_BITMAP_SECTORS 0 w = Some (0, w')
       /\ bitmap_bit (disk w') INODE_BITMAP_START_SECTOR p = Some false
       /\ (forall q, 0 <= q -> q <> p ->
             bitmap_bit (disk w') INODE_BITMAP_START_SECTOR q
             = bitmap_bit (disk w) INODE_BITMAP_START_SECTOR q)
       /\ (forall s, s <> Z.to_nat (INODE_BITMAP_START_SECTOR + 0 / SECTOR_SIZE) ->
             disk w' !! s = disk w !! s)
       /\ open_files w' = open_files w /\ osErrno w' = osErrno w.
Proof.
  apply (bitmap_reset_clears INODE_BITMAP_START_SECTOR INODE_BITMAP_SECTORS 0
           (world_after booted)).
  - reflexivity.
  - vm_compute; reflexivity.
  - vm_compute; discriminate.
  - lia.
  - vm_compute; reflexivity.
Defined.

(** [bitmap_allocate_then_free] on the inode bitmap of a fresh volume. *)
Lemma bitmap_allocate_then_free_witness :
  let w := world_after booted in
  exists w',
    (r <~ bitmap_first_unused INODE_BITMAP_START_SECTOR INODE_BITMAP_SECTORS
            INODE_BITMAP_SIZE ;;
     bitmap_reset INODE_BITMAP_START_SECTOR INODE_BITMAP_SECTORS r) w = Some (0, w')
    /\ disk w' = disk w /\ open_files w' = open_files w /\ osErrno w' = osErrno w.
Proof.
  apply (bitmap_allocate_then_free INODE_BITMAP_START_SECTOR INODE_BITMAP_SECTORS
           INODE_BITMAP_SIZE 1 (world_after booted)).
  - reflexivity.
  - vm_compute; reflexivity.
  - vm_compute; discriminate.
  - vm_compute; discriminate.
  - vm_compute; reflexivity.
  - vm_compute. split; [discriminate | reflexivity].
  - intros q Hq. assert (q = 0) as -> by lia. vm_compute; reflexivity.
  - vm_compute; reflexivity.
  - vm_compute; reflexivity.
  - vm_compute; reflexivity.
Defined.

(** [bitmap_init_marks] for the inode bitmap, one bit set, written over a
    fresh volume. *)
Lemma bitmap_init_marks_witness :
  let w := world_after booted in
  exists w',
    bitmap_init INODE_BITMAP_START_SECTOR INODE_BITMAP_SECTORS 1 w = Some (tt, w')
    /\ (forall p, 0 <= p < (1 / (SECTOR_SIZE * 8) + 1) * SECTOR_SIZE * 8 ->
          bitmap_bit (disk w') INODE_BITMAP_START_SECTOR p = Some (p <? 1))
    /\ (1 mod 8 = 0 ->
        forall p, 0 <= p < INODE_BITMAP_SECTORS * SECTOR_SIZE * 8 ->
          bitmap_bit (disk w') INODE_BITMAP_START_SECTOR p = Some (p <? 1))
    /\ (forall s, 0 <= s ->
          ~ (INODE_BITMAP_START_SECTOR <= s
             <= INODE_BITMAP_START_SECTOR + INODE_BITMAP_SECTORS) ->
          disk w' !! Z.to_nat s = disk w !! Z.to_nat s)
    /\ length (disk w') = length (disk w)
    /\ open_files w' = open_files w /\ osErrno w' = osErrno w.
Proof.
  apply (bitmap_init_marks INODE_BITMAP_START_SECTOR INODE_BITMAP_SECTORS 1
           (world_after booted)).
  - reflexivity.
  - vm_compute; reflexivity.
  - vm_compute; discriminate.
  - vm_compute; discriminate.
  - vm_compute. split; [discriminate | reflexivity].
Defined.

(** [FS_Boot_loaded] on the image of a fresh volume. *)
Lemma FS_Boot_loaded_witness :
  FS_Boot (Loaded (disk (world_after booted)) (SECTOR_SIZE * TOTAL_SECTORS)) true
    initial_world
  = Some (0, World (disk (world_after booted))
                   (repeat (OpenFile 0 0 0) (Z.to_nat MAX_OPEN_FILES)) None [IORead 0]).
Proof.
  assert (0 < TOTAL_SECTORS) as H1 by reflexivity.
  assert (disk (world_after booted) !! Z.to_nat 0
          = Some (default [] (disk (world_after booted) !! 0%nat))) as H2
    by (vm_compute; reflexivity).
  assert (load_int (default [] (disk (world_after booted) !! 0%nat)) 0
          = Some (to_int OS_MAGIC)) as H3 by (vm_compute; reflexivity).
  exact (FS_Boot_loaded (disk (world_after booted)) (SECTOR_SIZE * TOTAL_SECTORS) true
           initial_world _ _ H1 H2 H3).
Defined.

(** [FS_Boot_formats] from the initial state of the program. *)
Lemma FS_Boot_formats_witness :
  exists w',
    FS_Boot OpeningFileError true initial_world = Some (0, w')
    /\ zlen (disk w') = TOTAL_SECTORS
    /\ (exists sec0 : list Z,
          disk w' !! Z.to_nat 0 = Some sec0 /\ load_int sec0 0 = Some (to_int OS_MAGIC))
    /\ (forall p, 0 <= p < SECTOR_SIZE * 8 ->
          bitmap_bit (disk w') INODE_BITMAP_START_SECTOR p = Some (p =? 0))
    /\ (forall p, 0 <= p < (DATABLOCK_START_SECTOR / (SECTOR_SIZE * 8) + 1) * SECTOR_SIZE * 8 ->
          bitmap_bit (disk w') SECTOR_BITMAP_START_SECTOR p
          = Some (p <? DATABLOCK_START_SECTOR))
    /\ (forall j, 0 <= j < INODE_TABLE_SECTORS ->
          exists sec : list Z,
            disk w' !! Z.to_nat (INODE_TABLE_START_SECTOR + j) = Some sec
            /\ zlen sec = SECTOR_SIZE
            /\ (forall t, 0 <= t < SECTOR_SIZE ->
                  sec !! Z.to_nat t = Some (if (j =? 0) && (t =? 4) then 1 else 0)))
    /\ open_files w' = repeat (OpenFile 0 0 0) (Z.to_nat MAX_OPEN_FILES)
    /\ osErrno w' = osErrno initial_world.
Proof.
  apply (FS_Boot_formats initial_world).
  - vm_compute; discriminate.
  - reflexivity.
  - vm_compute. split; reflexivity.
  - vm_compute; reflexivity.
  - vm_compute; reflexivity.
Defined.

(** [FS_Boot_format_then_load] from the initial state of the program. *)
Lemma FS_Boot_format_then_load_witness :
  exists w',
    FS_Boot OpeningFileError true initial_world = Some (0, w')
    /\ FS_Boot (Loaded (disk w') (SECTOR_SIZE * TOTAL_SECTORS)) false initial_world
       = Some (0, World (disk w') (repeat (OpenFile 0 0 0) (Z.to_nat MAX_OPEN_FILES))
                        (osErrno initial_world) (IORead 0 :: io_log initial_world)).
Proof.
  apply (FS_Boot_format_then_load initial_world initial_world false).
  - vm_compute; discriminate.
  - reflexivity.
  - vm_compute. split; reflexivity.
  - vm_compute; reflexivity.
  - vm_compute; reflexivity.
Defined.




End ScenarioChecks.
